(** * ShotDoctor: the release-backward shot detector

    A shallow embedding of the two detectors of the repository,
    [LiveShotDetector] (src/api/core/live_analysis.py) and
    [ShotDetectionDebugger] (src/api/core/debug_shot_detection.py), and the
    properties of their ring buffer, release rule, backward load search and
    key-frame sampling; then the code around them: the debug output, the
    pose detector that feeds them, the loop of [LiveAnalyzer.run] with the
    session state, and the height profiles and the elbow range of
    src/api/core/biomechanics.py that the loop consults.

    Conventions of the embedding.
    - Python integers are [Z]; list positions are [Z] as well and go through
      [getitem], which follows Python's subscript (negative positions count
      from the end, anything else out of range raises [IndexError]).
    - Python floats are binary64 values, [PrimFloat.float]; comparisons,
      products and the truncation [int(...)] are the IEEE ones.
    - A method that can raise returns a [result]; the object is threaded
      through explicitly as a [state] record.
    - What comes from outside the detectors is collected in the class
      [External]: the image type and the arccos-based [_calculate_angle].
    - [print] and the files written by the debugger are left out, except for
      the exception a format specification raises on [None]. *)

From Stdlib Require Import ZArith List Bool Lia Floats.
From Stdlib Require Uint63.
From stdpp Require Import base option list gmap strings.

#[local] Open Scope Z_scope.
#[local] Set Warnings "-inexact-float".

(** ** Python runtime: exceptions, lists, floats *)

Inductive exn := IndexError | TypeError | ValueError | OverflowError.

Inductive result (A : Type) :=
  | Ok (a : A)
  | Raise (e : exn).
Arguments Ok {A} a.
Arguments Raise {A} e.

#[global] Instance result_ret : MRet result := @Ok.
#[global] Instance result_bind : MBind result :=
  λ A B f m, match m with Ok a => f a | Raise e => Raise e end.

(** [len(l)] *)
Definition len {A} (l : list A) : Z := Z.of_nat (length l).

(** [l[i]] *)
Definition getitem {A} (l : list A) (i : Z) : result A :=
  let j := if i <? 0 then i + len l else i in
  if j <? 0 then Raise IndexError
  else match l !! Z.to_nat j with
       | Some x => Ok x
       | None => Raise IndexError
       end.

(** [l.pop(0)], the popped element dropped *)
Definition pop0 {A} (l : list A) : result (list A) :=
  match l with
  | [] => Raise IndexError
  | _ :: t => Ok t
  end.

(** [l[a:b]] *)
Definition slice {A} (l : list A) (a b : Z) : list A :=
  let norm i := if i <? 0 then Z.max 0 (i + len l) else Z.min i (len l) in
  take (Z.to_nat (norm b - norm a)) (drop (Z.to_nat (norm a)) l).

(** [range(a, b)] *)
Definition range (a b : Z) : list Z := seqZ a (b - a).

(** Truth value of a float: [x != 0.0] (so a NaN is true). *)
Definition truthy (x : float) : bool := negb (PrimFloat.eqb x 0).

(** Truth value of an [Optional[float]]. *)
Definition otruthy (o : option float) : bool :=
  match o with
  | Some x => truthy x
  | None => false
  end.

(** [float(z)], exact for the small integers the detectors convert. *)
Definition float_of_int (z : Z) : float :=
  if z <? 0 then PrimFloat.opp (PrimFloat.of_uint63 (Uint63.of_Z (- z)))
  else PrimFloat.of_uint63 (Uint63.of_Z z).

(** [int(x)]: truncation toward zero. *)
Definition int_of_float (x : float) : result Z :=
  match Prim2SF x with
  | S754_zero _ => Ok 0
  | S754_finite s m e =>
      let v := if 0 <=? e then Z.pos m * 2 ^ e else Z.pos m / 2 ^ (- e) in
      Ok (if s then - v else v)
  | S754_infinity _ => Raise OverflowError
  | S754_nan => Raise ValueError
  end.

(** [f"{x:.0f}"] raises on [None]; the text itself is not modelled. *)
Definition format_float (x : option float) : result unit :=
  match x with
  | Some _ => Ok tt
  | None => Raise TypeError
  end.

(** ** Pose data *)

(** A landmark: the tuple [(x, y, z)]. *)
Definition point : Type := float * float * float.

(** [p[1]] *)
Definition coord1 (p : point) : float := snd (fst p).

Class External := {
  (** a video frame, [np.ndarray]; the detectors only copy and store it *)
  Frame : Type;
  (** [_calculate_angle(p1, p2, p3)]: the angle at [p2] in degrees *)
  _calculate_angle : point → point → point → float
}.

(** The eight key-frame positions. *)
Record KeyFrames := {
  stance_idx : Z;
  load_idx : Z;
  mid1_idx : Z;
  mid2_idx : Z;
  mid3_idx : Z;
  mid4_idx : Z;
  release_idx : Z;
  followthrough_idx : Z
}.

(** The per-frame measurements both detectors take at the top of their
    per-frame method. *)
Record features := {
  feat_angle : option float;
  feat_wrist_y : option float;
  feat_above : bool;
  (** all three joints present and each visibility above 0.5 *)
  feat_stable : bool
}.

Section Shared.
Context `{External}.

(** live_analysis.py 889-910, debug_shot_detection.py 114-135, without the
    assignment to [stability_count], which [feat_stable] decides. *)
Definition extract (side : string) (landmarks : gmap string point)
    (visibility : gmap string float) : features :=
  let shoulder := landmarks !! (side +:+ "_shoulder") in
  let elbow := landmarks !! (side +:+ "_elbow") in
  let wrist := landmarks !! (side +:+ "_wrist") in
  match shoulder, elbow, wrist with
  | Some s, Some e, Some w =>
      let vis_ok :=
        forallb (λ j, PrimFloat.ltb 0.5
                        (default 0%float (visibility !! (side +:+ "_" +:+ j))))
                ["shoulder"; "elbow"; "wrist"] in
      {| feat_angle := Some (_calculate_angle s e w);
         feat_wrist_y := Some (coord1 w);
         feat_above := PrimFloat.ltb (coord1 w) (coord1 s);
         feat_stable := vis_ok |}
  | _, _, _ =>
      {| feat_angle := None; feat_wrist_y := None;
         feat_above := false; feat_stable := false |}
  end.

End Shared.

(** One pass of the body of the backward search loop:
    [if a and a < min_angle: min_angle = a; load_idx = i]. *)
Definition scan_step (acc : float * Z) (i : Z) (a : option float) : float * Z :=
  match a with
  | Some x => if truthy x && PrimFloat.ltb x (fst acc) then (x, i) else acc
  | None => acc
  end.

(** [clamp(i)] for a frame buffer of length [n]. *)
Definition clamp (n i : Z) : Z := Z.max 0 (Z.min i (n - 1)).

(** [int(shot_duration * fraction)] *)
Definition mid_offset (shot_duration : Z) (fraction : float) : result Z :=
  int_of_float (PrimFloat.mul (float_of_int shot_duration) fraction).

(** The key-frame sampler, the same text in both detectors
    (live_analysis.py 972-996, debug_shot_detection.py 216-239);
    [n] is [len(self.frames_buffer)]. *)
Definition sample (load release shot_duration n : Z) : result KeyFrames :=
  d1 ← mid_offset shot_duration 0.20;
  d2 ← mid_offset shot_duration 0.40;
  d3 ← mid_offset shot_duration 0.60;
  d4 ← mid_offset shot_duration 0.80;
  let mid1 := load + d1 in
  let mid2 := load + d2 in
  let mid3 := load + d3 in
  let mid4 := load + d4 in
  let stance := Z.max 0 (load - 5) in
  let followthrough := Z.min (release + 5) (n - 1) in
  Ok {| stance_idx := clamp n stance;
        load_idx := clamp n load;
        mid1_idx := clamp n mid1;
        mid2_idx := clamp n mid2;
        mid3_idx := clamp n mid3;
        mid4_idx := clamp n mid4;
        release_idx := clamp n release;
        followthrough_idx := clamp n followthrough |}.

(** The decrement applied to [last_shot_frame] by one eviction. *)
Definition rebase1 (last : Z) : Z := if 0 <? last then last - 1 else last.

(** ** [LiveShotDetector] (live_analysis.py 853-1075) *)

Module Live.
Section Detector.
Context `{External}.

(** [ShotEvent], without the fields the feedback client fills in later
    (they keep their defaults when the detector returns the event). *)
Record ShotEvent := {
  shot_number : Z;
  timestamp : float;
  frames : list (string * Frame);
  elbow_angle_load : float;
  elbow_angle_release : float;
  wrist_height_release : float;
  knee_bend_load : float
}.

(** The attributes [__init__] sets and the methods change. *)
Record state := {
  side : string;
  frames_buffer : list Frame;
  landmarks_buffer : list (gmap string point);
  elbow_angles : list (option float);
  wrist_heights : list (option float);
  stability_count : Z;
  last_shot_frame : Z
}.

(** The attributes that stay as [__init__] sets them. *)
Definition max_buffer : Z := 180.
Definition STABILITY_REQUIRED : Z := 8.
Definition RELEASE_ANGLE : float := 155.
Definition MIN_SHOT_FRAMES : Z := 10.
Definition COOLDOWN_FRAMES : Z := 45.

(** [__init__] *)
Definition init (shooting_side : string) : state :=
  {| side := shooting_side;
     frames_buffer := [];
     landmarks_buffer := [];
     elbow_angles := [];
     wrist_heights := [];
     stability_count := 0;
     last_shot_frame := -100 |}.

(** The [while] loop of [_trim_buffer]; it recurses on the frame buffer,
    which every pass shortens. *)
Fixpoint trim_loop (fb : list Frame) (lb : list (gmap string point))
    (ea wh : list (option float)) (last : Z) {struct fb}
  : result (list Frame * list (gmap string point)
            * list (option float) * list (option float) * Z) :=
  if max_buffer <? len fb then
    match fb with
    | [] => Raise IndexError
    | _ :: fb' =>
        lb' ← pop0 lb;
        ea' ← pop0 ea;
        wh' ← pop0 wh;
        trim_loop fb' lb' ea' wh' (rebase1 last)
    end
  else Ok (fb, lb, ea, wh, last).

(** [_trim_buffer] *)
Definition _trim_buffer (st : state) : result state :=
  '(fb, lb, ea, wh, last) ← trim_loop (frames_buffer st) (landmarks_buffer st)
                               (elbow_angles st) (wrist_heights st)
                               (last_shot_frame st);
  Ok {| side := side st;
        frames_buffer := fb;
        landmarks_buffer := lb;
        elbow_angles := ea;
        wrist_heights := wh;
        stability_count := stability_count st;
        last_shot_frame := last |}.

(** [_calculate_knee_bend] *)
Definition _calculate_knee_bend (sd : string) (landmarks : gmap string point)
  : float :=
  match landmarks !! (sd +:+ "_hip"), landmarks !! (sd +:+ "_knee"),
        landmarks !! (sd +:+ "_ankle") with
  | Some hip, Some knee, Some ankle => _calculate_angle hip knee ankle
  | _, _, _ => 0%float
  end.

(** [_calculate_wrist_height] *)
Definition _calculate_wrist_height (sd : string)
    (landmarks : gmap string point) : float :=
  match landmarks !! (sd +:+ "_wrist"), landmarks !! (sd +:+ "_hip"),
        landmarks !! (sd +:+ "_shoulder") with
  | Some wrist, Some hip, Some shoulder =>
      let body_height := PrimFloat.abs (PrimFloat.sub (coord1 shoulder) (coord1 hip)) in
      if PrimFloat.ltb body_height 0.01 then 0%float
      else PrimFloat.div (PrimFloat.sub (coord1 hip) (coord1 wrist)) body_height
  | _, _, _ => 0%float
  end.

(** The [for] loop of the backward search (lines 962-965). *)
Fixpoint search_load (angles : list (option float)) (rng : list Z)
    (acc : float * Z) : result (float * Z) :=
  match rng with
  | [] => Ok acc
  | i :: rng' =>
      a ← getitem angles i;
      search_load angles rng' (scan_step acc i a)
  end.

(** What [_create_shot_from_release] has computed by line 996. *)
Record Located := {
  loc_keys : KeyFrames;
  loc_min_angle : float;
  loc_duration : Z
}.

(** [_create_shot_from_release], lines 956-996: the backward search, the
    minimum-duration rule and the key-frame positions. [None] is the
    [return None] of line 970. *)
Definition locate (st : state) (release : Z) : result (option Located) :=
  let search_start := Z.max 0 (release - 60) in
  '(min_angle, load) ← search_load (elbow_angles st)
                          (range search_start release) (infinity, release);
  let shot_duration := release - load in
  if shot_duration <? MIN_SHOT_FRAMES then Ok None
  else
    k ← sample load release shot_duration (len (frames_buffer st));
    Ok (Some {| loc_keys := k; loc_min_angle := min_angle;
                loc_duration := shot_duration |}).

(** [_create_shot_from_release], lines 998-1032: the event built from the
    positions; [now] is the reading of [time.time()]. *)
Definition build (st : state) (loc : Located) (now : float) : result ShotEvent :=
  let k := loc_keys loc in
  f1 ← getitem (frames_buffer st) (stance_idx k);
  f2 ← getitem (frames_buffer st) (load_idx k);
  f3 ← getitem (frames_buffer st) (mid1_idx k);
  f4 ← getitem (frames_buffer st) (mid2_idx k);
  f5 ← getitem (frames_buffer st) (mid3_idx k);
  f6 ← getitem (frames_buffer st) (mid4_idx k);
  f7 ← getitem (frames_buffer st) (release_idx k);
  f8 ← getitem (frames_buffer st) (followthrough_idx k);
  release_angle ← (if release_idx k <? len (elbow_angles st)
                   then getitem (elbow_angles st) (release_idx k)
                   else Ok (Some 0%float));
  _ ← format_float (Some (loc_min_angle loc));
  _ ← format_float release_angle;
  load_landmarks ← getitem (landmarks_buffer st) (load_idx k);
  release_landmarks ← getitem (landmarks_buffer st) (release_idx k);
  let knee_bend := _calculate_knee_bend (side st) load_landmarks in
  let wrist_height := _calculate_wrist_height (side st) release_landmarks in
  Ok {| shot_number := 0;
        timestamp := now;
        frames := [("1_Stance", f1); ("2_Load", f2); ("3_Mid1", f3);
                   ("4_Mid2", f4); ("5_Mid3", f5); ("6_Mid4", f6);
                   ("7_Release", f7); ("8_FollowThrough", f8)];
        elbow_angle_load := loc_min_angle loc;
        elbow_angle_release :=
          (if otruthy release_angle then default 170%float release_angle
           else 170%float);
        wrist_height_release := wrist_height;
        knee_bend_load := knee_bend |}.

(** [_create_shot_from_release] *)
Definition _create_shot_from_release (st : state) (release : Z) (now : float)
  : result (option ShotEvent) :=
  o ← locate st release;
  match o with
  | None => Ok None
  | Some loc => ev ← build st loc now; Ok (Some ev)
  end.

(** [update], lines 893-917: the measurements are taken, the stability
    counter moves, the frame is stored and the buffers are trimmed. *)
Definition ingest (st : state) (frame : Frame) (landmarks : gmap string point)
    (f : features) : result state :=
  _trim_buffer
    {| side := side st;
       frames_buffer := frames_buffer st ++ [frame];
       landmarks_buffer :=
         landmarks_buffer st ++ [if bool_decide (size landmarks = 0%nat)
                                 then ∅ else landmarks];
       elbow_angles := elbow_angles st ++ [feat_angle f];
       wrist_heights := wrist_heights st ++ [feat_wrist_y f];
       stability_count := (if feat_stable f then stability_count st + 1 else 0);
       last_shot_frame := last_shot_frame st |}.

(** [current_idx = len(self.frames_buffer) - 1] *)
Definition current_idx (st : state) : Z := len (frames_buffer st) - 1.

(** The two early returns of lines 923-927, as the conditions under which
    the method goes on. *)
Definition stable (st : state) : bool :=
  negb (stability_count st <? STABILITY_REQUIRED).
Definition cooled (st : state) : bool :=
  negb (current_idx st - last_shot_frame st <? COOLDOWN_FRAMES).

(** The release rule of line 930. *)
Definition released (f : features) : bool :=
  otruthy (feat_angle f)
  && match feat_angle f with
     | Some a => PrimFloat.ltb RELEASE_ANGLE a
     | None => false
     end
  && feat_above f.

Definition record_shot (st : state) (idx : Z) : state :=
  {| side := side st;
     frames_buffer := frames_buffer st;
     landmarks_buffer := landmarks_buffer st;
     elbow_angles := elbow_angles st;
     wrist_heights := wrist_heights st;
     stability_count := stability_count st;
     last_shot_frame := idx |}.

(** [update] from line 912 on, with the measurements [f] of lines 889-904;
    [now] is what [time.time()] returns if the call reaches it. *)
Definition update_from (st : state) (frame : Frame)
    (landmarks : gmap string point) (f : features) (now : float)
  : result (state * option ShotEvent) :=
  st1 ← ingest st frame landmarks f;
  if negb (stable st1) then Ok (st1, None)
  else if negb (cooled st1) then Ok (st1, None)
  else if released f then
    shot ← _create_shot_from_release st1 (current_idx st1) now;
    match shot with
    | Some ev => Ok (record_shot st1 (current_idx st1), Some ev)
    | None => Ok (st1, None)
    end
  else Ok (st1, None).

(** [update] *)
Definition update (st : state) (frame : Frame) (landmarks : gmap string point)
    (visibility : gmap string float) (now : float)
  : result (state * option ShotEvent) :=
  update_from st frame landmarks (extract (side st) landmarks visibility) now.

(** One call of [update] as the main loop makes it. *)
Record input := {
  in_frame : Frame;
  in_landmarks : gmap string point;
  in_visibility : gmap string float;
  in_now : float
}.

Definition step (st : state) (i : input) : result (state * option ShotEvent) :=
  update st (in_frame i) (in_landmarks i) (in_visibility i) (in_now i).

(** The detector fed a sequence of frames; the outcome of every call is kept,
    so position [n] of the list belongs to frame [n] of the stream. *)
Fixpoint run (st : state) (inputs : list input)
  : result (state * list (option ShotEvent)) :=
  match inputs with
  | [] => Ok (st, [])
  | i :: rest =>
      '(st1, ev) ← step st i;
      '(st2, evs) ← run st1 rest;
      Ok (st2, ev :: evs)
  end.

End Detector.
End Live.

(** ** [ShotDetectionDebugger] (debug_shot_detection.py 70-419) *)

Module Debug.
Section Detector.
Context `{External}.

(** [FrameMetrics] *)
Record FrameMetrics := {
  frame_num : Z;
  timestamp_ms : float;
  elbow_angle : option float;
  wrist_height : option float;
  wrist_above_shoulder : bool;
  shoulder_y : option float;
  elbow_y : option float;
  wrist_y : option float
}.

(** [DetectedShot]; the eight positions are the fields of [keys]. *)
Record DetectedShot := {
  shot_num : Z;
  frame_start : Z;
  frame_end : Z;
  keys : KeyFrames;
  load_angle : float;
  release_angle : float;
  frame_metrics : list FrameMetrics
}.

Record state := {
  side : string;
  frames_buffer : list Frame;
  metrics_buffer : list FrameMetrics;
  stability_count : Z;
  last_shot_frame : Z;
  shots : list DetectedShot;
  shot_count : Z
}.

Definition max_buffer : Z := 200.
Definition STABILITY_REQUIRED : Z := 8.
Definition RELEASE_ANGLE : float := 155.
Definition MIN_SHOT_FRAMES : Z := 10.
Definition COOLDOWN_FRAMES : Z := 45.

(** [__init__] (the output directory belongs to the file output) *)
Definition init (shooting_side : string) : state :=
  {| side := shooting_side;
     frames_buffer := [];
     metrics_buffer := [];
     stability_count := 0;
     last_shot_frame := -100;
     shots := [];
     shot_count := 0 |}.

(** The [while] loop of [_trim_buffer]. *)
Fixpoint trim_loop (fb : list Frame) (mb : list FrameMetrics) (last : Z)
    {struct fb} : result (list Frame * list FrameMetrics * Z) :=
  if max_buffer <? len fb then
    match fb with
    | [] => Raise IndexError
    | _ :: fb' =>
        mb' ← pop0 mb;
        trim_loop fb' mb' (rebase1 last)
    end
  else Ok (fb, mb, last).

(** [_trim_buffer] *)
Definition _trim_buffer (st : state) : result state :=
  '(fb, mb, last) ← trim_loop (frames_buffer st) (metrics_buffer st)
                       (last_shot_frame st);
  Ok {| side := side st;
        frames_buffer := fb;
        metrics_buffer := mb;
        stability_count := stability_count st;
        last_shot_frame := last;
        shots := shots st;
        shot_count := shot_count st |}.

(** The [for] loop of the backward search (lines 200-205). *)
Fixpoint search_load (metrics : list FrameMetrics) (rng : list Z)
    (acc : float * Z) : result (float * Z) :=
  match rng with
  | [] => Ok acc
  | i :: rng' =>
      if i <? len metrics then
        m ← getitem metrics i;
        search_load metrics rng' (scan_step acc i (elbow_angle m))
      else search_load metrics rng' acc
  end.

Definition set_shot_count (st : state) (c : Z) : state :=
  {| side := side st;
     frames_buffer := frames_buffer st;
     metrics_buffer := metrics_buffer st;
     stability_count := stability_count st;
     last_shot_frame := last_shot_frame st;
     shots := shots st;
     shot_count := c |}.

Definition append_shot (st : state) (shot : DetectedShot) : state :=
  {| side := side st;
     frames_buffer := frames_buffer st;
     metrics_buffer := metrics_buffer st;
     stability_count := stability_count st;
     last_shot_frame := last_shot_frame st;
     shots := shots st ++ [shot];
     shot_count := shot_count st |}.

(** [_create_shot]; the files [_save_shot_debug] writes are not modelled. *)
Definition _create_shot (st : state) (release : Z) (release_angle : float)
  : result (state * option DetectedShot) :=
  let st := set_shot_count st (shot_count st + 1) in
  let search_start := Z.max 0 (release - 60) in
  '(min_angle, load) ← search_load (metrics_buffer st)
                          (range search_start release) (infinity, release);
  let shot_duration := release - load in
  if shot_duration <? MIN_SHOT_FRAMES then
    Ok (set_shot_count st (shot_count st - 1), None)
  else
    _ ← format_float (Some min_angle);
    k ← sample load release shot_duration (len (frames_buffer st));
    let window_start := Z.max 0 (stance_idx k - 10) in
    let window_end := Z.min (len (metrics_buffer st)) (followthrough_idx k + 10) in
    let shot_metrics := slice (metrics_buffer st) window_start window_end in
    let shot := {| shot_num := shot_count st;
                   frame_start := window_start;
                   frame_end := window_end;
                   keys := k;
                   load_angle := min_angle;
                   release_angle := release_angle;
                   frame_metrics := shot_metrics |} in
    Ok (append_shot st shot, Some shot).

(** The record [process_frame] builds at lines 138-147. *)
Definition metrics_of (sd : string) (landmarks : gmap string point)
    (f : features) (frame_num : Z) (timestamp_ms : float) : FrameMetrics :=
  {| frame_num := frame_num;
     timestamp_ms := timestamp_ms;
     elbow_angle := feat_angle f;
     wrist_height := feat_wrist_y f;
     wrist_above_shoulder := feat_above f;
     shoulder_y := coord1 <$> landmarks !! (sd +:+ "_shoulder");
     elbow_y := coord1 <$> landmarks !! (sd +:+ "_elbow");
     wrist_y := coord1 <$> landmarks !! (sd +:+ "_wrist") |}.

(** [process_frame], lines 118-152. *)
Definition ingest (st : state) (frame : Frame) (landmarks : gmap string point)
    (f : features) (frame_num : Z) (timestamp_ms : float) : result state :=
  _trim_buffer
    {| side := side st;
       frames_buffer := frames_buffer st ++ [frame];
       metrics_buffer :=
         metrics_buffer st
           ++ [metrics_of (side st) landmarks f frame_num timestamp_ms];
       stability_count := (if feat_stable f then stability_count st + 1 else 0);
       last_shot_frame := last_shot_frame st;
       shots := shots st;
       shot_count := shot_count st |}.

Definition current_idx (st : state) : Z := len (frames_buffer st) - 1.

Definition stable (st : state) : bool :=
  negb (stability_count st <? STABILITY_REQUIRED).
Definition cooled (st : state) : bool :=
  negb (current_idx st - last_shot_frame st <? COOLDOWN_FRAMES).

(** The release rule of line 165. *)
Definition released (f : features) : bool :=
  otruthy (feat_angle f)
  && match feat_angle f with
     | Some a => PrimFloat.ltb RELEASE_ANGLE a
     | None => false
     end
  && feat_above f.

Definition record_shot (st : state) (idx : Z) : state :=
  {| side := side st;
     frames_buffer := frames_buffer st;
     metrics_buffer := metrics_buffer st;
     stability_count := stability_count st;
     last_shot_frame := idx;
     shots := shots st;
     shot_count := shot_count st |}.

(** [process_frame] from line 137 on, with the measurements [f] of lines
    114-129. *)
Definition process_from (st : state) (frame : Frame)
    (landmarks : gmap string point) (f : features)
    (frame_num : Z) (timestamp_ms : float)
  : result (state * option DetectedShot) :=
  st1 ← ingest st frame landmarks f frame_num timestamp_ms;
  if negb (stable st1) then Ok (st1, None)
  else if negb (cooled st1) then Ok (st1, None)
  else if released f then
    _ ← format_float (feat_angle f);
    '(st2, shot) ← _create_shot st1 (current_idx st1)
                     (default 0%float (feat_angle f));
    match shot with
    | Some s => Ok (record_shot st2 (current_idx st1), Some s)
    | None => Ok (st2, None)
    end
  else Ok (st1, None).

(** [process_frame] *)
Definition process_frame (st : state) (frame : Frame)
    (landmarks : gmap string point) (visibility : gmap string float)
    (frame_num : Z) (timestamp_ms : float)
  : result (state * option DetectedShot) :=
  process_from st frame landmarks (extract (side st) landmarks visibility)
    frame_num timestamp_ms.

Record input := {
  in_frame : Frame;
  in_landmarks : gmap string point;
  in_visibility : gmap string float;
  in_frame_num : Z;
  in_timestamp_ms : float
}.

Definition step (st : state) (i : input)
  : result (state * option DetectedShot) :=
  process_frame st (in_frame i) (in_landmarks i) (in_visibility i)
    (in_frame_num i) (in_timestamp_ms i).

Fixpoint run (st : state) (inputs : list input)
  : result (state * list (option DetectedShot)) :=
  match inputs with
  | [] => Ok (st, [])
  | i :: rest =>
      '(st1, ev) ← step st i;
      '(st2, evs) ← run st1 rest;
      Ok (st2, ev :: evs)
  end.

End Detector.
End Debug.

(** * Vocabulary of the statements *)

(** The stored angle at position [i] of the angle history, [None] when the
    position is outside of it or the frame had no angle. *)
Definition angle_at (angles : list (option float)) (i : Z) : option float :=
  if i <? 0 then None else mjoin (angles !! Z.to_nat i).

(** [x] compares below [+inf]: it is neither a NaN nor [+inf]. *)
Definition below_inf (x : float) : bool := PrimFloat.ltb x infinity.

(** The angles the backward search can select: present, not [0.0] (the
    truth test of line 963 fails on it) and below [+inf] (the first
    comparison is against [float('inf')]). *)
Definition usable (o : option float) : bool :=
  match o with
  | Some x => truthy x && below_inf x
  | None => false
  end.

(** The backward search as a fold over the positions of the window. *)
Definition scan (angles : list (option float)) (rng : list Z)
    (acc : float * Z) : float * Z :=
  foldl (λ acc i, scan_step acc i (angle_at angles i)) acc rng.

(** [k] evictions applied to [last_shot_frame]. *)
Definition rebase (k : nat) (last : Z) : Z := Nat.iter k rebase1 last.

(** The positions the sampler computes, as the integer formulas of the
    specification: [floor(fraction * D)] for the four mid points. *)
Definition sampled (load release n : Z) : KeyFrames :=
  let d := release - load in
  {| stance_idx := Z.max 0 (load - 5);
     load_idx := load;
     mid1_idx := load + 20 * d / 100;
     mid2_idx := load + 40 * d / 100;
     mid3_idx := load + 60 * d / 100;
     mid4_idx := load + 80 * d / 100;
     release_idx := release;
     followthrough_idx := Z.min (release + 5) (n - 1) |}.

(** The chain of the eight positions inside a buffer of length [n]. *)
Definition chain (k : KeyFrames) (n : Z) : Prop :=
  0 ≤ stance_idx k ∧ stance_idx k ≤ load_idx k ∧ load_idx k ≤ mid1_idx k
  ∧ mid1_idx k ≤ mid2_idx k ∧ mid2_idx k ≤ mid3_idx k
  ∧ mid3_idx k ≤ mid4_idx k ∧ mid4_idx k ≤ release_idx k
  ∧ release_idx k ≤ followthrough_idx k ∧ followthrough_idx k ≤ n - 1.

(** No position of [lo ≤ i < hi] holds an angle the search can select. *)
Definition none_usable (angles : list (option float)) (lo hi : Z) : Prop :=
  ∀ i, lo ≤ i < hi → usable (angle_at angles i) = false.

(** Position [load] holds [m], the least usable angle of the positions
    [lo ≤ i < hi], and every usable angle stored before it is larger. *)
Definition earliest_min (angles : list (option float)) (lo hi load : Z)
    (m : float) : Prop :=
  lo ≤ load < hi ∧ angle_at angles load = Some m ∧ usable (Some m) = true
  ∧ ∀ i y, lo ≤ i < hi → angle_at angles i = Some y → usable (Some y) = true →
      PrimFloat.leb m y = true ∧ (i < load → PrimFloat.ltb m y = true).

(** An angle as the pose pipeline stores it. [_calculate_angle] is the
    arccos, in degrees, of a cosine whose denominator carries [+ 1e-6]: on
    the normalized landmarks of the pose detector the cosine stays below 1,
    so a measured angle is above 0 and at most 180, and is neither [0.0],
    a NaN nor an infinity. *)
Definition in_degrees (a : float) : bool :=
  PrimFloat.ltb 0 a && PrimFloat.leb a 180.

(** Every angle stored at the positions [lo ≤ i < hi] is such an angle. *)
Definition window_in_degrees (angles : list (option float)) (lo hi : Z) : Prop :=
  ∀ i a, lo ≤ i < hi → angle_at angles i = Some a → in_degrees a = true.

(** No position of [lo ≤ i < hi] holds a defined angle. *)
Definition none_defined (angles : list (option float)) (lo hi : Z) : Prop :=
  ∀ i, lo ≤ i < hi → angle_at angles i = None.

(** Position [load] holds [m], the least defined angle of the positions
    [lo ≤ i < hi], and every defined angle stored before it is larger. *)
Definition earliest_least_defined (angles : list (option float))
    (lo hi load : Z) (m : float) : Prop :=
  lo ≤ load < hi ∧ angle_at angles load = Some m
  ∧ ∀ i y, lo ≤ i < hi → angle_at angles i = Some y →
      PrimFloat.leb m y = true ∧ (i < load → PrimFloat.ltb m y = true).

(** Every stored angle of a history is an angle in degrees. *)
Definition history_in_degrees (angles : list (option float)) : bool :=
  forallb (λ o, match o with Some a => in_degrees a | None => true end) angles.

Section StateVocabulary.
Context `{External}.

(** The parallel buffers of the live detector have one length. *)
Definition live_wf (st : Live.state) : Prop :=
  length (Live.landmarks_buffer st) = length (Live.frames_buffer st)
  ∧ length (Live.elbow_angles st) = length (Live.frames_buffer st)
  ∧ length (Live.wrist_heights st) = length (Live.frames_buffer st).

(** The two buffers of the debugger have one length. *)
Definition debug_wf (st : Debug.state) : Prop :=
  length (Debug.metrics_buffer st) = length (Debug.frames_buffer st).

(** The angle history the debugger searches. *)
Definition debug_angles (st : Debug.state) : list (option float) :=
  Debug.elbow_angle <$> Debug.metrics_buffer st.

End StateVocabulary.

(** The stream position of the last call that returned an event, when the
    calls whose outcomes are [evs] started at position [n] and the last
    event before them was at [a]. *)
Fixpoint last_accepted_from {A} (n : Z) (evs : list (option A)) (a : option Z)
  : option Z :=
  match evs with
  | [] => a
  | e :: rest =>
      last_accepted_from (n + 1) rest
        (match e with Some _ => Some n | None => a end)
  end.

(** The stream position of the last accepted event of a run. *)
Definition last_accepted {A} (evs : list (option A)) : option Z :=
  last_accepted_from 0 evs None.

(** What the stored index is after [n] frames of the stream, the last
    accepted event at stream position [a], in a buffer that keeps [kept]
    frames: the position re-based by the [n - kept] evictions, not below
    zero; the initial [-100] while nothing was accepted. *)
Definition rebased_index (n kept : Z) (a : option Z) (last : Z) : Prop :=
  match a with
  | Some a => 0 ≤ a < n ∧ last = Z.max 0 (a - (n - kept))
  | None => last = -100
  end.

Section RunVocabulary.
Context `{External}.

(** The live detector after [n] frames of the stream. *)
Definition live_inv (n : Z) (a : option Z) (st : Live.state) : Prop :=
  live_wf st ∧ 0 ≤ n
  ∧ len (Live.frames_buffer st) = Z.min n Live.max_buffer
  ∧ rebased_index n (len (Live.frames_buffer st)) a (Live.last_shot_frame st).

(** The debugger after [n] frames of the stream. *)
Definition debug_inv (n : Z) (a : option Z) (st : Debug.state) : Prop :=
  debug_wf st ∧ 0 ≤ n
  ∧ len (Debug.frames_buffer st) = Z.min n Debug.max_buffer
  ∧ rebased_index n (len (Debug.frames_buffer st)) a (Debug.last_shot_frame st).

End RunVocabulary.

(** The entries of [l] at the positions [a], ..., [b]. *)
Definition span {A} (l : list A) (a b : Z) : list A :=
  take (Z.to_nat (b - a + 1)) (drop (Z.to_nat a) l).

(** The stream positions of the calls that returned an event, the first
    call at position [n]. *)
Fixpoint emitted_from {A} (n : Z) (evs : list (option A)) : list Z :=
  match evs with
  | [] => []
  | Some _ :: rest => n :: emitted_from (n + 1) rest
  | None :: rest => emitted_from (n + 1) rest
  end.

Definition emitted_at {A} (evs : list (option A)) : list Z := emitted_from 0 evs.

(** ** What a run detects *)

(** One emitted event as a downstream reader sees it: the stream position of
    the call, the eight buffer positions, and the two angles. *)
Record detection := {
  det_frame : Z;
  det_keys : KeyFrames;
  det_load_angle : float;
  det_release_angle : float
}.

Section Detections.
Context `{External}.

(** The detection of a live call that returned [ev] and left [st']: the
    positions are the ones [locate] finds in the buffers the call left. *)
Definition live_detection (n : Z) (st' : Live.state) (ev : Live.ShotEvent)
  : list detection :=
  match Live.locate st' (Live.current_idx st') with
  | Ok (Some loc) =>
      [{| det_frame := n;
          det_keys := Live.loc_keys loc;
          det_load_angle := Live.elbow_angle_load ev;
          det_release_angle := Live.elbow_angle_release ev |}]
  | _ => []
  end.

(** The detections of the live detector over a stream that starts at
    position [n], each call given its measurements. *)
Fixpoint live_detections_from (n : Z) (st : Live.state)
    (inputs : list (Live.input * features)) : list detection :=
  match inputs with
  | [] => []
  | (i, f) :: rest =>
      match Live.update_from st (Live.in_frame i) (Live.in_landmarks i) f
              (Live.in_now i) with
      | Ok (st', Some ev) =>
          live_detection n st' ev ++ live_detections_from (n + 1) st' rest
      | Ok (st', None) => live_detections_from (n + 1) st' rest
      | Raise _ => []
      end
  end.

(** [Live.run] with the measurements of every call given. *)
Fixpoint live_run_from (st : Live.state) (inputs : list (Live.input * features))
  : result (Live.state * list (option Live.ShotEvent)) :=
  match inputs with
  | [] => Ok (st, [])
  | (i, f) :: rest =>
      '(st1, ev) ← Live.update_from st (Live.in_frame i) (Live.in_landmarks i) f
                     (Live.in_now i);
      '(st2, evs) ← live_run_from st1 rest;
      Ok (st2, ev :: evs)
  end.


(** The measurements [update] takes from an input. *)
Definition live_measure (sd : string) (i : Live.input) : features :=
  extract sd (Live.in_landmarks i) (Live.in_visibility i).

(** The detections of the live detector on the shooting side [sd]. *)
Definition live_detections (sd : string) (inputs : list Live.input)
  : list detection :=
  live_detections_from 0 (Live.init sd)
    (zip inputs (live_measure sd <$> inputs)).

(** The event without the clock reading. *)
Definition untimed (ev : Live.ShotEvent) : Live.ShotEvent :=
  {| Live.shot_number := Live.shot_number ev;
     Live.timestamp := 0%float;
     Live.frames := Live.frames ev;
     Live.elbow_angle_load := Live.elbow_angle_load ev;
     Live.elbow_angle_release := Live.elbow_angle_release ev;
     Live.wrist_height_release := Live.wrist_height_release ev;
     Live.knee_bend_load := Live.knee_bend_load ev |}.

(** The outcomes of a run without the clock readings. *)
Definition untimed_events (evs : list (option Live.ShotEvent))
  : list (option Live.ShotEvent) :=
  (λ o : option Live.ShotEvent, untimed <$> o) <$> evs.

(** The same frames with other clock readings: call [n] reads [clock n]. *)
Definition retimed (clock : nat → float) (inputs : list Live.input)
  : list Live.input :=
  imap (λ n i, {| Live.in_frame := Live.in_frame i;
                  Live.in_landmarks := Live.in_landmarks i;
                  Live.in_visibility := Live.in_visibility i;
                  Live.in_now := clock n |}) inputs.

End Detections.

(** ** The steps of a call *)

(** [int(d * fraction)] against [floor(percent * d / 100)]. *)
Definition mid_agrees (d : Z) : bool :=
  let agrees (fraction : float) (percent : Z) :=
    match mid_offset d fraction with
    | Ok v => v =? percent * d / 100
    | Raise _ => false
    end in
  agrees 0.20%float 20 && agrees 0.40%float 40
  && agrees 0.60%float 60 && agrees 0.80%float 80.

Section CallVocabulary.
Context `{External}.

(** The state [_trim_buffer] leaves after [k] evictions. *)
Definition live_trimmed (st : Live.state) (k : nat) : Live.state :=
  {| Live.side := Live.side st;
     Live.frames_buffer := drop k (Live.frames_buffer st);
     Live.landmarks_buffer := drop k (Live.landmarks_buffer st);
     Live.elbow_angles := drop k (Live.elbow_angles st);
     Live.wrist_heights := drop k (Live.wrist_heights st);
     Live.stability_count := Live.stability_count st;
     Live.last_shot_frame := rebase k (Live.last_shot_frame st) |}.

(** The state of line 916, before the trim. *)
Definition live_appended (st : Live.state) (frame : Frame)
    (landmarks : gmap string point) (f : features) : Live.state :=
  {| Live.side := Live.side st;
     Live.frames_buffer := Live.frames_buffer st ++ [frame];
     Live.landmarks_buffer :=
       Live.landmarks_buffer st ++ [if bool_decide (size landmarks = 0%nat)
                                    then ∅ else landmarks];
     Live.elbow_angles := Live.elbow_angles st ++ [feat_angle f];
     Live.wrist_heights := Live.wrist_heights st ++ [feat_wrist_y f];
     Live.stability_count :=
       (if feat_stable f then Live.stability_count st + 1 else 0);
     Live.last_shot_frame := Live.last_shot_frame st |}.

(** The number of frames the trim of one call evicts. *)
Definition live_evicted (st : Live.state) : nat :=
  Z.to_nat (len (Live.frames_buffer st) + 1 - Live.max_buffer).

(** The state [_trim_buffer] leaves after [k] evictions. *)
Definition debug_trimmed (st : Debug.state) (k : nat) : Debug.state :=
  {| Debug.side := Debug.side st;
     Debug.frames_buffer := drop k (Debug.frames_buffer st);
     Debug.metrics_buffer := drop k (Debug.metrics_buffer st);
     Debug.stability_count := Debug.stability_count st;
     Debug.last_shot_frame := rebase k (Debug.last_shot_frame st);
     Debug.shots := Debug.shots st;
     Debug.shot_count := Debug.shot_count st |}.

(** The state of line 151, before the trim. *)
Definition debug_appended (st : Debug.state) (frame : Frame)
    (landmarks : gmap string point) (f : features) (frame_num : Z)
    (timestamp_ms : float) : Debug.state :=
  {| Debug.side := Debug.side st;
     Debug.frames_buffer := Debug.frames_buffer st ++ [frame];
     Debug.metrics_buffer :=
       Debug.metrics_buffer st
         ++ [Debug.metrics_of (Debug.side st) landmarks f frame_num timestamp_ms];
     Debug.stability_count :=
       (if feat_stable f then Debug.stability_count st + 1 else 0);
     Debug.last_shot_frame := Debug.last_shot_frame st;
     Debug.shots := Debug.shots st;
     Debug.shot_count := Debug.shot_count st |}.

(** The number of frames the trim of one call evicts. *)
Definition debug_evicted (st : Debug.state) : nat :=
  Z.to_nat (len (Debug.frames_buffer st) + 1 - Debug.max_buffer).

(** The shot [_create_shot] builds for the load position [L]. *)
Definition debug_shot (st : Debug.state) (L R : Z) (min_angle release_angle : float)
  : Debug.DetectedShot :=
  let k := sampled L R (len (Debug.frames_buffer st)) in
  let window_start := Z.max 0 (stance_idx k - 10) in
  let window_end := Z.min (len (Debug.metrics_buffer st)) (followthrough_idx k + 10) in
  {| Debug.shot_num := Debug.shot_count st + 1;
     Debug.frame_start := window_start;
     Debug.frame_end := window_end;
     Debug.keys := k;
     Debug.load_angle := min_angle;
     Debug.release_angle := release_angle;
     Debug.frame_metrics := slice (Debug.metrics_buffer st) window_start window_end |}.

Definition set_timestamp (ev : Live.ShotEvent) (now : float) : Live.ShotEvent :=
  {| Live.shot_number := Live.shot_number ev;
     Live.timestamp := now;
     Live.frames := Live.frames ev;
     Live.elbow_angle_load := Live.elbow_angle_load ev;
     Live.elbow_angle_release := Live.elbow_angle_release ev;
     Live.wrist_height_release := Live.wrist_height_release ev;
     Live.knee_bend_load := Live.knee_bend_load ev |}.

(** Two results that differ in time stamps only. *)
Definition same_untimed (r1 r2 : result (Live.state * option Live.ShotEvent))
  : Prop :=
  match r1, r2 with
  | Ok (s1, o1), Ok (s2, o2) => s1 = s2 ∧ untimed <$> o1 = untimed <$> o2
  | Raise e1, Raise e2 => e1 = e2
  | _, _ => False
  end.

(** Two calls with their measurements that differ in the clock reading (and
    in the visibility map, which [update_from] does not read) at most. *)
Definition same_frames (a b : Live.input * features) : Prop :=
  Live.in_frame (fst a) = Live.in_frame (fst b)
  ∧ Live.in_landmarks (fst a) = Live.in_landmarks (fst b)
  ∧ snd a = snd b.

Definition same_untimed_run
    (r1 r2 : result (Live.state * list (option Live.ShotEvent))) : Prop :=
  match r1, r2 with
  | Ok (s1, e1), Ok (s2, e2) => s1 = s2 ∧ untimed_events e1 = untimed_events e2
  | Raise e1, Raise e2 => e1 = e2
  | _, _ => False
  end.

End CallVocabulary.

(** ** The scenario of the specification *)

(** Frame [n] of the scenario: 60 frames at 170 degrees, 20 frames down to
    80 degrees, 15 frames back up to 170 degrees. *)
Definition scenario_angle (n : nat) : float :=
  if (n <? 60)%nat then 170%float
  else if (n <? 80)%nat
       then PrimFloat.sub 170 (PrimFloat.mul 4.5 (float_of_int (Z.of_nat n - 59)))
       else PrimFloat.add 80 (PrimFloat.mul 6 (float_of_int (Z.of_nat n - 79))).

(** The measurements of frame [n]: tracked at full confidence throughout.
    With [as_stated] the wrist is above the shoulder in the first 60 frames
    and at the last frame (frame 95, position 94), and the scenario leaves
    the flag of the frames in between open; without it the wrist is above
    the shoulder at the last frame only. [free] holds what the scenario
    leaves open at frame [n]: the height of the wrist and that flag. *)
Definition scenario_features (as_stated : bool) (n : nat)
    (free : option float * bool) : features :=
  {| feat_angle := Some (scenario_angle n);
     feat_wrist_y := fst free;
     feat_above := (if (n <? 60)%nat then as_stated
                    else if (n =? 94)%nat then true
                    else as_stated && snd free);
     feat_stable := true |}.

(** What the scenario yields when the wrist is above the shoulder during
    the first 60 frames: a detection at frame 10 and one at frame 55. *)
Definition scenario_det_10 : detection :=
  {| det_frame := 10;
     det_keys := {| stance_idx := 0; load_idx := 0; mid1_idx := 2; mid2_idx := 4;
                    mid3_idx := 6; mid4_idx := 8; release_idx := 10;
                    followthrough_idx := 10 |};
     det_load_angle := 170;
     det_release_angle := 170 |}.



(** ** A concrete outside world for the examples *)

(** Frames are numbered, and the angle is carried by the first coordinate of
    the middle point. *)
Definition bench : External :=
  {| Frame := nat; _calculate_angle := λ _ p2 _, fst (fst p2) |}.

(** The pose whose measurements on the right arm are [angle] and [above]. *)
Definition bench_pose (angle : float) (above : bool) : gmap string point :=
  <["right_shoulder" := (0.5, 0.5, 0)%float]>
    (<["right_elbow" := (angle, 0.5, 0)%float]>
       (<["right_wrist" := (0.5, if above then 0.25 else 0.75, 0)%float]> ∅)).

Definition bench_visibility : gmap string float :=
  <["right_shoulder" := 1%float]>
    (<["right_elbow" := 1%float]> (<["right_wrist" := 1%float]> ∅)).

Definition bench_input (n : nat) (angle : float) (above : bool)
  : @Live.input bench :=
  {| Live.in_frame := (n : @Frame bench);
     Live.in_landmarks := bench_pose angle above;
     Live.in_visibility := bench_visibility;
     Live.in_now := float_of_int (Z.of_nat n) |}.



(** The state of the live detector of [bench] after [inputs]. *)
Definition bench_state (inputs : list (@Live.input bench)) : @Live.state bench :=
  match Live.run (Live.init "right") inputs with
  | Ok (st, _) => st
  | Raise _ => Live.init "right"
  end.

(** The outcomes of the live detector of [bench] over [inputs]. *)
Definition bench_events (inputs : list (@Live.input bench))
  : list (option (@Live.ShotEvent bench)) :=
  match Live.run (Live.init "right") inputs with
  | Ok (_, evs) => evs
  | Raise _ => []
  end.

(** Frame [n] of an arm held at 170 degrees with the wrist above the
    shoulder, frame 5 at [a] degrees. *)
Definition bench_hold_input (a : float) (n : nat) : @Live.input bench :=
  bench_input n (if (n =? 5)%nat then a else 170%float) true.

(** The first [len] frames of that stream. *)
Definition bench_hold (a : float) (len : nat) : list (@Live.input bench) :=
  bench_hold_input a <$> seq 0 len.

(** A live state holding three frames more than the capacity, its stored
    index at 2. *)
Definition bench_overfull : @Live.state bench :=
  {| Live.side := "right";
     Live.frames_buffer := (seq 0 183 : list (@Frame bench));
     Live.landmarks_buffer := replicate 183 ∅;
     Live.elbow_angles := replicate 183 (Some 170%float);
     Live.wrist_heights := replicate 183 (Some 0.25%float);
     Live.stability_count := 183;
     Live.last_shot_frame := 2 |}.

(** The same arm for the debugger. *)
Definition bench_debug_input (n : nat) : @Debug.input bench :=
  {| Debug.in_frame := (n : @Frame bench);
     Debug.in_landmarks := bench_pose 170 true;
     Debug.in_visibility := bench_visibility;
     Debug.in_frame_num := Z.of_nat n + 1;
     Debug.in_timestamp_ms := float_of_int (Z.of_nat n) |}.

Definition bench_debug_hold (len : nat) : list (@Debug.input bench) :=
  bench_debug_input <$> seq 0 len.

Definition bench_debug_state (inputs : list (@Debug.input bench))
  : @Debug.state bench :=
  match Debug.run (Debug.init "right") inputs with
  | Ok (st, _) => st
  | Raise _ => Debug.init "right"
  end.

Definition bench_debug_events (inputs : list (@Debug.input bench))
  : list (option Debug.DetectedShot) :=
  match Debug.run (Debug.init "right") inputs with
  | Ok (_, evs) => evs
  | Raise _ => []
  end.

(** A debugger state holding three frames more than the capacity. *)
Definition bench_debug_overfull : @Debug.state bench :=
  {| Debug.side := "right";
     Debug.frames_buffer := (seq 0 203 : list (@Frame bench));
     Debug.metrics_buffer :=
       replicate 203 (Debug.metrics_of "right" ∅
                        (scenario_features true 0 (None, true)) 0 0%float);
     Debug.stability_count := 203;
     Debug.last_shot_frame := 2;
     Debug.shots := [];
     Debug.shot_count := 0 |}.


(** The event of the last call of a run of [bench], a blank one when the
    call returned none. *)
Definition bench_shot (inputs : list (@Live.input bench)) : @Live.ShotEvent bench :=
  match last (bench_events inputs) with
  | Some (Some ev) => ev
  | _ => {| Live.shot_number := 0; Live.timestamp := 0; Live.frames := [];
            Live.elbow_angle_load := 0; Live.elbow_angle_release := 0;
            Live.wrist_height_release := 0; Live.knee_bend_load := 0 |}
  end.

(** The shot of the last call of a run of the debugger of [bench]. *)
Definition bench_debug_shot (inputs : list (@Debug.input bench))
  : Debug.DetectedShot :=
  match last (bench_debug_events inputs) with
  | Some (Some shot) => shot
  | _ => {| Debug.shot_num := 0; Debug.frame_start := 0; Debug.frame_end := 0;
            Debug.keys := sampled 0 0 0; Debug.load_angle := 0;
            Debug.release_angle := 0; Debug.frame_metrics := [] |}
  end.

(** The angle history of the scenario. *)
Definition scenario_history : list (option float) :=
  (λ n, Some (scenario_angle n)) <$> seq 0 95.

(** * The rest of the detectors and their callers *)

(** ** [LiveShotDetector.get_current_angle] (live_analysis.py 1071-1075) *)

Section CurrentAngle.
Context `{External}.

(** [if self.elbow_angles and self.elbow_angles[-1]: return
    self.elbow_angles[-1]], else [None]. *)
Definition get_current_angle (st : Live.state) : result (option float) :=
  match Live.elbow_angles st with
  | [] => Ok None
  | _ :: _ =>
      a ← getitem (Live.elbow_angles st) (-1);
      if otruthy a then getitem (Live.elbow_angles st) (-1) else Ok None
  end.

End CurrentAngle.

(** ** What the debugger writes for a shot
    (debug_shot_detection.py 269-411) *)

(** A loop whose passes each add some entries to a list, or raise. *)
Fixpoint collect {A B} (f : A → result (list B)) (l : list A) : result (list B) :=
  match l with
  | [] => Ok []
  | x :: rest =>
      out ← f x;
      more ← collect f rest;
      Ok (out ++ more)
  end.

(** [key_frames] of [_save_shot_debug], lines 274-283. *)
Definition saved_key_frames (k : KeyFrames) : list (string * Z) :=
  [("1_Stance", stance_idx k); ("2_Load", load_idx k); ("3_Mid1", mid1_idx k);
   ("4_Mid2", mid2_idx k); ("5_Mid3", mid3_idx k); ("6_Mid4", mid4_idx k);
   ("7_Release", release_idx k); ("8_FollowThrough", followthrough_idx k)].

(** [key_frames] of [_create_angle_plot], lines 370-379, without the colours
    and marker shapes. *)
Definition plotted_key_frames (k : KeyFrames) : list (string * Z) :=
  [("Stance", stance_idx k); ("Load", load_idx k); ("Mid1 (20%)", mid1_idx k);
   ("Mid2 (40%)", mid2_idx k); ("Mid3 (60%)", mid3_idx k);
   ("Mid4 (80%)", mid4_idx k); ("Release", release_idx k);
   ("Follow", followthrough_idx k)].

(** One pass of the loop of lines 381-390: the marker drawn for a key frame,
    as its name, the frame number on the x axis and the angle on the y
    axis. *)
Definition plot_marker (shot : Debug.DetectedShot) (entry : string * Z)
  : result (list (string * Z * float)) :=
  let '(name, buf_idx) := entry in
  let relative_idx := buf_idx - Debug.frame_start shot + 10 in
  if (0 <=? relative_idx) && (relative_idx <? len (Debug.frame_metrics shot)) then
    m ← getitem (Debug.frame_metrics shot) relative_idx;
    match Debug.elbow_angle m with
    | Some a => if truthy a then Ok [(name, Debug.frame_num m, a)] else Ok []
    | None => Ok []
    end
  else Ok [].

(** [_create_angle_plot]: the markers of the key frames on the angle curve
    (the curves themselves are the whole of [frame_metrics]). *)
Definition _create_angle_plot (shot : Debug.DetectedShot)
  : result (list (string * Z * float)) :=
  collect (plot_marker shot) (plotted_key_frames (Debug.keys shot)).

Section DebugOutput.
Context `{External}.

(** One pass of the loop of lines 291-315: the image written for a key
    frame, as its name, the frame and the metrics record the annotation
    reads. *)
Definition save_key_frame (st : Debug.state) (entry : string * Z)
  : result (list (string * Frame * option Debug.FrameMetrics)) :=
  let '(name, idx) := entry in
  if (0 <=? idx) && (idx <? len (Debug.frames_buffer st)) then
    frame ← getitem (Debug.frames_buffer st) idx;
    metrics ← (if idx <? len (Debug.metrics_buffer st)
               then m ← getitem (Debug.metrics_buffer st) idx; Ok (Some m)
               else Ok None);
    Ok [(name, frame, metrics)]
  else Ok [].

(** [_save_shot_debug], lines 274-315: the images of the key frames; [st]
    is the debugger at the call, inside [_create_shot]. *)
Definition _save_shot_debug (st : Debug.state) (shot : Debug.DetectedShot)
  : result (list (string * Frame * option Debug.FrameMetrics)) :=
  collect (save_key_frame st) (saved_key_frames (Debug.keys shot)).

End DebugOutput.

(** ** Vocabulary of the runs *)

(** The newest [cap] entries of a history. *)
Definition newest {A} (cap : Z) (l : list A) : list A :=
  drop (length l - Z.to_nat cap) l.

(** The length of the run of tracked frames a history of measurements ends
    with. *)
Definition streak (fs : list features) : Z :=
  foldl (λ c f, if feat_stable f then c + 1 else 0) 0 fs.

(** Consecutive entries lie at least [g] apart. *)
Fixpoint gaps_at_least (g : Z) (l : list Z) : Prop :=
  match l with
  | a :: rest =>
      match rest with
      | b :: _ => g ≤ b - a
      | [] => True
      end ∧ gaps_at_least g rest
  | [] => True
  end.

(** The eight positions moved by [off]. *)
Definition shift_keys (off : Z) (k : KeyFrames) : KeyFrames :=
  {| stance_idx := stance_idx k + off;
     load_idx := load_idx k + off;
     mid1_idx := mid1_idx k + off;
     mid2_idx := mid2_idx k + off;
     mid3_idx := mid3_idx k + off;
     mid4_idx := mid4_idx k + off;
     release_idx := release_idx k + off;
     followthrough_idx := followthrough_idx k + off |}.

(** A detection with its buffer positions turned into stream positions: at
    stream position [n] a buffer of capacity [cap] has evicted
    [max(0, n + 1 - cap)] frames. *)
Definition to_stream (cap : Z) (d : detection) : detection :=
  {| det_frame := det_frame d;
     det_keys := shift_keys (Z.max 0 (det_frame d + 1 - cap)) (det_keys d);
     det_load_angle := det_load_angle d;
     det_release_angle := det_release_angle d |}.

(** The release rule on a history that is never trimmed: at stream position
    [n], after the measurements [f] were taken, with [c] tracked frames in a
    row, the last event at [a] and the angles [A] of the positions 0 to
    [n]. *)
Definition stream_verdict (c : Z) (a : option Z) (A : list (option float))
    (n : Z) (f : features) : option detection :=
  if (8 <=? c)
     && match a with Some a => 45 <=? n - a | None => true end
     && Live.released f
  then
    let r := scan A (range (Z.max 0 (n - 60)) n) (infinity, n) in
    if n - snd r <? 10 then None
    else Some {| det_frame := n;
                 det_keys := sampled (snd r) n (n + 1);
                 det_load_angle := fst r;
                 det_release_angle := default 0%float (feat_angle f) |}
  else None.

(** The detections over a stream of measurements on a history that is never
    trimmed. *)
Fixpoint stream_detections_from (n c : Z) (a : option Z)
    (A : list (option float)) (fs : list features) : list detection :=
  match fs with
  | [] => []
  | f :: rest =>
      let c' := if feat_stable f then c + 1 else 0 in
      let A' := A ++ [feat_angle f] in
      match stream_verdict c' a A' n f with
      | Some d => d :: stream_detections_from (n + 1) c' (Some n) A' rest
      | None => stream_detections_from (n + 1) c' a A' rest
      end
  end.

Definition stream_detections (fs : list features) : list detection :=
  stream_detections_from 0 0 None [] fs.

(** The detections behind the outcomes of a run of the debugger, the first
    call at stream position [n]. *)
Fixpoint shot_detections_from (n : Z) (evs : list (option Debug.DetectedShot))
  : list detection :=
  match evs with
  | [] => []
  | Some shot :: rest =>
      {| det_frame := n;
         det_keys := Debug.keys shot;
         det_load_angle := Debug.load_angle shot;
         det_release_angle := Debug.release_angle shot |}
      :: shot_detections_from (n + 1) rest
  | None :: rest => shot_detections_from (n + 1) rest
  end.

Section RunsVocabulary.
Context `{External}.

(** The measurements [process_frame] takes from an input. *)
Definition debug_measure (sd : string) (i : Debug.input) : features :=
  extract sd (Debug.in_landmarks i) (Debug.in_visibility i).

(** The metrics record [process_frame] stores for an input. *)
Definition debug_metrics (sd : string) (i : Debug.input) : Debug.FrameMetrics :=
  Debug.metrics_of sd (Debug.in_landmarks i) (debug_measure sd i)
    (Debug.in_frame_num i) (Debug.in_timestamp_ms i).

(** The detections of the debugger on the shooting side [sd]. *)
Definition debug_detections (sd : string) (inputs : list Debug.input)
  : list detection :=
  match Debug.run (Debug.init sd) inputs with
  | Ok (_, evs) => shot_detections_from 0 evs
  | Raise _ => []
  end.

(** The frames of a debugger run as the live detector gets them, call [n]
    reading [clock n]. *)
Definition as_live (clock : nat → float) (inputs : list Debug.input)
  : list Live.input :=
  imap (λ n i, {| Live.in_frame := Debug.in_frame i;
                  Live.in_landmarks := Debug.in_landmarks i;
                  Live.in_visibility := Debug.in_visibility i;
                  Live.in_now := clock n |}) inputs.

End RunsVocabulary.

(** The events a run returned, in order. *)
Definition events_of {A} (evs : list (option A)) : list A := omap id evs.

(** A per-frame method fed a sequence of inputs, the outcome of every call
    kept: the shape of [Live.run] and [Debug.run]. *)
Fixpoint run_with {S I O} (step : S → I → result (S * option O)) (st : S)
    (inputs : list I) : result (S * list (option O)) :=
  match inputs with
  | [] => Ok (st, [])
  | i :: rest =>
      '(st1, ev) ← step st i;
      '(st2, evs) ← run_with step st1 rest;
      Ok (st2, ev :: evs)
  end.

Section Traces.
Context `{External}.

(** What a run of the live detector from [__init__] over [inputs] leaves:
    the buffers hold the newest 180 frames and their measurements, the
    stability counter is the run of tracked frames the stream ends with. *)
Definition live_trace (sd : string) (inputs : list Live.input)
    (st : Live.state) (evs : list (option Live.ShotEvent)) : Prop :=
  live_inv (len inputs) (last_accepted evs) st
  ∧ Live.side st = sd
  ∧ Live.frames_buffer st = newest Live.max_buffer (Live.in_frame <$> inputs)
  ∧ Live.landmarks_buffer st
    = newest Live.max_buffer (Live.in_landmarks <$> inputs)
  ∧ Live.elbow_angles st
    = newest Live.max_buffer (feat_angle <$> (live_measure sd <$> inputs))
  ∧ Live.wrist_heights st
    = newest Live.max_buffer (feat_wrist_y <$> (live_measure sd <$> inputs))
  ∧ Live.stability_count st = streak (live_measure sd <$> inputs).

(** The same for the debugger, with its list of shots and its counter. *)
Definition debug_trace (sd : string) (inputs : list Debug.input)
    (st : Debug.state) (evs : list (option Debug.DetectedShot)) : Prop :=
  debug_inv (len inputs) (last_accepted evs) st
  ∧ Debug.side st = sd
  ∧ Debug.frames_buffer st = newest Debug.max_buffer (Debug.in_frame <$> inputs)
  ∧ Debug.metrics_buffer st
    = newest Debug.max_buffer (debug_metrics sd <$> inputs)
  ∧ Debug.stability_count st = streak (debug_measure sd <$> inputs)
  ∧ Debug.shots st = events_of evs
  ∧ Debug.shot_count st = len (Debug.shots st)
  ∧ Debug.shot_num <$> Debug.shots st = seqZ 1 (len (Debug.shots st)).

End Traces.

(** ** Research ranges and height profiles (biomechanics.py 34-92, 192-283),
    as far as the live loop uses them *)

Module Biomechanics.

(** [OptimalRange]; [unit_name] is the field [unit]. *)
Record OptimalRange := {
  min_val : float;
  max_val : float;
  ideal : float;
  unit_name : string;
  research_note : string
}.

Definition ELBOW_ANGLE_LOAD : OptimalRange :=
  {| min_val := 80;
     max_val := 100;
     ideal := 90;
     unit_name := "°";
     research_note :=
       "85-95° elbow angle at set point allows efficient force transfer" |}.

(** [HeightProfile]; the two adjustments are numbers, written as integers or
    as floats in the source. *)
Record HeightProfile := {
  category : string;
  height_range_inches : Z * Z;
  release_speed : string;
  arc_emphasis : string;
  release_height_note : string;
  arc_adjustment : float;
  release_time_adjustment : float;
  key_principles : list string
}.

(** The double quote of the category names. *)
Definition dq : string := String (Ascii.ascii_of_nat 34) EmptyString.

Definition compact : HeightProfile :=
  {| category := "Compact (under 5'8" +:+ dq +:+ ")";
     height_range_inches := (0, 68);
     release_speed := "quick";
     arc_emphasis := "high";
     release_height_note := "Maximize release height within your range";
     arc_adjustment := 3;
     release_time_adjustment := -0.1;
     key_principles :=
       ["Quick release reduces contest window";
        "Higher arc (48°+) clears defenders";
        "Strong legs compensate for height";
        "Consistent set point is crucial"] |}.

Definition average : HeightProfile :=
  {| category := "Average (5'8" +:+ dq +:+ " - 6'2" +:+ dq +:+ ")";
     height_range_inches := (68, 74);
     release_speed := "moderate";
     arc_emphasis := "standard";
     release_height_note := "Standard release height works well";
     arc_adjustment := 0;
     release_time_adjustment := 0;
     key_principles :=
       ["Most versatile height range";
        "Can use quick or traditional release";
        "Focus on consistency over speed";
        "Standard 45° arc is efficient"] |}.

Definition tall : HeightProfile :=
  {| category := "Tall (6'2" +:+ dq +:+ " - 6'7" +:+ dq +:+ ")";
     height_range_inches := (74, 79);
     release_speed := "moderate";
     arc_emphasis := "standard";
     release_height_note := "Use your height - release above defenders";
     arc_adjustment := -1;
     release_time_adjustment := 0.05;
     key_principles :=
       ["Higher release point is an advantage";
        "Don't rush - use your height";
        "Can shoot over smaller defenders";
        "Efficient arc (44-46°) works well"] |}.

Definition very_tall : HeightProfile :=
  {| category := "Very Tall (6'7" +:+ dq +:+ "+)";
     height_range_inches := (79, 100);
     release_speed := "deliberate";
     arc_emphasis := "can_be_lower";
     release_height_note := "High release lets you shoot over anyone";
     arc_adjustment := -2;
     release_time_adjustment := 0.1;
     key_principles :=
       ["Maximize height advantage";
        "Release point should be very high";
        "Flatter arc is acceptable (43-45°)";
        "Focus on soft touch"] |}.

(** The dictionary, in the order of its literal. *)
Definition HEIGHT_PROFILES : list (string * HeightProfile) :=
  [("compact", compact); ("average", average); ("tall", tall);
   ("very_tall", very_tall)].

(** [min_h <= height_inches < max_h] *)
Definition in_range (height_inches : Z) (p : HeightProfile) : bool :=
  (fst (height_range_inches p) <=? height_inches)
  && (height_inches <? snd (height_range_inches p)).

(** [get_height_profile]: the first profile of the dictionary whose range
    holds the height, [HEIGHT_PROFILES["average"]] when there is none. *)
Definition get_height_profile (height_inches : Z) : HeightProfile :=
  match List.find (in_range height_inches) (HEIGHT_PROFILES.*2) with
  | Some profile => profile
  | None => average
  end.

End Biomechanics.

(** ** The pose detector: [LANDMARK_NAMES] and [PoseDetector.detect]
    (live_analysis.py 721-729, 767-795) *)

Module Pose.

(** A landmark of MediaPipe, the attributes the code reads. *)
Record Landmark := {
  x : float;
  y : float;
  z : float;
  visibility : float
}.

(** The dictionary, in the order of its literal. *)
Definition LANDMARK_NAMES : list (Z * string) :=
  [(0, "nose");
   (11, "left_shoulder"); (12, "right_shoulder");
   (13, "left_elbow"); (14, "right_elbow");
   (15, "left_wrist"); (16, "right_wrist");
   (23, "left_hip"); (24, "right_hip");
   (25, "left_knee"); (26, "right_knee");
   (27, "left_ankle"); (28, "right_ankle")].

(** The loop of lines 788-793 over the items [names], from the
    dictionaries [acc]. *)
Fixpoint fill (pose : list Landmark) (names : list (Z * string))
    (acc : gmap string point * gmap string float)
  : result (gmap string point * gmap string float) :=
  match names with
  | [] => Ok acc
  | (idx, name) :: rest =>
      if idx <? len pose then
        lm ← getitem pose idx;
        fill pose rest (<[name := (x lm, y lm, z lm)]> acc.1,
                        <[name := visibility lm]> acc.2)
      else fill pose rest acc
  end.

(** [PoseDetector.detect] from what the landmarker gives for the frame:
    [None] when [detect_for_video] raises, else [results.pose_landmarks]. *)
Definition detect (results : option (list (list Landmark)))
  : result (gmap string point * gmap string float) :=
  match results with
  | Some (pose :: _) => fill pose LANDMARK_NAMES (∅, ∅)
  | _ => Ok (∅, ∅)
  end.

(** The coordinates stored for a landmark. *)
Definition xyz (lm : Landmark) : point := (x lm, y lm, z lm).

(** The first pose of the results, empty when there is none. *)
Definition first_pose (results : option (list (list Landmark))) : list Landmark :=
  match results with
  | Some (pose :: _) => pose
  | _ => []
  end.

End Pose.

(** ** The session: [LiveState], [LiveAnalyzer.on_shot_analyzed] and the
    main loop (live_analysis.py 124-247, 288-295, 1428-1522, 1635-1810) *)

Module Session.

(** [PlayerProfile] *)
Record PlayerProfile := {
  skill_level : string;
  working_on : string;
  limitations : string;
  height_inches : option Z
}.

(** A Python object as [json.loads] returns them; [PNone] is [None]. *)
#[warnings="-register-all"] Inductive pyval :=
  | PNone
  | PBool (b : bool)
  | PInt (z : Z)
  | PFloat (x : float)
  | PStr (s : string)
  | PList (l : list pyval)
  | PDict (d : list (string * pyval)).

(** [bool(v)], the truth test of [if v:]. *)
Definition truth (v : pyval) : bool :=
  match v with
  | PNone => false
  | PBool b => b
  | PInt z => negb (z =? 0)
  | PFloat x => truthy x
  | PStr EmptyString => false
  | PStr (String _ _) => true
  | PList [] => false
  | PList (_ :: _) => true
  | PDict [] => false
  | PDict (_ :: _) => true
  end.

(** [v is not None] *)
Definition is_not_none (v : pyval) : bool :=
  match v with
  | PNone => false
  | _ => true
  end.

(** [v == True] and [v == False]: a bool compares as the number 1 or 0,
    and nothing but a bool or a number equals one. *)
Definition eq_True (v : pyval) : bool :=
  match v with
  | PBool b => b
  | PInt z => z =? 1
  | PFloat x => PrimFloat.eqb x 1
  | _ => false
  end.
Definition eq_False (v : pyval) : bool :=
  match v with
  | PBool b => negb b
  | PInt z => z =? 0
  | PFloat x => PrimFloat.eqb x 0
  | _ => false
  end.

(** The fields of a [ShotEvent] the feedback client fills in. [_analyze]
    assigns them from the parsed reply as they come ([result.get(...)],
    lines 546-554), whatever the annotations of the data class say, or
    leaves the defaults and a message of its own. *)
Record Analysis := {
  made : pyval;
  miss_type : pyval;
  form_rating : pyval;
  feedback : pyval;
  key_issue : pyval;
  did_well : pyval;
  quick_cue : pyval;
  looks_like : pyval
}.

(** [ShotMetrics]; the fields are [shot_number], [made], [elbow_load],
    [elbow_release], [wrist_height] and [knee_bend]. *)
Record ShotMetrics := {
  m_shot_number : Z;
  m_made : pyval;
  m_elbow_load : float;
  m_elbow_release : float;
  m_wrist_height : float;
  m_knee_bend : float
}.

(** The dictionary appended to [shot_history] (lines 1451-1461): the number
    of the shot and the fields of the analysis. *)
Record ShotRecord := {
  number : Z;
  analysis : Analysis
}.

(** [LiveState], without the fields of the annotated view
    ([last_shot_frames], ..., [show_last_shot]). *)
Record LiveState := {
  shots_made : Z;
  shots_missed : Z;
  total_shots : Z;
  current_feedback : pyval;
  feedback_display_until : float;
  last_shot_result : option bool;
  result_flash_until : float;
  shot_history : list ShotRecord;
  shot_metrics : list ShotMetrics;
  all_feedback_given : list pyval
}.

(** [LiveState()] *)
Definition fresh : LiveState :=
  {| shots_made := 0; shots_missed := 0; total_shots := 0;
     current_feedback := PNone; feedback_display_until := 0;
     last_shot_result := None; result_flash_until := 0;
     shot_history := []; shot_metrics := []; all_feedback_given := [] |}.

(** [min(...)] and [max(...)] over a sequence that starts with [x]. *)
Definition py_min (x : float) (rest : list float) : float :=
  foldl (λ m y, if PrimFloat.ltb y m then y else m) x rest.
Definition py_max (x : float) (rest : list float) : float :=
  foldl (λ m y, if PrimFloat.ltb m y then y else m) x rest.

(** The dictionary [avg_metrics] returns. *)
Record Summary := {
  elbow_load_avg : float;
  elbow_load_min : float;
  elbow_load_max : float;
  elbow_release_avg : float;
  elbow_release_min : float;
  elbow_release_max : float;
  wrist_height_avg : float;
  knee_bend_avg : float;
  shot_numbers : list Z
}.

(** The dictionary [get_make_miss_patterns] returns. *)
Record Patterns := {
  makes : option Summary;
  misses : option Summary;
  total_makes : Z;
  total_misses : Z
}.

Section Patterns.
(** [np.mean] *)
Variable mean : list float → float.

(** [avg_metrics] *)
Definition avg_metrics (shots : list ShotMetrics) : option Summary :=
  match shots with
  | [] => None
  | s :: rest =>
      Some {| elbow_load_avg := mean (m_elbow_load <$> shots);
              elbow_load_min := py_min (m_elbow_load s) (m_elbow_load <$> rest);
              elbow_load_max := py_max (m_elbow_load s) (m_elbow_load <$> rest);
              elbow_release_avg := mean (m_elbow_release <$> shots);
              elbow_release_min :=
                py_min (m_elbow_release s) (m_elbow_release <$> rest);
              elbow_release_max :=
                py_max (m_elbow_release s) (m_elbow_release <$> rest);
              wrist_height_avg := mean (m_wrist_height <$> shots);
              knee_bend_avg := mean (m_knee_bend <$> shots);
              shot_numbers := m_shot_number <$> shots |}
  end.

(** [s.made == True] and [s.made == False] *)
Definition is_make (s : ShotMetrics) : bool := eq_True (m_made s).
Definition is_miss (s : ShotMetrics) : bool := eq_False (m_made s).

(** [LiveState.get_make_miss_patterns] *)
Definition get_make_miss_patterns (s : LiveState) : Patterns :=
  let makes := List.filter is_make (shot_metrics s) in
  let misses := List.filter is_miss (shot_metrics s) in
  {| makes := avg_metrics makes;
     misses := avg_metrics misses;
     total_makes := len makes;
     total_misses := len misses |}.

End Patterns.

(** [vs_research["elbow"]] of lines 1704-1711. *)
Definition vs_research_elbow (elbow_load : float) : string :=
  if PrimFloat.leb (Biomechanics.min_val Biomechanics.ELBOW_ANGLE_LOAD) elbow_load
     && PrimFloat.leb elbow_load (Biomechanics.max_val Biomechanics.ELBOW_ANGLE_LOAD)
  then "optimal"
  else if PrimFloat.ltb elbow_load
            (Biomechanics.min_val Biomechanics.ELBOW_ANGLE_LOAD)
       then "below_optimal"
       else "above_optimal".

(** [local_analysis] of lines 1697-1721: the height profile, if the player
    gave a height, and the label of the load angle. *)
Record LocalAnalysis := {
  la_height_profile : option Biomechanics.HeightProfile;
  la_vs_research_elbow : string
}.

Section Analyzer.
Context `{External}.

(** [LiveAnalyzer.on_shot_analyzed], lines 1430-1485: the counters and the
    histories; [t_flash] and [t_feedback] are the two readings of
    [time.time()]. The database, the annotated view and the printed lines
    are left out. *)
Definition on_shot_analyzed (s : LiveState) (shot : Live.ShotEvent)
    (an : Analysis) (t_flash t_feedback : float) : LiveState :=
  let judged := is_not_none (made an) in
  {| shots_made :=
       (if judged && truth (made an) then shots_made s + 1 else shots_made s);
     shots_missed :=
       (if judged && negb (truth (made an)) then shots_missed s + 1
        else shots_missed s);
     total_shots := total_shots s;
     current_feedback :=
       (if truth (feedback an) then feedback an else current_feedback s);
     feedback_display_until :=
       (if truth (feedback an) then PrimFloat.add t_feedback 5
        else feedback_display_until s);
     last_shot_result :=
       (if judged then Some (truth (made an)) else last_shot_result s);
     result_flash_until :=
       (if judged then PrimFloat.add t_flash 1 else result_flash_until s);
     shot_history :=
       shot_history s ++ [{| number := Live.shot_number shot; analysis := an |}];
     shot_metrics :=
       shot_metrics s
         ++ [{| m_shot_number := Live.shot_number shot;
                m_made := made an;
                m_elbow_load := Live.elbow_angle_load shot;
                m_elbow_release := Live.elbow_angle_release shot;
                m_wrist_height := Live.wrist_height_release shot;
                m_knee_bend := Live.knee_bend_load shot |}];
     all_feedback_given :=
       (if truth (feedback an) then all_feedback_given s ++ [feedback an]
        else all_feedback_given s) |}.

(** What [analyze_shot_async] leaves on the event when the client has no
    key (lines 291-295) and before any reply. *)
Definition no_key_analysis : Analysis :=
  {| made := PNone; miss_type := PNone; form_rating := PNone;
     feedback := PStr "Set GEMINI_API_KEY for AI feedback";
     key_issue := PNone; did_well := PNone; quick_cue := PNone;
     looks_like := PNone |}.

(** The attributes of [LiveAnalyzer] the loop reads and writes, without the
    pose and ball detectors, the visualizer and the database. *)
Record analyzer := {
  side : string;
  shot_detector : Live.state;
  state : LiveState;
  frame_count : Z;
  (** [isinstance(self.source, str)] *)
  source_is_file : bool;
  (** [self.gemini.enabled] *)
  gemini_enabled : bool;
  player_profile : PlayerProfile
}.

(** [LiveAnalyzer.__init__], the part that sets these attributes. *)
Definition init (from_file : bool) (shooting_side : string)
    (profile : PlayerProfile) (has_key : bool) : analyzer :=
  {| side := shooting_side;
     shot_detector := Live.init shooting_side;
     state := fresh;
     frame_count := 0;
     source_is_file := from_file;
     gemini_enabled := has_key;
     player_profile := profile |}.

(** What one pass of the loop gets from outside: the frame read with its
    pose, [None] when [cap.read()] fails; [frame.shape[:2]], the height and
    the width of the frame; the replies of the feedback client that arrive
    during the pass, each a call of [on_shot_analyzed] from its thread with
    the event, the fields it filled in and two readings of the clock; the
    key code [cv2.waitKey(1) & 0xFF]; the two readings of the clock for a
    shot analyzed within the pass. *)
Record tick := {
  tick_input : option Live.input;
  tick_shape : Z * Z;
  tick_replies : list (Live.ShotEvent * Analysis * float * float);
  tick_key : Z;
  tick_flash : float;
  tick_feedback : float
}.

Definition set_shot_number (ev : Live.ShotEvent) (n : Z) : Live.ShotEvent :=
  {| Live.shot_number := n;
     Live.timestamp := Live.timestamp ev;
     Live.frames := Live.frames ev;
     Live.elbow_angle_load := Live.elbow_angle_load ev;
     Live.elbow_angle_release := Live.elbow_angle_release ev;
     Live.wrist_height_release := Live.wrist_height_release ev;
     Live.knee_bend_load := Live.knee_bend_load ev |}.

Definition set_total_shots (s : LiveState) (n : Z) : LiveState :=
  {| shots_made := shots_made s; shots_missed := shots_missed s;
     total_shots := n;
     current_feedback := current_feedback s;
     feedback_display_until := feedback_display_until s;
     last_shot_result := last_shot_result s;
     result_flash_until := result_flash_until s;
     shot_history := shot_history s; shot_metrics := shot_metrics s;
     all_feedback_given := all_feedback_given s |}.

(** Lines 1697-1721. *)
Definition local_analysis (profile : PlayerProfile) (ev : Live.ShotEvent)
  : LocalAnalysis :=
  {| la_height_profile :=
       match height_inches profile with
       | Some h => if h =? 0 then None
                   else Some (Biomechanics.get_height_profile h)
       | None => None
       end;
     la_vs_research_elbow := vs_research_elbow (Live.elbow_angle_load ev) |}.

(** A sequence of replies of the feedback client, each a call of
    [on_shot_analyzed]. *)
Definition replies (s : LiveState)
    (cs : list (Live.ShotEvent * Analysis * float * float)) : LiveState :=
  foldl (λ s c, on_shot_analyzed s c.1.1.1 c.1.1.2 c.1.2 c.2) s cs.

(** The state once the replies of a pass are in. A thread is started only
    when the client has a key (lines 291-302), so without one no reply
    arrives. The callback writes no attribute the loop itself writes, so
    the point of the pass at which it runs does not show in these fields. *)
Definition arrived (a : analyzer) (t : tick) : LiveState :=
  if gemini_enabled a then replies (state a) (tick_replies t) else state a.

(** Lines 1664-1668: the wrist in pixels,
    [(int(wrist[0] * w), int(wrist[1] * h))], for a frame of [h] rows and
    [w] columns; [int] raises on a coordinate that is not finite. *)
Definition wrist_px (side : string) (landmarks : gmap string point)
    (shape : Z * Z) : result (option (Z * Z)) :=
  match landmarks !! (side +:+ "_wrist") with
  | Some wrist =>
      let '(h, w) := shape in
      px ← int_of_float (PrimFloat.mul (fst (fst wrist)) (float_of_int w));
      py ← int_of_float (PrimFloat.mul (coord1 wrist) (float_of_int h));
      Ok (Some (px, py))
  | None => Ok None
  end.

(** The key codes of lines 1774-1794. *)
Definition ord_q : Z := 113.
Definition ord_s : Z := 115.

(** One pass of the [while] loop of [run], lines 1650-1807: the analyzer it
    leaves, the shot it hands to the feedback client with its local
    analysis, and whether the loop goes on. The calls into OpenCV, the ball
    and rim detectors and the visualizer are taken to return; they write
    none of these attributes. *)
Definition iteration (a : analyzer) (t : tick)
  : result (analyzer * option (Live.ShotEvent * LocalAnalysis) * bool) :=
  let count := frame_count a + 1 in
  let s0 := arrived a t in
  match tick_input t with
  | None =>
      Ok ({| side := side a; shot_detector := shot_detector a; state := s0;
             frame_count := count; source_is_file := source_is_file a;
             gemini_enabled := gemini_enabled a;
             player_profile := player_profile a |},
          None, negb (source_is_file a))
  | Some i =>
      _ ← wrist_px (side a) (Live.in_landmarks i) (tick_shape t);
      '(detector, shot_event) ←
        Live.update (shot_detector a) (Live.in_frame i) (Live.in_landmarks i)
          (Live.in_visibility i) (Live.in_now i);
      let '(st, sent) :=
        match shot_event with
        | Some ev =>
            let st1 := set_total_shots s0 (total_shots s0 + 1) in
            let ev1 := set_shot_number ev (total_shots st1) in
            let st2 := if gemini_enabled a then st1
                       else on_shot_analyzed st1 ev1 no_key_analysis
                              (tick_flash t) (tick_feedback t) in
            (st2, Some (ev1, local_analysis (player_profile a) ev1))
        | None => (s0, None)
        end in
      _ ← get_current_angle detector;
      if tick_key t =? ord_q then
        Ok ({| side := side a; shot_detector := detector; state := st;
               frame_count := count; source_is_file := source_is_file a;
               gemini_enabled := gemini_enabled a;
               player_profile := player_profile a |}, sent, false)
      else if tick_key t =? ord_s then
        let side' := if String.eqb (side a) "right" then "left" else "right" in
        Ok ({| side := side'; shot_detector := Live.init side'; state := st;
               frame_count := count; source_is_file := source_is_file a;
               gemini_enabled := gemini_enabled a;
               player_profile := player_profile a |}, sent, true)
      else
        Ok ({| side := side a; shot_detector := detector; state := st;
               frame_count := count; source_is_file := source_is_file a;
               gemini_enabled := gemini_enabled a;
               player_profile := player_profile a |}, sent, true)
  end.

(** The loop of [run] over the passes [ticks] describes, as far as they
    go: the shots handed to the feedback client, in order. *)
Fixpoint run (a : analyzer) (ticks : list tick)
  : result (analyzer * list (Live.ShotEvent * LocalAnalysis)) :=
  match ticks with
  | [] => Ok (a, [])
  | t :: rest =>
      r ← iteration a t;
      let '(a1, sent, go_on) := r in
      let out := match sent with Some x => [x] | None => [] end in
      if (go_on : bool) then
        '(a2, more) ← run a1 rest;
        Ok (a2, out ++ more)
      else Ok (a1, out)
  end.

(** The pixel conversions of a pass succeed, for either shooting side. *)
Definition pixels_ok (t : tick) : bool :=
  match tick_input t with
  | Some i =>
      forallb (λ sd, match wrist_px sd (Live.in_landmarks i) (tick_shape t) with
                     | Ok _ => true
                     | Raise _ => false
                     end) ["left"; "right"]
  | None => true
  end.

End Analyzer.

(** The entries of [shot_metrics] the counters count: [made] is not
    [None] and is true, or is not [None] and is false, in the truth test of
    [on_shot_analyzed]. *)
Definition counts_make (m : ShotMetrics) : bool :=
  is_not_none (m_made m) && truth (m_made m).
Definition counts_miss (m : ShotMetrics) : bool :=
  is_not_none (m_made m) && negb (truth (m_made m)).

(** The counters against the stored metrics: [shots_made] and
    [shots_missed] count the entries of [shot_metrics] that count as a make
    and as a miss, and [shot_history] has an entry for each. *)
Definition tallied (s : LiveState) : Prop :=
  shots_made s = len (List.filter counts_make (shot_metrics s))
  ∧ shots_missed s = len (List.filter counts_miss (shot_metrics s))
  ∧ len (shot_history s) = len (shot_metrics s).

(** [made] as the prompt asks for it: [true], [false] or [null]. *)
Definition plain (v : pyval) : bool :=
  match v with
  | PNone | PBool _ => true
  | _ => false
  end.

End Session.

(** ** A session on [bench] *)

(** A pass on a frame of 480 rows and 640 columns, no key pressed
    ([-1 & 0xFF] is 255) and no reply. *)
Definition bench_tick (i : @Live.input bench) : @Session.tick bench :=
  {| Session.tick_input := Some i;
     Session.tick_shape := (480, 640);
     Session.tick_replies := [];
     Session.tick_key := 255;
     Session.tick_flash := 0;
     Session.tick_feedback := 0 |}.

(** A reply that judges a shot a make. *)
Definition bench_make : Session.Analysis :=
  {| Session.made := Session.PBool true;
     Session.miss_type := Session.PNone;
     Session.form_rating := Session.PInt 8;
     Session.feedback := Session.PStr "Good follow-through";
     Session.key_issue := Session.PNone;
     Session.did_well := Session.PList [Session.PStr "follow-through"];
     Session.quick_cue := Session.PNone;
     Session.looks_like := Session.PStr "makes" |}.

(** The same reply with the value of [made] given as a word, the string
    true in place of the boolean. *)
Definition bench_make_quoted : Session.Analysis :=
  {| Session.made := Session.PStr "true";
     Session.miss_type := Session.PNone;
     Session.form_rating := Session.PInt 8;
     Session.feedback := Session.PStr "Good follow-through";
     Session.key_issue := Session.PNone;
     Session.did_well := Session.PList [Session.PStr "follow-through"];
     Session.quick_cue := Session.PNone;
     Session.looks_like := Session.PStr "makes" |}.

(** A pass on which the camera gives no frame and the reply [an] on the
    shot [ev] arrives. *)
Definition bench_reply_tick (ev : @Live.ShotEvent bench) (an : Session.Analysis)
  : @Session.tick bench :=
  {| Session.tick_input := None;
     Session.tick_shape := (480, 640);
     Session.tick_replies := [(ev, an, 0%float, 0%float)];
     Session.tick_key := 255;
     Session.tick_flash := 0;
     Session.tick_feedback := 0 |}.

(** The held arm of [bench_hold] up to its shot, then the reply on it. *)
Definition bench_session : list (@Session.tick bench) :=
  (bench_tick <$> bench_hold 170 11)
  ++ [bench_reply_tick (bench_shot (bench_hold 170 11)) bench_make].

(** The same passes with the quoted reply. *)
Definition bench_session_quoted : list (@Session.tick bench) :=
  (bench_tick <$> bench_hold 170 11)
  ++ [bench_reply_tick (bench_shot (bench_hold 170 11)) bench_make_quoted].

Definition bench_profile : Session.PlayerProfile :=
  {| Session.skill_level := "intermediate";
     Session.working_on := "general";
     Session.limitations := "none";
     Session.height_inches := Some 70 |}.

(** The arithmetic mean, summed from the left. *)
Definition bench_mean (l : list float) : float :=
  PrimFloat.div (foldl PrimFloat.add 0%float l) (float_of_int (len l)).
(** * Properties *)

(** ** The order of binary64 values *)

Ltac sf_cases :=
  repeat match goal with
  | |- context [Z.compare ?a ?b] => destruct (Z.compare_spec a b); subst
  | |- context [Pos.compare_cont Eq ?a ?b] =>
      change (Pos.compare_cont Eq a b) with (Pos.compare a b);
      destruct (Pos.compare_spec a b); subst
  | H : context [Z.compare ?a ?b] |- _ => destruct (Z.compare_spec a b); subst
  | H : context [Pos.compare_cont Eq ?a ?b] |- _ =>
      change (Pos.compare_cont Eq a b) with (Pos.compare a b) in H;
      destruct (Pos.compare_spec a b); subst
  end; simpl in *; try discriminate; try reflexivity; try lia.

Ltac sf_solve :=
  unfold SFltb, SFleb, SFeqb, SFcompare;
  repeat match goal with
  | x : spec_float |- _ => destruct x as [[]|[]| |[] ? ?]
  end;
  simpl; try discriminate; try reflexivity; intros; sf_cases.

Lemma SFltb_le_trans x m a :
  SFltb x m = true → SFleb m a = true → SFltb x a = true.
Proof. sf_solve. Qed.

Lemma SFltb_leb x a : SFltb x a = true → SFleb x a = true.
Proof. sf_solve. Qed.

Lemma SFleb_refl x : SFltb x (S754_infinity false) = true → SFleb x x = true.
Proof. sf_solve. Qed.

Lemma SFltb_zero_neq x :
  SFltb (S754_zero false) x = true → SFeqb x (S754_zero false) = false.
Proof. sf_solve. Qed.

Lemma SFleb_finite_below_inf x s m e :
  SFleb x (S754_finite s m e) = true → SFltb x (S754_infinity false) = true.
Proof. sf_solve. Qed.

Lemma SFnot_ltb_leb x m :
  SFltb x m = false → SFltb x (S754_infinity false) = true →
  SFleb m m = true → SFleb m x = true.
Proof. sf_solve. Qed.

Lemma Prim2SF_infinity : Prim2SF infinity = S754_infinity false.
Proof. reflexivity. Qed.

Lemma flt_le_trans x m a :
  PrimFloat.ltb x m = true → PrimFloat.leb m a = true → PrimFloat.ltb x a = true.
Proof. rewrite !ltb_spec, leb_spec. apply SFltb_le_trans. Qed.

Lemma flt_leb x a : PrimFloat.ltb x a = true → PrimFloat.leb x a = true.
Proof. rewrite ltb_spec, leb_spec. apply SFltb_leb. Qed.

Lemma fleb_refl x : below_inf x = true → PrimFloat.leb x x = true.
Proof.
  unfold below_inf. rewrite ltb_spec, leb_spec, Prim2SF_infinity.
  apply SFleb_refl.
Qed.

(** An angle in degrees is one the search can select. *)
Lemma in_degrees_usable (a : float) :
  in_degrees a = true → usable (Some a) = true.
Proof.
  unfold in_degrees, usable, truthy, below_inf. intros Ha.
  apply andb_prop in Ha. destruct Ha as [H0 H180].
  rewrite ltb_spec in H0. rewrite leb_spec in H180.
  change (Prim2SF 0) with (S754_zero false) in H0.
  change (Prim2SF 180) with (S754_finite false 6333186975989760 (-45)) in H180.
  rewrite FloatAxioms.eqb_spec, ltb_spec, Prim2SF_infinity.
  change (Prim2SF 0) with (S754_zero false).
  rewrite (SFltb_zero_neq _ H0), (SFleb_finite_below_inf _ _ _ _ H180).
  reflexivity.
Qed.

Lemma fnot_ltb_leb x m :
  PrimFloat.ltb x m = false → below_inf x = true →
  PrimFloat.leb m m = true → PrimFloat.leb m x = true.
Proof.
  unfold below_inf. rewrite !ltb_spec, !leb_spec, Prim2SF_infinity.
  apply SFnot_ltb_leb.
Qed.

(** ** The error monad *)

Lemma bind_Ok {A B} (m : result A) (f : A → result B) (b : B) :
  m ≫= f = Ok b → ∃ a, m = Ok a ∧ f a = Ok b.
Proof. destruct m as [a|e]; simpl; [eauto | discriminate]. Qed.

Ltac inv_bind H :=
  let a := fresh "v" in
  let E := fresh "E" in
  apply bind_Ok in H; destruct H as (a & E & H).

(** ** Python lists *)

Lemma len_nonneg {A} (l : list A) : 0 ≤ len l.
Proof. unfold len. lia. Qed.

Lemma len_app {A} (l k : list A) : len (l ++ k) = len l + len k.
Proof. unfold len. rewrite length_app. lia. Qed.

Lemma len_cons {A} (x : A) (l : list A) : len (x :: l) = len l + 1.
Proof. unfold len. simpl. lia. Qed.

Lemma len_drop {A} (l : list A) (k : nat) :
  len (drop k l) = Z.max 0 (len l - Z.of_nat k).
Proof. unfold len. rewrite length_drop. lia. Qed.

Lemma getitem_Ok {A} (l : list A) (i : Z) :
  0 ≤ i < len l → ∃ x, getitem l i = Ok x ∧ l !! Z.to_nat i = Some x.
Proof.
  intros Hi. unfold getitem.
  destruct (Z.ltb_spec i 0); [lia|].
  destruct (Z.ltb_spec i 0); [lia|].
  destruct (l !! Z.to_nat i) as [x|] eqn:E; [eauto|].
  apply lookup_ge_None in E. unfold len in Hi. lia.
Qed.

Lemma getitem_inv {A} (l : list A) (i : Z) (x : A) :
  0 ≤ i → getitem l i = Ok x → i < len l ∧ l !! Z.to_nat i = Some x.
Proof.
  intros Hi. unfold getitem.
  destruct (Z.ltb_spec i 0); [lia|].
  destruct (Z.ltb_spec i 0); [lia|].
  destruct (l !! Z.to_nat i) as [y|] eqn:E; [|discriminate].
  intros [= ->]. split; [|reflexivity].
  apply lookup_lt_Some in E. unfold len. lia.
Qed.

(** ** The key-frame sampler *)

(** The binary64 products round to the integer floors on every duration a
    search window of 60 frames can give. *)
Lemma mid_agrees_window : forallb mid_agrees (seqZ 0 61) = true.
Proof. vm_compute. reflexivity. Qed.

Lemma mid_offset_floor (d : Z) :
  0 ≤ d ≤ 60 →
  mid_offset d 0.20 = Ok (20 * d / 100) ∧ mid_offset d 0.40 = Ok (40 * d / 100)
  ∧ mid_offset d 0.60 = Ok (60 * d / 100) ∧ mid_offset d 0.80 = Ok (80 * d / 100).
Proof.
  intros Hd.
  pose proof mid_agrees_window as Hall.
  rewrite forallb_forall in Hall.
  assert (Hin : In d (seqZ 0 61)).
  { apply list_elem_of_In, list_elem_of_lookup. exists (Z.to_nat d).
    apply lookup_seqZ. lia. }
  specialize (Hall d Hin). unfold mid_agrees in Hall.
  repeat (apply andb_prop in Hall; destruct Hall as [Hall ?]).
  repeat match goal with
  | H : match mid_offset d ?f with _ => _ end = true |- _ =>
      destruct (mid_offset d f); [apply Z.eqb_eq in H; subst | discriminate]
  end.
  auto.
Qed.

Lemma clamp_id (n i : Z) : 0 ≤ i ≤ n - 1 → clamp n i = i.
Proof. unfold clamp. lia. Qed.

(** Inside the buffer, with a duration the window allows, the sampler
    returns the positions of [sampled]: no clamp moves anything. *)
Lemma sample_sampled (load release n : Z) :
  0 ≤ load → load ≤ release → release - load ≤ 60 → release ≤ n - 1 →
  sample load release (release - load) n = Ok (sampled load release n).
Proof.
  intros H0 H1 H2 H3. unfold sample.
  destruct (mid_offset_floor (release - load)) as (E1 & E2 & E3 & E4); [lia|].
  rewrite E1, E2, E3, E4. simpl. unfold sampled.
  set (d := release - load) in *.
  assert (0 ≤ 20 * d / 100 ≤ d) by (split; [apply Z.div_pos; lia | apply Z.div_le_upper_bound; lia]).
  assert (0 ≤ 40 * d / 100 ≤ d) by (split; [apply Z.div_pos; lia | apply Z.div_le_upper_bound; lia]).
  assert (0 ≤ 60 * d / 100 ≤ d) by (split; [apply Z.div_pos; lia | apply Z.div_le_upper_bound; lia]).
  assert (0 ≤ 80 * d / 100 ≤ d) by (split; [apply Z.div_pos; lia | apply Z.div_le_upper_bound; lia]).
  rewrite !clamp_id by lia. reflexivity.
Qed.

Lemma sampled_chain (load release n : Z) :
  0 ≤ load → load ≤ release → release ≤ n - 1 →
  chain (sampled load release n) n.
Proof.
  intros H0 H1 H2. unfold chain, sampled. simpl.
  set (d := release - load).
  assert (0 ≤ d) by (unfold d; lia).
  assert (0 ≤ 20 * d / 100) by (apply Z.div_pos; lia).
  assert (20 * d / 100 ≤ 40 * d / 100) by (apply Z.div_le_mono; lia).
  assert (40 * d / 100 ≤ 60 * d / 100) by (apply Z.div_le_mono; lia).
  assert (60 * d / 100 ≤ 80 * d / 100) by (apply Z.div_le_mono; lia).
  assert (80 * d / 100 ≤ d) by (apply Z.div_le_upper_bound; lia).
  unfold d in *. lia.
Qed.

(** ** Evictions and the stored index *)

Lemma rebase_spec (k : nat) (last : Z) :
  rebase k last = if 0 <? last then Z.max 0 (last - Z.of_nat k) else last.
Proof.
  unfold rebase. induction k as [|k IH].
  - simpl. destruct (Z.ltb_spec 0 last); lia.
  - rewrite Nat.iter_succ, IH. unfold rebase1.
    destruct (Z.ltb_spec 0 last);
      destruct (Z.ltb_spec 0 (Z.max 0 (last - Z.of_nat k))); try lia.
    destruct (Z.ltb_spec 0 last); lia.
Qed.

Lemma rebase_shift (k : nat) (last : Z) :
  rebase k (rebase1 last) = rebase (S k) last.
Proof. unfold rebase. rewrite Nat.iter_succ_r. reflexivity. Qed.

(** ** The backward search *)

Lemma angle_at_lookup (angles : list (option float)) (i : Z) (x : option float) :
  0 ≤ i → angles !! Z.to_nat i = Some x → angle_at angles i = x.
Proof.
  intros Hi E. unfold angle_at.
  destruct (Z.ltb_spec i 0); [lia|]. rewrite E. reflexivity.
Qed.

Lemma angle_at_outside (angles : list (option float)) (i : Z) :
  len angles ≤ i → angle_at angles i = None.
Proof.
  intros Hi. unfold angle_at. destruct (Z.ltb_spec i 0); [reflexivity|].
  rewrite (proj2 (lookup_ge_None angles (Z.to_nat i))); [reflexivity|].
  unfold len in Hi. lia.
Qed.

Lemma scan_snoc angles rng j acc :
  scan angles (rng ++ [j]) acc
  = scan_step (scan angles rng acc) j (angle_at angles j).
Proof. unfold scan. rewrite foldl_snoc. reflexivity. Qed.

Lemma usable_below_inf (m : float) : usable (Some m) = true → below_inf m = true.
Proof. simpl. intros Hm. apply andb_prop in Hm. tauto. Qed.

(** The loop invariant of the search, over the first [n] positions of a
    window that starts at [a]. *)
Lemma scan_seqZ_inv (angles : list (option float)) (a R : Z) (n : nat) :
  let r := scan angles (seqZ a (Z.of_nat n)) (infinity, R) in
  (none_usable angles a (a + Z.of_nat n) ∧ r = (infinity, R))
  ∨ earliest_min angles a (a + Z.of_nat n) (snd r) (fst r).
Proof.
  induction n as [|n IH]; simpl.
  - left. split; [intros i Hi; lia | reflexivity].
  - rewrite seqZ_S, scan_snoc.
    set (j := a + Z.of_nat n) in *.
    set (r := scan angles (seqZ a (Z.of_nat n)) (infinity, R)) in *.
    replace (a + Z.of_nat (S n)) with (j + 1) by lia.
    destruct IH as [[Hnone Hr] | (Hload & Hat & Hus & Hmin)].
    + rewrite Hr. unfold scan_step. simpl fst.
      destruct (angle_at angles j) as [y|] eqn:Ej.
      * destruct (truthy y && PrimFloat.ltb y infinity) eqn:Ec.
        -- right. simpl. split; [lia|]. split; [exact Ej|]. split; [exact Ec|].
           intros i y' Hi Ei Hu.
           destruct (Z.eq_dec i j) as [->|Hne].
           ++ rewrite Ej in Ei. injection Ei as <-.
              split; [apply fleb_refl, usable_below_inf, Ec | lia].
           ++ specialize (Hnone i ltac:(lia)). rewrite Ei in Hnone. congruence.
        -- left. split; [|reflexivity]. intros i Hi.
           destruct (Z.eq_dec i j) as [->|Hne]; [rewrite Ej; exact Ec|].
           apply Hnone. lia.
      * left. split; [|reflexivity]. intros i Hi.
        destruct (Z.eq_dec i j) as [->|Hne]; [rewrite Ej; reflexivity|].
        apply Hnone. lia.
    + right. destruct r as [m L]. simpl in *.
      pose proof (usable_below_inf m Hus) as Hm.
      destruct (angle_at angles j) as [y|] eqn:Ej; simpl.
      * destruct (truthy y && PrimFloat.ltb y m) eqn:Ec; simpl.
        -- apply andb_prop in Ec. destruct Ec as [Ety Elt].
           assert (Hy : PrimFloat.ltb y infinity = true).
           { apply flt_le_trans with m; [exact Elt | apply flt_leb, Hm]. }
           split; [lia|]. split; [exact Ej|].
           split; [unfold usable, below_inf; rewrite Ety, Hy; reflexivity|].
           intros i y' Hi Ei Hu.
           destruct (Z.eq_dec i j) as [->|Hne].
           ++ rewrite Ej in Ei. injection Ei as <-.
              split; [apply fleb_refl, Hy | lia].
           ++ destruct (Hmin i y' ltac:(lia) Ei Hu) as [Hle _].
              pose proof (flt_le_trans y m y' Elt Hle) as Hlt.
              split; [apply flt_leb, Hlt | intros _; exact Hlt].
        -- split; [lia|]. split; [exact Hat|]. split; [exact Hus|].
           intros i y' Hi Ei Hu.
           destruct (Z.eq_dec i j) as [->|Hne]; [|apply (Hmin i y'); [lia|done..]].
           rewrite Ej in Ei. injection Ei as <-.
           split; [|lia].
           simpl in Hu. apply andb_prop in Hu. destruct Hu as [Hty Hbi].
           rewrite Hty in Ec. simpl in Ec.
           apply fnot_ltb_leb; [exact Ec | exact Hbi | apply fleb_refl, Hm].
      * split; [lia|]. split; [exact Hat|]. split; [exact Hus|].
        intros i y' Hi Ei Hu.
        destruct (Z.eq_dec i j) as [->|Hne]; [congruence|].
        apply (Hmin i y'); [lia|done..].
Qed.

(** The search of the window [max(0, R - 60) ≤ i < R]: either nothing in the
    window can be selected and the load stays at the release position, or
    the load is the earliest least usable angle of the window. *)
Lemma scan_window (angles : list (option float)) (R : Z) :
  let lo := Z.max 0 (R - 60) in
  let r := scan angles (range lo R) (infinity, R) in
  (none_usable angles lo R ∧ r = (infinity, R))
  ∨ earliest_min angles lo R (snd r) (fst r).
Proof.
  intros lo r. unfold r, range.
  destruct (Z.le_gt_cases R lo) as [Hle|Hgt].
  - left. rewrite seqZ_nil by lia. split; [intros i Hi; lia | reflexivity].
  - pose proof (scan_seqZ_inv angles lo R (Z.to_nat (R - lo))) as Hinv.
    rewrite Z2Nat.id in Hinv by lia.
    replace (lo + (R - lo)) with R in Hinv by lia. exact Hinv.
Qed.

(** ** Histories of angles in degrees *)

Lemma angle_at_elem (angles : list (option float)) (i : Z) (a : float) :
  angle_at angles i = Some a → Some a ∈ angles.
Proof.
  unfold angle_at. destruct (i <? 0); [discriminate|].
  destruct (angles !! Z.to_nat i) as [o|] eqn:E; [|discriminate].
  cbn. intros ->. apply (list_elem_of_lookup_2 _ _ _ E).
Qed.

Lemma window_in_degrees_elem (angles : list (option float)) :
  (∀ a, Some a ∈ angles → in_degrees a = true) →
  ∀ lo hi, window_in_degrees angles lo hi.
Proof. intros Hall lo hi i a _ Ha. apply Hall, (angle_at_elem _ _ _ Ha). Qed.

Lemma history_in_degrees_window (angles : list (option float)) :
  history_in_degrees angles = true → ∀ lo hi, window_in_degrees angles lo hi.
Proof.
  unfold history_in_degrees. rewrite forallb_forall. intros Hall.
  apply window_in_degrees_elem. intros a Ha.
  apply list_elem_of_In, Hall in Ha. exact Ha.
Qed.

(** On a window of angles in degrees, what the search can select is what is
    defined. *)
Lemma in_degrees_none (angles : list (option float)) (lo hi : Z) :
  window_in_degrees angles lo hi → none_usable angles lo hi →
  none_defined angles lo hi.
Proof.
  intros Hw Hn i Hi. specialize (Hn i Hi).
  destruct (angle_at angles i) as [a|] eqn:E; [|reflexivity].
  rewrite (in_degrees_usable a (Hw i a Hi E)) in Hn. discriminate.
Qed.

Lemma in_degrees_earliest (angles : list (option float)) (lo hi load : Z)
    (m : float) :
  window_in_degrees angles lo hi → earliest_min angles lo hi load m →
  earliest_least_defined angles lo hi load m.
Proof.
  intros Hw (Hl & Ha & _ & Hmin). split; [exact Hl|]. split; [exact Ha|].
  intros i y Hi Hy. apply (Hmin i y Hi Hy).
  apply in_degrees_usable, (Hw i y Hi Hy).
Qed.

Lemma in_degrees_search (angles : list (option float)) (lo hi : Z)
    (r : float * Z) :
  window_in_degrees angles lo hi →
  (none_usable angles lo hi ∧ r = (infinity, hi))
  ∨ earliest_min angles lo hi (snd r) (fst r) →
  (none_defined angles lo hi ∧ r = (infinity, hi))
  ∨ earliest_least_defined angles lo hi (snd r) (fst r).
Proof.
  intros Hw [[Hn Hr]|Hm].
  - left. split; [apply in_degrees_none; assumption|exact Hr].
  - right. apply in_degrees_earliest; assumption.
Qed.

(** From a window whose load is at least ten positions before the release,
    which is the newest or an older position of a buffer of length [n]. *)
Lemma located_window (angles : list (option float)) (R n : Z) :
  let lo := Z.max 0 (R - 60) in
  let r := scan angles (range lo R) (infinity, R) in
  (R - snd r <? 10) = false → R ≤ n - 1 →
  lo ≤ snd r ≤ R - 10
  ∧ sample (snd r) R (R - snd r) n = Ok (sampled (snd r) R n)
  ∧ earliest_min angles lo R (snd r) (fst r).
Proof.
  intros lo r Hd Hn. apply Z.ltb_ge in Hd. subst lo r.
  destruct (scan_window angles R) as [[_ Hr] | Hmin].
  - rewrite Hr in Hd. simpl in Hd. lia.
  - pose proof Hmin as (Hb & _).
    split; [lia|]. split; [|exact Hmin].
    apply sample_sampled; lia.
Qed.

(** ** The live detector, call by call *)

Section LiveCalls.
Context `{External}.

Lemma live_trim_loop_spec fb lb ea wh last :
  length lb = length fb → length ea = length fb → length wh = length fb →
  let k := Z.to_nat (len fb - Live.max_buffer) in
  Live.trim_loop fb lb ea wh last
  = Ok (drop k fb, drop k lb, drop k ea, drop k wh, rebase k last).
Proof.
  revert lb ea wh last.
  induction fb as [|x fb IH]; intros lb ea wh last Hl He Hw k.
  - destruct lb, ea, wh; try discriminate. reflexivity.
  - destruct lb as [|? lb], ea as [|? ea], wh as [|? wh]; try discriminate.
    simpl in Hl, He, Hw. injection Hl as Hl. injection He as He. injection Hw as Hw.
    cbn [Live.trim_loop].
    destruct (Z.ltb_spec Live.max_buffer (len (x :: fb))) as [Hgt|Hle].
    + cbn [pop0 mbind result_bind]. rewrite IH by assumption.
      rewrite rebase_shift. subst k. rewrite len_cons in *.
      replace (Z.to_nat (len fb + 1 - Live.max_buffer))
        with (S (Z.to_nat (len fb - Live.max_buffer))) by lia.
      reflexivity.
    + subst k. replace (Z.to_nat (len (x :: fb) - Live.max_buffer)) with O by lia.
      reflexivity.
Qed.

Lemma live_trim_buffer_spec (st : Live.state) :
  live_wf st →
  Live._trim_buffer st
  = Ok (live_trimmed st (Z.to_nat (len (Live.frames_buffer st) - Live.max_buffer))).
Proof.
  intros (Hl & He & Hw). unfold Live._trim_buffer.
  rewrite live_trim_loop_spec by assumption. reflexivity.
Qed.

Lemma live_trimmed_wf (st : Live.state) (k : nat) :
  live_wf st → live_wf (live_trimmed st k).
Proof.
  intros (Hl & He & Hw). unfold live_wf. simpl.
  rewrite !length_drop. lia.
Qed.

Lemma live_appended_wf st frame landmarks f :
  live_wf st → live_wf (live_appended st frame landmarks f).
Proof.
  intros (Hl & He & Hw). unfold live_wf. simpl.
  rewrite !length_app. simpl. lia.
Qed.

Lemma live_ingest_spec st frame landmarks f :
  live_wf st →
  Live.ingest st frame landmarks f
  = Ok (live_trimmed (live_appended st frame landmarks f) (live_evicted st)).
Proof.
  intros Hwf. unfold Live.ingest.
  change (Live._trim_buffer (live_appended st frame landmarks f) = 
          Ok (live_trimmed (live_appended st frame landmarks f) (live_evicted st))).
  rewrite live_trim_buffer_spec by (apply live_appended_wf, Hwf).
  unfold live_evicted. simpl. rewrite len_app. reflexivity.
Qed.

Lemma live_ingest_wf st frame landmarks f st1 :
  live_wf st → Live.ingest st frame landmarks f = Ok st1 → live_wf st1.
Proof.
  intros Hwf. rewrite live_ingest_spec by assumption. intros [= <-].
  apply live_trimmed_wf, live_appended_wf, Hwf.
Qed.

(** Once every subscript has succeeded, the loop has computed [scan]. *)
Lemma live_search_scan angles rng acc r :
  (∀ i, i ∈ rng → 0 ≤ i) →
  Live.search_load angles rng acc = Ok r → r = scan angles rng acc.
Proof.
  revert acc. induction rng as [|i rng IH]; intros acc Hpos Hs.
  - simpl in Hs. injection Hs as <-. reflexivity.
  - cbn [Live.search_load] in Hs. inv_bind Hs.
    apply getitem_inv in E; [|apply Hpos; left].
    destruct E as [_ E].
    unfold scan. cbn [foldl]. rewrite (angle_at_lookup angles i v); [|apply Hpos; left|exact E].
    apply IH; [|exact Hs]. intros j Hj. apply Hpos. right. exact Hj.
Qed.

(** Inside the angle history no subscript fails. *)
Lemma live_search_Ok angles rng acc :
  (∀ i, i ∈ rng → 0 ≤ i < len angles) →
  Live.search_load angles rng acc = Ok (scan angles rng acc).
Proof.
  revert acc. induction rng as [|i rng IH]; intros acc Hin.
  - reflexivity.
  - cbn [Live.search_load].
    destruct (getitem_Ok angles i) as (x & Ex & El); [apply Hin; left|].
    rewrite Ex. cbn [mbind result_bind].
    unfold scan. cbn [foldl].
    rewrite (angle_at_lookup angles i x); [|apply (Hin i); left|exact El].
    apply IH. intros j Hj. apply Hin. right. exact Hj.
Qed.

Lemma range_window_elem (R i : Z) :
  i ∈ range (Z.max 0 (R - 60)) R → Z.max 0 (R - 60) ≤ i < R.
Proof.
  unfold range. intros Hi. apply list_elem_of_lookup in Hi.
  destruct Hi as [j Hj]. apply lookup_seqZ in Hj. lia.
Qed.

(** [locate] as a function of the angle history, when the release position
    is inside the buffers. *)
Lemma live_locate_spec (st : Live.state) (R : Z) :
  R ≤ len (Live.elbow_angles st) → R ≤ len (Live.frames_buffer st) - 1 →
  let r := scan (Live.elbow_angles st) (range (Z.max 0 (R - 60)) R) (infinity, R) in
  Live.locate st R
  = Ok (if R - snd r <? 10 then None
        else Some {| Live.loc_keys := sampled (snd r) R (len (Live.frames_buffer st));
                     Live.loc_min_angle := fst r;
                     Live.loc_duration := R - snd r |}).
Proof.
  intros Ha Hf r. unfold Live.locate.
  rewrite live_search_Ok; [|intros i Hi; apply range_window_elem in Hi; lia].
  cbn [mbind result_bind]. fold r. destruct r as [m L] eqn:Er.
  cbn [fst snd]. change Live.MIN_SHOT_FRAMES with 10.
  destruct (R - L <? 10) eqn:Hd; [reflexivity|].
  pose proof (located_window (Live.elbow_angles st) R (len (Live.frames_buffer st))) as Hw.
  cbn zeta in Hw. fold r in Hw. rewrite Er in Hw. cbn [fst snd] in Hw.
  destruct (Hw Hd Hf) as (_ & -> & _). reflexivity.
Qed.

(** What a successful [locate] at the newest position has found. *)
Lemma live_located (st : Live.state) (loc : Live.Located) :
  Live.locate st (Live.current_idx st) = Ok (Some loc) →
  let R := Live.current_idx st in
  let lo := Z.max 0 (R - 60) in
  ∃ L, loc = {| Live.loc_keys := sampled L R (len (Live.frames_buffer st));
                Live.loc_min_angle := Live.loc_min_angle loc;
                Live.loc_duration := R - L |}
       ∧ lo ≤ L ≤ R - 10
       ∧ earliest_min (Live.elbow_angles st) lo R L (Live.loc_min_angle loc).
Proof.
  intros Hloc R lo. unfold Live.locate in Hloc. fold R in Hloc.
  inv_bind Hloc. destruct v as [m L].
  apply live_search_scan in E; [|intros i Hi; apply range_window_elem in Hi; lia].
  change Live.MIN_SHOT_FRAMES with 10 in Hloc.
  destruct (R - L <? 10) eqn:Hd; [discriminate|].
  pose proof (located_window (Live.elbow_angles st) R (len (Live.frames_buffer st))) as Hw.
  cbn zeta in Hw. rewrite <- E in Hw. cbn [fst snd] in Hw.
  destruct (Hw Hd ltac:(unfold R, Live.current_idx; lia)) as (Hb & Hs & Hmin).
  rewrite Hs in Hloc. cbn [mbind result_bind] in Hloc. injection Hloc as <-.
  exists L. cbn [Live.loc_min_angle]. auto.
Qed.

(** [update] read backwards: an emitted event. *)
Lemma live_update_Some st frame landmarks visibility now st' ev :
  Live.update st frame landmarks visibility now = Ok (st', Some ev) →
  let f := extract (Live.side st) landmarks visibility in
  ∃ st1 loc,
    Live.ingest st frame landmarks f = Ok st1
    ∧ Live.stable st1 = true ∧ Live.cooled st1 = true ∧ Live.released f = true
    ∧ Live.locate st1 (Live.current_idx st1) = Ok (Some loc)
    ∧ Live.build st1 loc now = Ok ev
    ∧ st' = Live.record_shot st1 (Live.current_idx st1).
Proof.
  intros Hu f. unfold Live.update, Live.update_from in Hu. fold f in Hu.
  inv_bind Hu. rename v into st1. exists st1.
  destruct (Live.stable st1); [|discriminate].
  destruct (Live.cooled st1); [|discriminate].
  destruct (Live.released f); [|discriminate].
  cbn [negb] in Hu. inv_bind Hu. destruct v as [ev'|]; [|discriminate].
  injection Hu as <- <-.
  unfold Live._create_shot_from_release in E0. inv_bind E0.
  destruct v as [loc|]; [|discriminate]. inv_bind E0. injection E0 as ->.
  exists loc. auto 10.
Qed.

(** [update] read backwards: no event. *)
Lemma live_update_None st frame landmarks visibility now st' :
  Live.update st frame landmarks visibility now = Ok (st', None) →
  Live.ingest st frame landmarks (extract (Live.side st) landmarks visibility)
  = Ok st'.
Proof.
  intros Hu. unfold Live.update, Live.update_from in Hu. inv_bind Hu. rename v into st1.
  destruct (Live.stable st1); [|injection Hu as <-; exact E].
  destruct (Live.cooled st1); [|injection Hu as <-; exact E].
  destruct (Live.released _); [|injection Hu as <-; exact E].
  cbn [negb] in Hu. inv_bind Hu. destruct v as [ev'|]; [discriminate|].
  injection Hu as <-. exact E.
Qed.

(** After [ingest] the buffers are not empty and the newest position holds
    the measurements of the call. *)
Lemma live_ingest_newest st frame landmarks f st1 :
  live_wf st → Live.ingest st frame landmarks f = Ok st1 →
  0 ≤ Live.current_idx st1
  ∧ len (Live.frames_buffer st1) = Z.min (len (Live.frames_buffer st) + 1) Live.max_buffer
  ∧ Live.elbow_angles st1 !! Z.to_nat (Live.current_idx st1) = Some (feat_angle f)
  ∧ Live.stability_count st1
    = (if feat_stable f then Live.stability_count st + 1 else 0)
  ∧ Live.last_shot_frame st1 = rebase (live_evicted st) (Live.last_shot_frame st).
Proof.
  intros Hwf. rewrite live_ingest_spec by assumption. intros [= <-].
  destruct Hwf as (Hl & He & Hw).
  unfold Live.current_idx, live_evicted. cbn.
  rewrite len_drop, len_app. change (len [frame]) with 1.
  change Live.max_buffer with 180.
  pose proof (len_nonneg (Live.frames_buffer st)) as Hn.
  repeat split; try lia.
  rewrite lookup_drop.
  replace (_ + _)%nat with (length (Live.elbow_angles st)).
  - apply list_lookup_middle. reflexivity.
  - rewrite He. unfold len in *. lia.
Qed.

Lemma chain_bounds (k : KeyFrames) (n : Z) :
  chain k n →
  (0 ≤ stance_idx k < n) ∧ (0 ≤ load_idx k < n) ∧ (0 ≤ mid1_idx k < n)
  ∧ (0 ≤ mid2_idx k < n) ∧ (0 ≤ mid3_idx k < n) ∧ (0 ≤ mid4_idx k < n)
  ∧ (0 ≤ release_idx k < n) ∧ (0 ≤ followthrough_idx k < n).
Proof. unfold chain. lia. Qed.

(** With the eight positions inside the buffers and an angle stored at the
    release position, [build] returns an event. *)
Lemma live_build_Ok (st : Live.state) (loc : Live.Located) (now : float) (a : float) :
  live_wf st → chain (Live.loc_keys loc) (len (Live.frames_buffer st)) →
  Live.elbow_angles st !! Z.to_nat (release_idx (Live.loc_keys loc)) = Some (Some a) →
  ∃ ev, Live.build st loc now = Ok ev.
Proof.
  intros (Hl & He & Hw) Hch Ha. apply chain_bounds in Hch.
  destruct Hch as (B1 & B2 & B3 & B4 & B5 & B6 & B7 & B8).
  unfold Live.build.
  repeat match goal with
  | |- context [getitem (Live.frames_buffer st) ?i] =>
      let x := fresh "x" in let E := fresh "E" in
      destruct (getitem_Ok (Live.frames_buffer st) i) as (x & E & _); [lia|];
      rewrite E; cbn [mbind result_bind]
  end.
  assert (Hle : len (Live.elbow_angles st) = len (Live.frames_buffer st))
    by (unfold len; lia).
  assert (Hll : len (Live.landmarks_buffer st) = len (Live.frames_buffer st))
    by (unfold len; lia).
  destruct (Z.ltb_spec (release_idx (Live.loc_keys loc)) (len (Live.elbow_angles st))); [|lia].
  destruct (getitem_Ok (Live.elbow_angles st) (release_idx (Live.loc_keys loc)))
    as (ra & Era & Elk); [lia|].
  rewrite Era. cbn [mbind result_bind].
  rewrite Ha in Elk. injection Elk as <-. cbn [format_float mbind result_bind].
  repeat match goal with
  | |- context [getitem (Live.landmarks_buffer st) ?i] =>
      let x := fresh "x" in let E := fresh "E" in
      destruct (getitem_Ok (Live.landmarks_buffer st) i) as (x & E & _); [lia|];
      rewrite E; cbn [mbind result_bind]
  end.
  eauto.
Qed.

Lemma live_released_angle (f : features) :
  Live.released f = true →
  ∃ a, feat_angle f = Some a ∧ truthy a = true
       ∧ PrimFloat.ltb Live.RELEASE_ANGLE a = true ∧ feat_above f = true.
Proof.
  unfold Live.released. destruct (feat_angle f) as [a|]; simpl.
  - intros Hr. apply andb_prop in Hr. destruct Hr as [Hr Hab].
    apply andb_prop in Hr. destruct Hr as [Ht Hlt]. eauto.
  - discriminate.
Qed.

(** On buffers of one length [update] does not raise. *)
Lemma live_update_total st frame landmarks visibility now :
  live_wf st →
  ∃ st' o, Live.update st frame landmarks visibility now = Ok (st', o)
           ∧ live_wf st'.
Proof.
  intros Hwf. unfold Live.update, Live.update_from.
  set (f := extract (Live.side st) landmarks visibility).
  destruct (Live.ingest st frame landmarks f) as [st1|e] eqn:Ei;
    [|rewrite live_ingest_spec in Ei by assumption; discriminate].
  cbn [mbind result_bind].
  pose proof (live_ingest_wf _ _ _ _ _ Hwf Ei) as Hwf1.
  pose proof (live_ingest_newest _ _ _ _ _ Hwf Ei) as (Hidx & _ & Hnew & _).
  destruct (Live.stable st1); cbn [negb]; [|eauto].
  destruct (Live.cooled st1); cbn [negb]; [|eauto].
  destruct (Live.released f) eqn:Hrel; [|eauto].
  apply live_released_angle in Hrel. destruct Hrel as (a & Hfa & _).
  unfold Live._create_shot_from_release.
  assert (Hlen : len (Live.elbow_angles st1) = len (Live.frames_buffer st1))
    by (destruct Hwf1 as (_ & He & _); unfold len; lia).
  rewrite live_locate_spec by (unfold Live.current_idx in *; lia).
  cbn [mbind result_bind].
  set (R := Live.current_idx st1) in *.
  set (r := scan _ _ _).
  destruct (R - snd r <? 10) eqn:Hd; [eauto|].
  pose proof (located_window (Live.elbow_angles st1) R (len (Live.frames_buffer st1))) as Hw.
  cbn zeta in Hw. fold r in Hw.
  destruct (Hw Hd ltac:(unfold R, Live.current_idx; lia)) as (Hb & _ & _).
  edestruct (live_build_Ok st1) as [ev Hev]; [exact Hwf1| | |rewrite Hev].
  - cbn [Live.loc_keys]. apply sampled_chain; unfold R, Live.current_idx in *; lia.
  - cbn [Live.loc_keys sampled release_idx]. fold R. rewrite Hnew, Hfa. reflexivity.
  - cbn [mbind result_bind]. eexists _, _. split; [reflexivity|exact Hwf1].
Qed.

End LiveCalls.

(** ** The live detector over a stream *)

Lemma rebased_index_trim (n kept kept1 : Z) (k : nat) (a : option Z) (last : Z) :
  0 ≤ kept → kept1 = kept + 1 - Z.of_nat k → 1 ≤ kept1 →
  rebased_index n kept a last →
  rebased_index (n + 1) kept1 a (rebase k last).
Proof.
  intros Hk -> H1. unfold rebased_index. rewrite rebase_spec.
  destruct a as [a|].
  - intros [Ha ->]. split; [lia|].
    destruct (Z.ltb_spec 0 (Z.max 0 (a - (n - kept)))); lia.
  - intros ->. reflexivity.
Qed.

Section LiveRuns.
Context `{External}.

Lemma live_inv_init (sd : string) : live_inv 0 None (Live.init sd).
Proof. unfold live_inv, live_wf, rebased_index. simpl. repeat split; reflexivity. Qed.

(** The invariant across [ingest]. *)
Lemma live_inv_ingest n a st frame landmarks f st1 :
  live_inv n a st → Live.ingest st frame landmarks f = Ok st1 →
  live_inv (n + 1) a st1.
Proof.
  intros (Hwf & Hn & Hlen & Hidx) Hi.
  pose proof (live_ingest_wf _ _ _ _ _ Hwf Hi) as Hwf1.
  pose proof (live_ingest_newest _ _ _ _ _ Hwf Hi) as (Hcur & Hlen1 & _ & _ & Hlast).
  unfold live_inv. split; [exact Hwf1|]. split; [lia|].
  change Live.max_buffer with 180 in *. split; [lia|].
  rewrite Hlast.
  apply (rebased_index_trim n (len (Live.frames_buffer st))
           (len (Live.frames_buffer st1)) (live_evicted st));
    [apply len_nonneg| |unfold Live.current_idx in Hcur; lia|exact Hidx].
  pose proof (len_nonneg (Live.frames_buffer st)).
  unfold live_evicted. change Live.max_buffer with 180. lia.
Qed.

(** The invariant across one call. *)
Lemma live_inv_update n a st frame landmarks visibility now st' o :
  live_inv n a st →
  Live.update st frame landmarks visibility now = Ok (st', o) →
  live_inv (n + 1) (match o with Some _ => Some n | None => a end) st'.
Proof.
  intros Hinv Hu. destruct o as [ev|].
  - apply live_update_Some in Hu.
    destruct Hu as (st1 & loc & Hi & _ & _ & _ & _ & _ & ->).
    pose proof (live_inv_ingest _ _ _ _ _ _ _ Hinv Hi) as (Hwf1 & Hn & Hlen & _).
    destruct Hinv as (Hwf & _).
    pose proof (live_ingest_newest _ _ _ _ _ Hwf Hi) as (Hcur & _).
    unfold live_inv, live_wf, rebased_index, Live.current_idx in *. simpl.
    change Live.max_buffer with 180 in *.
    repeat split; try tauto; lia.
  - apply live_update_None in Hu.
    eapply live_inv_ingest; eassumption.
Qed.

(** From the invariant a run does not raise and keeps the invariant. *)
Lemma live_run_inv inputs : ∀ n a st,
  live_inv n a st →
  ∃ st' evs, Live.run st inputs = Ok (st', evs)
    ∧ live_inv (n + len inputs) (last_accepted_from n evs a) st'.
Proof.
  induction inputs as [|i inputs IH]; intros n a st Hinv.
  - exists st, []. split; [reflexivity|].
    change (len []) with 0. rewrite Z.add_0_r. exact Hinv.
  - destruct Hinv as (Hwf & Hrest).
    destruct (live_update_total st (Live.in_frame i) (Live.in_landmarks i)
                (Live.in_visibility i) (Live.in_now i) Hwf) as (st1 & o & Hu & _).
    pose proof (live_inv_update n a st _ _ _ _ _ _ (conj Hwf Hrest) Hu) as Hinv1.
    destruct (IH _ _ _ Hinv1) as (st' & evs & Hr & Hinv').
    exists st', (o :: evs). cbn [Live.run]. unfold Live.step. rewrite Hu.
    cbn [mbind result_bind]. rewrite Hr. cbn [mbind result_bind].
    split; [reflexivity|]. rewrite len_cons.
    replace (n + (len inputs + 1)) with (n + 1 + len inputs) by lia.
    exact Hinv'.
Qed.

(** With the stored index re-based, the cooldown test of the next call is
    the test on the distance in the stream. *)
Lemma live_cooled_true_distance n a st frame landmarks f st1 :
  live_inv n (Some a) st → Live.ingest st frame landmarks f = Ok st1 →
  Live.cooled st1 = negb (n - a <? Live.COOLDOWN_FRAMES).
Proof.
  intros Hinv Hi.
  pose proof (live_inv_ingest _ _ _ _ _ _ _ Hinv Hi) as (_ & Hn & Hlen & Ha & Hlast).
  unfold Live.cooled, Live.current_idx. rewrite Hlast.
  change Live.COOLDOWN_FRAMES with 45. change Live.max_buffer with 180 in *.
  f_equal.
  destruct (Z.ltb_spec (n - a) 45), (Z.ltb_spec (len (Live.frames_buffer st1) - 1
     - Z.max 0 (a - (n + 1 - len (Live.frames_buffer st1)))) 45); try reflexivity; lia.
Qed.

End LiveRuns.

(** ** The debugger, call by call *)

Section DebugCalls.
Context `{External}.

Lemma debug_trim_loop_spec fb mb last :
  length mb = length fb →
  let k := Z.to_nat (len fb - Debug.max_buffer) in
  Debug.trim_loop fb mb last = Ok (drop k fb, drop k mb, rebase k last).
Proof.
  revert mb last.
  induction fb as [|x fb IH]; intros mb last Hm k.
  - destruct mb; try discriminate. reflexivity.
  - destruct mb as [|? mb]; try discriminate.
    simpl in Hm. injection Hm as Hm.
    cbn [Debug.trim_loop].
    destruct (Z.ltb_spec Debug.max_buffer (len (x :: fb))) as [Hgt|Hle].
    + cbn [pop0 mbind result_bind]. rewrite IH by assumption.
      rewrite rebase_shift. subst k. rewrite len_cons in *.
      replace (Z.to_nat (len fb + 1 - Debug.max_buffer))
        with (S (Z.to_nat (len fb - Debug.max_buffer))) by lia.
      reflexivity.
    + subst k. replace (Z.to_nat (len (x :: fb) - Debug.max_buffer)) with O by lia.
      reflexivity.
Qed.

Lemma debug_trim_buffer_spec (st : Debug.state) :
  debug_wf st →
  Debug._trim_buffer st
  = Ok (debug_trimmed st (Z.to_nat (len (Debug.frames_buffer st) - Debug.max_buffer))).
Proof.
  intros Hm. unfold Debug._trim_buffer.
  rewrite debug_trim_loop_spec by assumption. reflexivity.
Qed.

Lemma debug_trimmed_wf (st : Debug.state) (k : nat) :
  debug_wf st → debug_wf (debug_trimmed st k).
Proof. unfold debug_wf. simpl. rewrite !length_drop. lia. Qed.

Lemma debug_appended_wf st frame landmarks f frame_num timestamp_ms :
  debug_wf st → debug_wf (debug_appended st frame landmarks f frame_num timestamp_ms).
Proof. unfold debug_wf. simpl. rewrite !length_app. simpl. lia. Qed.

Lemma debug_ingest_spec st frame landmarks f frame_num timestamp_ms :
  debug_wf st →
  Debug.ingest st frame landmarks f frame_num timestamp_ms
  = Ok (debug_trimmed (debug_appended st frame landmarks f frame_num timestamp_ms)
          (debug_evicted st)).
Proof.
  intros Hwf. unfold Debug.ingest.
  change (Debug._trim_buffer (debug_appended st frame landmarks f frame_num timestamp_ms)
          = Ok (debug_trimmed (debug_appended st frame landmarks f frame_num timestamp_ms)
                  (debug_evicted st))).
  rewrite debug_trim_buffer_spec by (apply debug_appended_wf, Hwf).
  unfold debug_evicted. simpl. rewrite len_app. reflexivity.
Qed.

Lemma debug_ingest_wf st frame landmarks f frame_num timestamp_ms st1 :
  debug_wf st →
  Debug.ingest st frame landmarks f frame_num timestamp_ms = Ok st1 →
  debug_wf st1.
Proof.
  intros Hwf. rewrite debug_ingest_spec by assumption. intros [= <-].
  apply debug_trimmed_wf, debug_appended_wf, Hwf.
Qed.

Lemma debug_ingest_newest st frame landmarks f frame_num timestamp_ms st1 :
  debug_wf st →
  Debug.ingest st frame landmarks f frame_num timestamp_ms = Ok st1 →
  0 ≤ Debug.current_idx st1
  ∧ len (Debug.frames_buffer st1)
    = Z.min (len (Debug.frames_buffer st) + 1) Debug.max_buffer
  ∧ Debug.metrics_buffer st1 !! Z.to_nat (Debug.current_idx st1)
    = Some (Debug.metrics_of (Debug.side st) landmarks f frame_num timestamp_ms)
  ∧ Debug.stability_count st1
    = (if feat_stable f then Debug.stability_count st + 1 else 0)
  ∧ Debug.last_shot_frame st1 = rebase (debug_evicted st) (Debug.last_shot_frame st)
  ∧ Debug.shots st1 = Debug.shots st ∧ Debug.shot_count st1 = Debug.shot_count st.
Proof.
  intros Hwf. rewrite debug_ingest_spec by assumption. intros [= <-].
  unfold debug_wf in Hwf.
  unfold Debug.current_idx, debug_evicted. cbn.
  rewrite len_drop, len_app. change (len [frame]) with 1.
  change Debug.max_buffer with 200.
  pose proof (len_nonneg (Debug.frames_buffer st)) as Hn.
  repeat split; try lia.
  rewrite lookup_drop.
  replace (_ + _)%nat with (length (Debug.metrics_buffer st)).
  - apply list_lookup_middle. reflexivity.
  - rewrite Hwf. unfold len in *. lia.
Qed.

(** The guarded loop of the debugger never raises and computes [scan] on the
    angles of the metrics. *)
Lemma debug_search_scan metrics rng acc :
  (∀ i, i ∈ rng → 0 ≤ i) →
  Debug.search_load metrics rng acc
  = Ok (scan (Debug.elbow_angle <$> metrics) rng acc).
Proof.
  revert acc. induction rng as [|i rng IH]; intros acc Hpos.
  - reflexivity.
  - cbn [Debug.search_load]. unfold scan. cbn [foldl].
    assert (Hi : 0 ≤ i) by (apply Hpos; left).
    assert (Hrest : ∀ j, j ∈ rng → 0 ≤ j) by (intros j Hj; apply Hpos; right; exact Hj).
    destruct (Z.ltb_spec i (len metrics)) as [Hlt|Hge].
    + destruct (getitem_Ok metrics i) as (m & Em & El); [lia|].
      rewrite Em. cbn [mbind result_bind].
      rewrite (angle_at_lookup _ i (Debug.elbow_angle m));
        [|lia|rewrite list_lookup_fmap, El; reflexivity].
      apply IH, Hrest.
    + rewrite angle_at_outside; [|unfold len in *; rewrite length_fmap; lia].
      cbn [scan_step]. apply IH, Hrest.
Qed.

Lemma debug_count_restored (st : Debug.state) :
  Debug.set_shot_count (Debug.set_shot_count st (Debug.shot_count st + 1))
    (Debug.shot_count (Debug.set_shot_count st (Debug.shot_count st + 1)) - 1)
  = st.
Proof. destruct st. unfold Debug.set_shot_count. simpl. f_equal. lia. Qed.

(** [_create_shot] as a function of the angle history, when the release
    position is inside the frame buffer. *)
Lemma debug_create_shot_spec (st : Debug.state) (R : Z) (ra : float) :
  R ≤ len (Debug.frames_buffer st) - 1 →
  let r := scan (debug_angles st) (range (Z.max 0 (R - 60)) R) (infinity, R) in
  Debug._create_shot st R ra
  = Ok (if R - snd r <? 10 then (st, None)
        else let shot := debug_shot st (snd r) R (fst r) ra in
             (Debug.append_shot
                (Debug.set_shot_count st (Debug.shot_count st + 1)) shot,
              Some shot)).
Proof.
  intros Hf r. unfold Debug._create_shot. cbn zeta.
  change (Debug.metrics_buffer (Debug.set_shot_count st _)) with (Debug.metrics_buffer st).
  change (Debug.frames_buffer (Debug.set_shot_count st _)) with (Debug.frames_buffer st).
  rewrite debug_search_scan; [|intros i Hi; apply range_window_elem in Hi; lia].
  cbn [mbind result_bind]. fold (debug_angles st). fold r.
  destruct r as [m L] eqn:Er. cbn [fst snd].
  change Debug.MIN_SHOT_FRAMES with 10.
  destruct (R - L <? 10) eqn:Hd.
  - rewrite debug_count_restored. reflexivity.
  - pose proof (located_window (debug_angles st) R (len (Debug.frames_buffer st))) as Hw.
    cbn zeta in Hw. fold r in Hw. rewrite Er in Hw. cbn [fst snd] in Hw.
    destruct (Hw Hd Hf) as (_ & -> & _). reflexivity.
Qed.

Lemma debug_released_angle (f : features) :
  Debug.released f = true →
  ∃ a, feat_angle f = Some a ∧ truthy a = true
       ∧ PrimFloat.ltb Debug.RELEASE_ANGLE a = true ∧ feat_above f = true.
Proof.
  unfold Debug.released. destruct (feat_angle f) as [a|]; simpl.
  - intros Hr. apply andb_prop in Hr. destruct Hr as [Hr Hab].
    apply andb_prop in Hr. destruct Hr as [Ht Hlt]. eauto.
  - discriminate.
Qed.

(** [process_frame] as a function of the state [ingest] leaves. *)
Lemma debug_process_spec st frame landmarks visibility frame_num timestamp_ms st1 :
  let f := extract (Debug.side st) landmarks visibility in
  Debug.ingest st frame landmarks f frame_num timestamp_ms = Ok st1 →
  let R := Debug.current_idx st1 in
  let r := scan (debug_angles st1) (range (Z.max 0 (R - 60)) R) (infinity, R) in
  Debug.process_frame st frame landmarks visibility frame_num timestamp_ms
  = Ok (if Debug.stable st1 && Debug.cooled st1 && Debug.released f
           && negb (R - snd r <? 10)
        then let shot := debug_shot st1 (snd r) R (fst r)
                           (default 0%float (feat_angle f)) in
             (Debug.record_shot
                (Debug.append_shot
                   (Debug.set_shot_count st1 (Debug.shot_count st1 + 1)) shot) R,
              Some shot)
        else (st1, None)).
Proof.
  intros f Hi R r. unfold Debug.process_frame, Debug.process_from. fold f. rewrite Hi.
  cbn [mbind result_bind].
  destruct (Debug.stable st1); cbn [negb andb]; [|reflexivity].
  destruct (Debug.cooled st1); cbn [negb andb]; [|reflexivity].
  destruct (Debug.released f) eqn:Hrel; cbn [andb]; [|reflexivity].
  destruct (debug_released_angle f Hrel) as (a & Hfa & _).
  rewrite Hfa. cbn [format_float mbind result_bind default].
  rewrite debug_create_shot_spec by (unfold Debug.current_idx; lia).
  cbn [mbind result_bind]. fold R. fold r.
  destruct (R - snd r <? 10); reflexivity.
Qed.

(** On buffers of one length [process_frame] does not raise. *)
Lemma debug_process_total st frame landmarks visibility frame_num timestamp_ms :
  debug_wf st →
  ∃ st' o,
    Debug.process_frame st frame landmarks visibility frame_num timestamp_ms
    = Ok (st', o) ∧ debug_wf st'.
Proof.
  intros Hwf.
  set (f := extract (Debug.side st) landmarks visibility).
  destruct (Debug.ingest st frame landmarks f frame_num timestamp_ms) as [st1|e] eqn:Ei;
    [|rewrite debug_ingest_spec in Ei by assumption; discriminate].
  pose proof (debug_ingest_wf _ _ _ _ _ _ _ Hwf Ei) as Hwf1.
  rewrite (debug_process_spec _ _ _ _ _ _ st1 Ei).
  destruct (_ && _ && _ && _); eexists _, _; (split; [reflexivity|exact Hwf1]).
Qed.

(** [process_frame] read backwards: an emitted shot. *)
Lemma debug_process_Some st frame landmarks visibility frame_num timestamp_ms st' shot :
  Debug.process_frame st frame landmarks visibility frame_num timestamp_ms
  = Ok (st', Some shot) →
  let f := extract (Debug.side st) landmarks visibility in
  ∃ st1,
    Debug.ingest st frame landmarks f frame_num timestamp_ms = Ok st1
    ∧ Debug.stable st1 = true ∧ Debug.cooled st1 = true ∧ Debug.released f = true
    ∧ let R := Debug.current_idx st1 in
      let r := scan (debug_angles st1) (range (Z.max 0 (R - 60)) R) (infinity, R) in
      (R - snd r <? 10) = false
      ∧ shot = debug_shot st1 (snd r) R (fst r) (default 0%float (feat_angle f))
      ∧ st' = Debug.record_shot
                (Debug.append_shot
                   (Debug.set_shot_count st1 (Debug.shot_count st1 + 1)) shot) R.
Proof.
  intros Hp f.
  destruct (Debug.ingest st frame landmarks f frame_num timestamp_ms) as [st1|e] eqn:Ei;
    [|unfold Debug.process_frame, Debug.process_from in Hp; fold f in Hp; rewrite Ei in Hp; discriminate].
  rewrite (debug_process_spec _ _ _ _ _ _ st1 Ei) in Hp. fold f in Hp.
  exists st1. split; [reflexivity|]. cbn zeta in *.
  destruct (Debug.stable st1); [|discriminate].
  destruct (Debug.cooled st1); [|discriminate].
  destruct (Debug.released f); [|discriminate].
  cbn [andb] in Hp.
  destruct (_ <? 10); [discriminate|]. cbn [negb] in Hp.
  injection Hp as <- <-. repeat split; reflexivity.
Qed.

(** [process_frame] read backwards: no shot. *)
Lemma debug_process_None st frame landmarks visibility frame_num timestamp_ms st' :
  Debug.process_frame st frame landmarks visibility frame_num timestamp_ms
  = Ok (st', None) →
  Debug.ingest st frame landmarks (extract (Debug.side st) landmarks visibility)
    frame_num timestamp_ms = Ok st'.
Proof.
  intros Hp.
  set (f := extract (Debug.side st) landmarks visibility) in *.
  destruct (Debug.ingest st frame landmarks f frame_num timestamp_ms) as [st1|e] eqn:Ei;
    [|unfold Debug.process_frame, Debug.process_from in Hp; fold f in Hp; rewrite Ei in Hp; discriminate].
  rewrite (debug_process_spec _ _ _ _ _ _ st1 Ei) in Hp. fold f in Hp.
  destruct (_ && _ && _ && _); [discriminate|].
  injection Hp as <-. reflexivity.
Qed.

End DebugCalls.

(** ** The debugger over a stream *)

Section DebugRuns.
Context `{External}.

Lemma debug_inv_init (sd : string) : debug_inv 0 None (Debug.init sd).
Proof. unfold debug_inv, debug_wf, rebased_index. simpl. repeat split; reflexivity. Qed.

Lemma debug_inv_ingest n a st frame landmarks f frame_num timestamp_ms st1 :
  debug_inv n a st →
  Debug.ingest st frame landmarks f frame_num timestamp_ms = Ok st1 →
  debug_inv (n + 1) a st1.
Proof.
  intros (Hwf & Hn & Hlen & Hidx) Hi.
  pose proof (debug_ingest_wf _ _ _ _ _ _ _ Hwf Hi) as Hwf1.
  pose proof (debug_ingest_newest _ _ _ _ _ _ _ Hwf Hi)
    as (Hcur & Hlen1 & _ & _ & Hlast & _).
  unfold debug_inv. split; [exact Hwf1|]. split; [lia|].
  change Debug.max_buffer with 200 in *. split; [lia|].
  rewrite Hlast.
  apply (rebased_index_trim n (len (Debug.frames_buffer st))
           (len (Debug.frames_buffer st1)) (debug_evicted st));
    [apply len_nonneg| |unfold Debug.current_idx in Hcur; lia|exact Hidx].
  pose proof (len_nonneg (Debug.frames_buffer st)).
  unfold debug_evicted. change Debug.max_buffer with 200. lia.
Qed.

Lemma debug_inv_process n a st frame landmarks visibility frame_num timestamp_ms st' o :
  debug_inv n a st →
  Debug.process_frame st frame landmarks visibility frame_num timestamp_ms
  = Ok (st', o) →
  debug_inv (n + 1) (match o with Some _ => Some n | None => a end) st'.
Proof.
  intros Hinv Hp. pose proof Hinv as (Hwf & _). destruct o as [shot|].
  - apply debug_process_Some in Hp.
    destruct Hp as (st1 & Hi & _ & _ & _ & _ & _ & ->).
    pose proof (debug_inv_ingest _ _ _ _ _ _ _ _ _ Hinv Hi) as (Hwf1 & Hn & Hlen & _).
    pose proof (debug_ingest_newest _ _ _ _ _ _ _ Hwf Hi) as (Hcur & _).
    unfold debug_inv, debug_wf, rebased_index, Debug.current_idx in *. simpl.
    change Debug.max_buffer with 200 in *.
    repeat split; try tauto; lia.
  - apply debug_process_None in Hp.
    eapply debug_inv_ingest; eassumption.
Qed.

Lemma debug_run_inv inputs : ∀ n a st,
  debug_inv n a st →
  ∃ st' evs, Debug.run st inputs = Ok (st', evs)
    ∧ debug_inv (n + len inputs) (last_accepted_from n evs a) st'.
Proof.
  induction inputs as [|i inputs IH]; intros n a st Hinv.
  - exists st, []. split; [reflexivity|].
    change (len []) with 0. rewrite Z.add_0_r. exact Hinv.
  - destruct Hinv as (Hwf & Hrest).
    destruct (debug_process_total st (Debug.in_frame i) (Debug.in_landmarks i)
                (Debug.in_visibility i) (Debug.in_frame_num i)
                (Debug.in_timestamp_ms i) Hwf) as (st1 & o & Hu & _).
    pose proof (debug_inv_process n a st _ _ _ _ _ _ _ (conj Hwf Hrest) Hu) as Hinv1.
    destruct (IH _ _ _ Hinv1) as (st' & evs & Hr & Hinv').
    exists st', (o :: evs). cbn [Debug.run]. unfold Debug.step. rewrite Hu.
    cbn [mbind result_bind]. rewrite Hr. cbn [mbind result_bind].
    split; [reflexivity|]. rewrite len_cons.
    replace (n + (len inputs + 1)) with (n + 1 + len inputs) by lia.
    exact Hinv'.
Qed.

Lemma debug_cooled_true_distance n a st frame landmarks f frame_num timestamp_ms st1 :
  debug_inv n (Some a) st →
  Debug.ingest st frame landmarks f frame_num timestamp_ms = Ok st1 →
  Debug.cooled st1 = negb (n - a <? Debug.COOLDOWN_FRAMES).
Proof.
  intros Hinv Hi.
  pose proof (debug_inv_ingest _ _ _ _ _ _ _ _ _ Hinv Hi) as (_ & Hn & Hlen & Ha & Hlast).
  unfold Debug.cooled, Debug.current_idx. rewrite Hlast.
  change Debug.COOLDOWN_FRAMES with 45. change Debug.max_buffer with 200 in *.
  f_equal.
  destruct (Z.ltb_spec (n - a) 45), (Z.ltb_spec (len (Debug.frames_buffer st1) - 1
     - Z.max 0 (a - (n + 1 - len (Debug.frames_buffer st1)))) 45); try reflexivity; lia.
Qed.

End DebugRuns.

(** ** Emitted events *)

Section Emitted.
Context `{External}.

Lemma live_locate_record_shot (st : Live.state) (idx R : Z) :
  Live.locate (Live.record_shot st idx) R = Live.locate st R.
Proof. reflexivity. Qed.

Lemma live_build_record_shot (st : Live.state) (idx : Z) loc now :
  Live.build (Live.record_shot st idx) loc now = Live.build st loc now.
Proof. reflexivity. Qed.

(** What stands behind an event of the live detector, in the state the call
    leaves: the release is the newest position [R], the load [L] is the
    earliest least usable angle of the window and at least ten positions
    before [R], and the eight positions are the sampled ones. *)
Lemma live_emitted st frame landmarks visibility now st' ev :
  Live.update st frame landmarks visibility now = Ok (st', Some ev) →
  let R := Live.current_idx st' in
  let lo := Z.max 0 (R - 60) in
  ∃ loc L,
    Live.locate st' R = Ok (Some loc)
    ∧ Live.build st' loc now = Ok ev
    ∧ Live.loc_keys loc = sampled L R (len (Live.frames_buffer st'))
    ∧ Live.loc_duration loc = R - L
    ∧ lo ≤ L ≤ R - 10
    ∧ earliest_min (Live.elbow_angles st') lo R L (Live.loc_min_angle loc)
    ∧ Live.last_shot_frame st' = R.
Proof.
  intros Hu R lo. apply live_update_Some in Hu.
  destruct Hu as (st1 & loc & Hi & _ & _ & _ & Hloc & Hb & ->).
  destruct (live_located st1 loc Hloc) as (L & Heq & Hbd & Hmin).
  exists loc, L. subst R lo.
  change (Live.current_idx (Live.record_shot st1 _)) with (Live.current_idx st1).
  rewrite live_locate_record_shot, live_build_record_shot.
  cbn [Live.record_shot Live.frames_buffer Live.elbow_angles Live.last_shot_frame].
  rewrite Heq at 3 4. cbn [Live.loc_keys Live.loc_duration].
  auto 10.
Qed.

(** The same for a shot of the debugger. *)
Lemma debug_emitted st frame landmarks visibility frame_num timestamp_ms st' shot :
  Debug.process_frame st frame landmarks visibility frame_num timestamp_ms
  = Ok (st', Some shot) →
  let R := Debug.current_idx st' in
  let lo := Z.max 0 (R - 60) in
  ∃ L,
    Debug.keys shot = sampled L R (len (Debug.frames_buffer st'))
    ∧ lo ≤ L ≤ R - 10
    ∧ earliest_min (debug_angles st') lo R L (Debug.load_angle shot)
    ∧ Debug.frame_metrics shot
      = slice (Debug.metrics_buffer st') (Debug.frame_start shot) (Debug.frame_end shot)
    ∧ Debug.frame_start shot = Z.max 0 (stance_idx (Debug.keys shot) - 10)
    ∧ Debug.frame_end shot
      = Z.min (len (Debug.metrics_buffer st')) (followthrough_idx (Debug.keys shot) + 10)
    ∧ Debug.last_shot_frame st' = R.
Proof.
  intros Hp R lo. apply debug_process_Some in Hp.
  destruct Hp as (st1 & Hi & _ & _ & _ & Hd & -> & ->). cbn zeta in Hd.
  subst R lo.
  change (Debug.current_idx (Debug.record_shot _ _)) with (Debug.current_idx st1).
  set (R := Debug.current_idx st1) in *.
  pose proof (located_window (debug_angles st1) R (len (Debug.frames_buffer st1))) as Hw.
  cbn zeta in Hw.
  destruct (Hw Hd ltac:(unfold R, Debug.current_idx; lia)) as (Hb & _ & Hmin).
  eexists. split; [reflexivity|]. split; [exact Hb|]. split; [exact Hmin|].
  repeat split; reflexivity.
Qed.

End Emitted.

(** ** The clock and the measurements *)

Section Clock.
Context `{External}.

(** The clock reading enters [build] in the time stamp only. *)
Lemma live_build_clock (st : Live.state) (loc : Live.Located) (now : float) :
  Live.build st loc now
  = ev ← Live.build st loc 0%float; Ok (set_timestamp ev now).
Proof.
  unfold Live.build.
  repeat match goal with
  | |- context [getitem (Live.frames_buffer st) ?i] =>
      destruct (getitem (Live.frames_buffer st) i);
      cbn [mbind result_bind]; [|reflexivity]
  end.
  destruct (_ <? _).
  - destruct (getitem (Live.elbow_angles st) _) as [[ra|]|];
      cbn [mbind result_bind format_float]; try reflexivity.
    repeat match goal with
    | |- context [getitem (Live.landmarks_buffer st) ?i] =>
        destruct (getitem (Live.landmarks_buffer st) i);
        cbn [mbind result_bind]; [|reflexivity]
    end.
    reflexivity.
  - cbn [mbind result_bind format_float].
    repeat match goal with
    | |- context [getitem (Live.landmarks_buffer st) ?i] =>
        destruct (getitem (Live.landmarks_buffer st) i);
        cbn [mbind result_bind]; [|reflexivity]
    end.
    reflexivity.
Qed.

Lemma live_update_from_clock st frame landmarks f now1 now2 :
  same_untimed (Live.update_from st frame landmarks f now1)
               (Live.update_from st frame landmarks f now2).
Proof.
  unfold Live.update_from.
  destruct (Live.ingest st frame landmarks f) as [st1|e];
    cbn [mbind result_bind]; [|reflexivity].
  destruct (Live.stable st1); cbn [negb]; [|split; reflexivity].
  destruct (Live.cooled st1); cbn [negb]; [|split; reflexivity].
  destruct (Live.released f); [|split; reflexivity].
  unfold Live._create_shot_from_release.
  destruct (Live.locate st1 (Live.current_idx st1)) as [[loc|]|e];
    cbn [mbind result_bind]; [|split; reflexivity|reflexivity].
  rewrite (live_build_clock st1 loc now1), (live_build_clock st1 loc now2).
  destruct (Live.build st1 loc 0%float) as [ev|e];
    cbn [mbind result_bind same_untimed]; [|reflexivity].
  split; reflexivity.
Qed.

Lemma live_update_from_side st frame landmarks f now st' o :
  Live.update_from st frame landmarks f now = Ok (st', o) →
  Live.side st' = Live.side st.
Proof.
  unfold Live.update_from. intros Hu. inv_bind Hu. rename v into st1.
  assert (Hs : Live.side st1 = Live.side st).
  { unfold Live.ingest, Live._trim_buffer in E. inv_bind E.
    destruct v as [[[[fb lb] ea] wh] last]. injection E as <-. reflexivity. }
  destruct (Live.stable st1); cbn [negb] in Hu; [|injection Hu as <- _; exact Hs].
  destruct (Live.cooled st1); cbn [negb] in Hu; [|injection Hu as <- _; exact Hs].
  destruct (Live.released f); [|injection Hu as <- _; exact Hs].
  inv_bind Hu. destruct v as [ev|]; injection Hu as <- _; exact Hs.
Qed.

(** [Live.run] takes the measurements of every call on the side of the
    state it starts from. *)
Lemma live_run_measured (inputs : list Live.input) : ∀ st,
  Live.run st inputs
  = live_run_from st (zip inputs (live_measure (Live.side st) <$> inputs)).
Proof.
  induction inputs as [|i inputs IH]; intros st; [reflexivity|].
  cbn [Live.run fmap list_fmap zip zip_with live_run_from].
  unfold Live.step, Live.update. fold (live_measure (Live.side st) i).
  destruct (Live.update_from st _ _ _ _) as [[st1 o]|e] eqn:Eu;
    cbn [mbind result_bind]; [|reflexivity].
  rewrite IH, (live_update_from_side _ _ _ _ _ _ _ Eu). reflexivity.
Qed.

Lemma live_run_from_untimed l1 l2 : ∀ st,
  Forall2 same_frames l1 l2 →
  same_untimed_run (live_run_from st l1) (live_run_from st l2).
Proof.
  intros st Hall. revert st.
  induction Hall as [|[i1 f1] [i2 f2] l1 l2 (Hf & Hl & Hm) _ IH]; intros st.
  - split; reflexivity.
  - cbn [fst snd] in Hf, Hl, Hm. subst f2.
    cbn [live_run_from]. rewrite Hf, Hl.
    pose proof (live_update_from_clock st (Live.in_frame i2) (Live.in_landmarks i2)
                  f1 (Live.in_now i1) (Live.in_now i2)) as Hc.
    destruct (Live.update_from st _ _ f1 (Live.in_now i1)) as [[s1 o1]|e1],
             (Live.update_from st _ _ f1 (Live.in_now i2)) as [[s2 o2]|e2];
      cbn [same_untimed] in Hc; try contradiction; cbn [mbind result_bind].
    + destruct Hc as [-> Ho]. specialize (IH s2).
      destruct (live_run_from s2 l1) as [[t1 e1]|e1],
               (live_run_from s2 l2) as [[t2 e2]|e2];
        cbn [same_untimed_run] in IH; try contradiction;
        cbn [mbind result_bind same_untimed_run].
      * destruct IH as [-> He]. split; [reflexivity|].
        unfold untimed_events in *. cbn [fmap list_fmap]. rewrite Ho. f_equal. exact He.
      * exact IH.
    + exact Hc.
Qed.

Lemma untimed_angles ev1 ev2 :
  untimed ev1 = untimed ev2 →
  Live.elbow_angle_load ev1 = Live.elbow_angle_load ev2
  ∧ Live.elbow_angle_release ev1 = Live.elbow_angle_release ev2.
Proof.
  intros Hu. split.
  - apply (f_equal Live.elbow_angle_load) in Hu. exact Hu.
  - apply (f_equal Live.elbow_angle_release) in Hu. exact Hu.
Qed.

Lemma live_detections_from_untimed l1 l2 : ∀ n st,
  Forall2 same_frames l1 l2 →
  live_detections_from n st l1 = live_detections_from n st l2.
Proof.
  intros n st Hall. revert n st.
  induction Hall as [|[i1 f1] [i2 f2] l1 l2 (Hf & Hl & Hm) _ IH]; intros n st.
  - reflexivity.
  - cbn [fst snd] in Hf, Hl, Hm. subst f2.
    cbn [live_detections_from]. rewrite Hf, Hl.
    pose proof (live_update_from_clock st (Live.in_frame i2) (Live.in_landmarks i2)
                  f1 (Live.in_now i1) (Live.in_now i2)) as Hc.
    destruct (Live.update_from st _ _ f1 (Live.in_now i1)) as [[s1 o1]|e1],
             (Live.update_from st _ _ f1 (Live.in_now i2)) as [[s2 o2]|e2];
      cbn [same_untimed] in Hc; try contradiction; [|reflexivity].
    destruct Hc as [-> Ho].
    destruct o1 as [ev1|], o2 as [ev2|]; try discriminate.
    + change (Some (untimed ev1) = Some (untimed ev2)) in Ho.
      assert (Hu : untimed ev1 = untimed ev2) by congruence.
      apply untimed_angles in Hu. destruct Hu as [Ha Hr].
      unfold live_detection. rewrite Ha, Hr, IH. reflexivity.
    + apply IH.
Qed.

Lemma retimed_same_frames (sd : string) (inputs : list Live.input) : ∀ c1 c2,
  Forall2 same_frames
    (zip (retimed c1 inputs) (live_measure sd <$> retimed c1 inputs))
    (zip (retimed c2 inputs) (live_measure sd <$> retimed c2 inputs)).
Proof.
  induction inputs as [|i inputs IH]; intros c1 c2; [constructor|].
  constructor.
  - repeat split; reflexivity.
  - apply (IH (c1 ∘ S) (c2 ∘ S)).
Qed.

End Clock.

(** * More properties *)

(** ** The newest entries of a history *)

Lemma newest_all {A} (cap : Z) (l : list A) : len l ≤ cap → newest cap l = l.
Proof.
  intros Hl. unfold newest, len in *.
  replace (length l - Z.to_nat cap)%nat with O by lia. reflexivity.
Qed.

Lemma len_newest {A} (cap : Z) (l : list A) :
  0 ≤ cap → len (newest cap l) = Z.min (len l) cap.
Proof. intros Hc. unfold newest, len. rewrite length_drop. lia. Qed.

Lemma newest_fmap {A B} (f : A → B) (cap : Z) (l : list A) :
  newest cap (f <$> l) = f <$> newest cap l.
Proof. unfold newest. rewrite length_fmap, fmap_drop. reflexivity. Qed.

(** Appending to the newest entries and evicting down to the capacity gives
    the newest entries of the longer history. *)
Lemma newest_snoc {A} (cap : Z) (l : list A) (x : A) (k : nat) :
  0 < cap → k = Z.to_nat (len (newest cap l) + 1 - cap) →
  drop k (newest cap l ++ [x]) = newest cap (l ++ [x]).
Proof.
  intros Hc ->. rewrite len_newest by lia. unfold newest, len.
  rewrite length_app. cbn [length].
  destruct (Z.le_gt_cases cap (Z.of_nat (length l))) as [Hge|Hlt].
  - replace (Z.to_nat (Z.min (Z.of_nat (length l)) cap + 1 - cap)) with 1%nat by lia.
    replace (length l + 1 - Z.to_nat cap)%nat
      with (length l - Z.to_nat cap + 1)%nat by lia.
    rewrite (drop_app_le l) by lia.
    rewrite <- (drop_drop l 1 (length l - Z.to_nat cap)).
    rewrite drop_app_le; [reflexivity|]. rewrite length_drop. lia.
  - replace (Z.to_nat (Z.min (Z.of_nat (length l)) cap + 1 - cap)) with O by lia.
    replace (length l - Z.to_nat cap)%nat with O by lia.
    replace (length l + 1 - Z.to_nat cap)%nat with O by lia.
    reflexivity.
Qed.

Lemma newest_lookup_last {A} (cap : Z) (l : list A) (x : A) :
  0 < cap →
  newest cap (l ++ [x]) !! Z.to_nat (len (newest cap (l ++ [x])) - 1) = Some x.
Proof.
  intros Hc. rewrite len_newest by lia. unfold newest, len.
  rewrite length_app. cbn [length]. rewrite lookup_drop.
  replace (_ + _)%nat with (length l) by lia.
  apply list_lookup_middle. reflexivity.
Qed.

(** ** Runs *)

Lemma run_with_snoc {S I O} (step : S → I → result (S * option O))
    (inputs : list I) (i : I) : ∀ st,
  run_with step st (inputs ++ [i])
  = '(st1, evs) ← run_with step st inputs;
    '(st2, o) ← step st1 i;
    Ok (st2, evs ++ [o]).
Proof.
  induction inputs as [|j inputs IH]; intros st; cbn [run_with app].
  - cbn [mbind result_bind]. destruct (step st i) as [[st2 o]|e]; reflexivity.
  - destruct (step st j) as [[st1 o]|e]; cbn [mbind result_bind]; [|reflexivity].
    rewrite IH.
    destruct (run_with step st1 inputs) as [[st2 evs]|e];
      cbn [mbind result_bind]; [|reflexivity].
    destruct (step st2 i) as [[st3 o']|e]; reflexivity.
Qed.

(** An invariant of the calls is an invariant of the runs. *)
Lemma run_with_inv {S I O} (step : S → I → result (S * option O)) (st0 : S)
    (P : list I → S → list (option O) → Prop) :
  P [] st0 [] →
  (∀ l st evs i st' o,
     run_with step st0 l = Ok (st, evs) → P l st evs →
     step st i = Ok (st', o) → P (l ++ [i]) st' (evs ++ [o])) →
  ∀ inputs st evs, run_with step st0 inputs = Ok (st, evs) → P inputs st evs.
Proof.
  intros H0 Hstep inputs.
  induction inputs as [|i inputs IH] using rev_ind; intros st evs Hr.
  - injection Hr as <- <-. exact H0.
  - rewrite run_with_snoc in Hr.
    destruct (run_with step st0 inputs) as [[st1 evs1]|e] eqn:E1; [|discriminate].
    cbn [mbind result_bind] in Hr.
    destruct (step st1 i) as [[st2 o]|e] eqn:E2; [|discriminate].
    injection Hr as <- <-.
    eapply Hstep; [exact E1|apply IH; reflexivity|exact E2].
Qed.

Lemma run_with_length {S I O} (step : S → I → result (S * option O)) (st0 : S)
    inputs st evs :
  run_with step st0 inputs = Ok (st, evs) → length evs = length inputs.
Proof.
  revert inputs st evs.
  apply (run_with_inv step st0 (λ l _ evs, length evs = length l)); [reflexivity|].
  intros l st evs i st' o _ Hl _. rewrite !length_app, Hl. reflexivity.
Qed.

(** The call behind outcome [n] of a run: it was made in the state the
    first [n] inputs lead to. *)
Lemma run_with_at {S I O} (step : S → I → result (S * option O)) (st0 : S)
    inputs st evs (n : nat) (o : option O) :
  run_with step st0 inputs = Ok (st, evs) → evs !! n = Some o →
  ∃ i stn stn',
    inputs !! n = Some i
    ∧ run_with step st0 (take n inputs) = Ok (stn, take n evs)
    ∧ step stn i = Ok (stn', o).
Proof.
  revert inputs st evs.
  apply (run_with_inv step st0
           (λ l _ evs, evs !! n = Some o →
              ∃ i stn stn', l !! n = Some i
                ∧ run_with step st0 (take n l) = Ok (stn, take n evs)
                ∧ step stn i = Ok (stn', o))).
  - intros Hn. discriminate.
  - intros l st evs i st' o' Hr IH Hs Hn.
    pose proof (run_with_length _ _ _ _ _ Hr) as Hlen.
    destruct (decide (n < length evs)%nat) as [Hlt|Hge].
    + rewrite lookup_app_l in Hn by exact Hlt.
      destruct (IH Hn) as (j & stn & stn' & Hj & Hrn & Hsn).
      exists j, stn, stn'. rewrite lookup_app_l by lia.
      rewrite !take_app_le by lia. auto.
    + rewrite lookup_app_r in Hn by lia.
      destruct (n - length evs)%nat as [|m] eqn:Em; [|destruct m; discriminate].
      injection Hn as ->.
      assert (n = length evs) as -> by lia.
      exists i, st, st'. rewrite Hlen at 1. rewrite list_lookup_middle by reflexivity.
      rewrite take_app_length. rewrite Hlen, take_app_length. auto.
Qed.

Section RunShapes.
Context `{External}.

Lemma live_run_with (inputs : list Live.input) : ∀ st,
  Live.run st inputs = run_with Live.step st inputs.
Proof.
  induction inputs as [|i inputs IH]; intros st; [reflexivity|].
  cbn [Live.run run_with].
  destruct (Live.step st i) as [[st1 o]|e]; cbn [mbind result_bind]; [|reflexivity].
  rewrite IH. reflexivity.
Qed.

Lemma debug_run_with (inputs : list Debug.input) : ∀ st,
  Debug.run st inputs = run_with Debug.step st inputs.
Proof.
  induction inputs as [|i inputs IH]; intros st; [reflexivity|].
  cbn [Debug.run run_with].
  destruct (Debug.step st i) as [[st1 o]|e]; cbn [mbind result_bind]; [|reflexivity].
  rewrite IH. reflexivity.
Qed.

End RunShapes.

(** ** Outcomes and their positions *)

Lemma last_accepted_from_snoc {A} (evs : list (option A)) (o : option A) :
  ∀ n a,
  last_accepted_from n (evs ++ [o]) a
  = match o with
    | Some _ => Some (n + len evs)
    | None => last_accepted_from n evs a
    end.
Proof.
  induction evs as [|e evs IH]; intros n a; cbn [app last_accepted_from].
  - change (len []) with 0. rewrite Z.add_0_r. destruct o; reflexivity.
  - rewrite IH, len_cons. destruct o; [f_equal; lia|reflexivity].
Qed.

Lemma last_accepted_snoc {A} (evs : list (option A)) (o : option A) :
  last_accepted (evs ++ [o])
  = match o with Some _ => Some (len evs) | None => last_accepted evs end.
Proof. unfold last_accepted. rewrite last_accepted_from_snoc. reflexivity. Qed.

Lemma emitted_from_snoc {A} (evs : list (option A)) (o : option A) : ∀ n,
  emitted_from n (evs ++ [o])
  = emitted_from n evs ++ match o with Some _ => [n + len evs] | None => [] end.
Proof.
  induction evs as [|e evs IH]; intros n; cbn [app emitted_from].
  - change (len []) with 0. rewrite Z.add_0_r. destruct o; reflexivity.
  - rewrite len_cons.
    replace (n + (len evs + 1)) with (n + 1 + len evs) by lia.
    destruct e; rewrite IH; reflexivity.
Qed.

Lemma emitted_at_snoc {A} (evs : list (option A)) (o : option A) :
  emitted_at (evs ++ [o])
  = emitted_at evs ++ match o with Some _ => [len evs] | None => [] end.
Proof. unfold emitted_at. rewrite emitted_from_snoc. reflexivity. Qed.

Lemma events_of_snoc {A} (evs : list (option A)) (o : option A) :
  events_of (evs ++ [o])
  = events_of evs ++ match o with Some e => [e] | None => [] end.
Proof. unfold events_of. rewrite omap_app. destruct o; reflexivity. Qed.

Lemma seqZ_one_succ {A} (l : list A) :
  seqZ 1 (len l) ++ [len l + 1] = seqZ 1 (len l + 1).
Proof.
  unfold len.
  replace (Z.of_nat (length l) + 1) with (1 + Z.of_nat (length l)) at 1 by lia.
  rewrite <- seqZ_S. f_equal. lia.
Qed.

Lemma streak_snoc (fs : list features) (f : features) :
  streak (fs ++ [f]) = if feat_stable f then streak fs + 1 else 0.
Proof. unfold streak. rewrite foldl_snoc. reflexivity. Qed.

(** The copy of the landmarks the live detector stores is the landmarks. *)
Lemma landmarks_copy (landmarks : gmap string point) :
  (if bool_decide (size landmarks = 0%nat) then ∅ else landmarks) = landmarks.
Proof.
  destruct (bool_decide (size landmarks = 0%nat)) eqn:E; [|reflexivity].
  apply bool_decide_eq_true in E. apply map_size_empty_iff in E. congruence.
Qed.

(** ** The live detector over a stream, with the contents of its buffers *)

Section LiveTraces.
Context `{External}.

(** A call is [ingest], then at most the new stored index. *)
Lemma live_step_shape (st : Live.state) (i : Live.input) st' o :
  Live.step st i = Ok (st', o) →
  ∃ st1,
    Live.ingest st (Live.in_frame i) (Live.in_landmarks i)
      (live_measure (Live.side st) i) = Ok st1
    ∧ st' = match o with
            | Some _ => Live.record_shot st1 (Live.current_idx st1)
            | None => st1
            end.
Proof.
  unfold Live.step. intros Hu. destruct o as [ev|].
  - apply live_update_Some in Hu.
    destruct Hu as (st1 & loc & Hi & _ & _ & _ & _ & _ & ->). eauto.
  - apply live_update_None in Hu. eauto.
Qed.

Lemma live_trace_init (sd : string) : live_trace sd [] (Live.init sd) [].
Proof.
  unfold live_trace. split; [apply live_inv_init|]. repeat split; reflexivity.
Qed.

Lemma live_trace_step sd l st evs i st' o :
  length evs = length l →
  live_trace sd l st evs → Live.step st i = Ok (st', o) →
  live_trace sd (l ++ [i]) st' (evs ++ [o]).
Proof.
  intros Hlen (Hinv & Hsd & Hfb & Hlb & Hea & Hwh & Hsc) Hs.
  pose proof (live_inv_update _ _ _ _ _ _ _ _ _ Hinv Hs) as Hinv'.
  destruct (live_step_shape _ _ _ _ Hs) as (st1 & Hi & Hst').
  pose proof Hinv as (Hwf & _).
  rewrite live_ingest_spec in Hi by exact Hwf. injection Hi as <-.
  assert (Hbuf : ∀ o' : option Live.ShotEvent,
    let st2 := live_trimmed (live_appended st (Live.in_frame i) (Live.in_landmarks i)
                               (live_measure (Live.side st) i)) (live_evicted st) in
    let st3 := match o' with
               | Some _ => Live.record_shot st2 (Live.current_idx st2)
               | None => st2
               end in
    Live.side st3 = Live.side st2 ∧ Live.frames_buffer st3 = Live.frames_buffer st2
    ∧ Live.landmarks_buffer st3 = Live.landmarks_buffer st2
    ∧ Live.elbow_angles st3 = Live.elbow_angles st2
    ∧ Live.wrist_heights st3 = Live.wrist_heights st2
    ∧ Live.stability_count st3 = Live.stability_count st2)
    by (intros [?|]; repeat split; reflexivity).
  specialize (Hbuf o). cbn zeta in Hbuf. rewrite <- Hst' in Hbuf.
  destruct Hbuf as (Bs & Bf & Bl & Be & Bw & Bc).
  assert (Hk : ∀ (A : Type) (h : list A), length h = length l →
            live_evicted st = Z.to_nat (len (newest Live.max_buffer h) + 1 - Live.max_buffer)).
  { intros A h Hh. unfold live_evicted. rewrite Hfb.
    rewrite !len_newest by (change Live.max_buffer with 180; lia).
    unfold len. rewrite length_fmap, Hh. reflexivity. }
  unfold live_trace. rewrite len_app, last_accepted_snoc.
  change (len [i]) with 1.
  replace (len evs) with (len l) by (unfold len; lia).
  split; [exact Hinv'|].
  rewrite Bs, Bf, Bl, Be, Bw, Bc. cbn [live_trimmed live_appended Live.side
    Live.frames_buffer Live.landmarks_buffer Live.elbow_angles Live.wrist_heights
    Live.stability_count].
  rewrite Hsd, landmarks_copy, !fmap_app. cbn [fmap list_fmap].
  split; [reflexivity|].
  split; [rewrite Hfb; apply newest_snoc;
          [reflexivity|apply Hk; rewrite length_fmap; reflexivity]|].
  split; [rewrite Hlb; apply newest_snoc;
          [reflexivity|apply Hk; rewrite length_fmap; reflexivity]|].
  split; [rewrite Hea; apply newest_snoc;
          [reflexivity|apply Hk; rewrite !length_fmap; reflexivity]|].
  split; [rewrite Hwh; apply newest_snoc;
          [reflexivity|apply Hk; rewrite !length_fmap; reflexivity]|].
  rewrite streak_snoc, Hsc. reflexivity.
Qed.

(** Every run from [__init__] returns, and leaves the trace. *)
Lemma live_run_trace (sd : string) (inputs : list Live.input) :
  ∃ st evs, Live.run (Live.init sd) inputs = Ok (st, evs)
    ∧ length evs = length inputs ∧ live_trace sd inputs st evs.
Proof.
  destruct (live_run_inv inputs 0 None (Live.init sd) (live_inv_init sd))
    as (st & evs & Hr & _).
  exists st, evs. split; [exact Hr|]. rewrite live_run_with in Hr.
  split; [exact (run_with_length _ _ _ _ _ Hr)|].
  revert inputs st evs Hr.
  apply (run_with_inv Live.step (Live.init sd) (live_trace sd));
    [apply live_trace_init|].
  intros l st evs i st' o Hr Ht Hs.
  apply (live_trace_step sd l st evs i st' o);
    [exact (run_with_length _ _ _ _ _ Hr)|exact Ht|exact Hs].
Qed.

End LiveTraces.

(** ** The debugger over a stream, with the contents of its buffers *)

Section DebugTraces.
Context `{External}.

Lemma debug_step_shape (st : Debug.state) (i : Debug.input) st' o :
  Debug.step st i = Ok (st', o) →
  ∃ st1,
    Debug.ingest st (Debug.in_frame i) (Debug.in_landmarks i)
      (debug_measure (Debug.side st) i) (Debug.in_frame_num i)
      (Debug.in_timestamp_ms i) = Ok st1
    ∧ st' = match o with
            | Some shot =>
                Debug.record_shot
                  (Debug.append_shot
                     (Debug.set_shot_count st1 (Debug.shot_count st1 + 1)) shot)
                  (Debug.current_idx st1)
            | None => st1
            end
    ∧ ∀ shot, o = Some shot → Debug.shot_num shot = Debug.shot_count st1 + 1.
Proof.
  unfold Debug.step. intros Hp. destruct o as [shot|].
  - apply debug_process_Some in Hp.
    destruct Hp as (st1 & Hi & _ & _ & _ & _ & Hshot & ->).
    exists st1. split; [exact Hi|]. split; [reflexivity|].
    intros ? [= <-]. rewrite Hshot. reflexivity.
  - apply debug_process_None in Hp. exists st'.
    split; [exact Hp|]. split; [reflexivity|]. intros ? [=].
Qed.

Lemma debug_trace_init (sd : string) : debug_trace sd [] (Debug.init sd) [].
Proof.
  unfold debug_trace. split; [apply debug_inv_init|]. repeat split; reflexivity.
Qed.

Lemma debug_trace_step sd l st evs i st' o :
  length evs = length l →
  debug_trace sd l st evs → Debug.step st i = Ok (st', o) →
  debug_trace sd (l ++ [i]) st' (evs ++ [o]).
Proof.
  intros Hlen (Hinv & Hsd & Hfb & Hmb & Hsc & Hsh & Hct & Hnum) Hs.
  pose proof (debug_inv_process _ _ _ _ _ _ _ _ _ _ Hinv Hs) as Hinv'.
  destruct (debug_step_shape _ _ _ _ Hs) as (st1 & Hi & Hst' & Hn).
  pose proof Hinv as (Hwf & _).
  rewrite debug_ingest_spec in Hi by exact Hwf. injection Hi as <-.
  set (st2 := debug_trimmed _ _) in *.
  assert (Hk : ∀ (A : Type) (h : list A), length h = length l →
            debug_evicted st
            = Z.to_nat (len (newest Debug.max_buffer h) + 1 - Debug.max_buffer)).
  { intros A h Hh. unfold debug_evicted. rewrite Hfb.
    rewrite !len_newest by (change Debug.max_buffer with 200; lia).
    unfold len. rewrite length_fmap, Hh. reflexivity. }
  assert (H2 : Debug.side st2 = sd
    ∧ Debug.frames_buffer st2
      = newest Debug.max_buffer (Debug.in_frame <$> l ++ [i])
    ∧ Debug.metrics_buffer st2
      = newest Debug.max_buffer (debug_metrics sd <$> l ++ [i])
    ∧ Debug.stability_count st2 = streak (debug_measure sd <$> l ++ [i])
    ∧ Debug.shots st2 = Debug.shots st
    ∧ Debug.shot_count st2 = Debug.shot_count st).
  { subst st2. cbn [debug_trimmed debug_appended Debug.side Debug.frames_buffer
      Debug.metrics_buffer Debug.stability_count Debug.shots Debug.shot_count].
    rewrite Hsd, !fmap_app. cbn [fmap list_fmap].
    split; [reflexivity|].
    split; [rewrite Hfb; apply newest_snoc;
            [reflexivity|apply Hk; rewrite length_fmap; reflexivity]|].
    split; [rewrite Hmb; apply newest_snoc;
            [reflexivity|apply Hk; rewrite length_fmap; reflexivity]|].
    split; [rewrite streak_snoc, Hsc; reflexivity|]. split; reflexivity. }
  destruct H2 as (Bs & Bf & Bm & Bc & Bsh & Bct).
  unfold debug_trace. rewrite len_app, last_accepted_snoc, events_of_snoc.
  change (len [i]) with 1.
  replace (len evs) with (len l) by (unfold len; lia).
  split; [exact Hinv'|].
  destruct o as [shot|]; subst st'.
  - cbn [Debug.record_shot Debug.append_shot Debug.set_shot_count Debug.side
      Debug.frames_buffer Debug.metrics_buffer Debug.stability_count Debug.shots
      Debug.shot_count].
    repeat (split; [assumption|]).
    rewrite Bsh, Bct, Hct, len_app. change (len [shot]) with 1.
    split; [rewrite Hsh; reflexivity|]. split; [reflexivity|].
    rewrite fmap_app, Hnum. cbn [fmap list_fmap].
    rewrite (Hn shot eq_refl), Bct, Hct.
    apply seqZ_one_succ.
  - rewrite app_nil_r.
    repeat (split; [assumption|]). exact Hnum.
Qed.

Lemma debug_run_trace (sd : string) (inputs : list Debug.input) :
  ∃ st evs, Debug.run (Debug.init sd) inputs = Ok (st, evs)
    ∧ length evs = length inputs ∧ debug_trace sd inputs st evs.
Proof.
  destruct (debug_run_inv inputs 0 None (Debug.init sd) (debug_inv_init sd))
    as (st & evs & Hr & _).
  exists st, evs. split; [exact Hr|]. rewrite debug_run_with in Hr.
  split; [exact (run_with_length _ _ _ _ _ Hr)|].
  revert inputs st evs Hr.
  apply (run_with_inv Debug.step (Debug.init sd) (debug_trace sd));
    [apply debug_trace_init|].
  intros l st evs i st' o Hr Ht Hs.
  apply (debug_trace_step sd l st evs i st' o);
    [exact (run_with_length _ _ _ _ _ Hr)|exact Ht|exact Hs].
Qed.

End DebugTraces.

(** ** Tracked frames behind the stability counter *)

(** The streak is a number of entries, and the entries it counts are the
    last ones, all tracked. *)
Lemma streak_tracked (fs : list features) :
  0 ≤ streak fs ≤ len fs
  ∧ ∀ j : nat, len fs - streak fs ≤ Z.of_nat j < len fs →
      ∃ f, fs !! j = Some f ∧ feat_stable f = true.
Proof.
  induction fs as [|f fs IH] using rev_ind.
  - split; [unfold streak, len; simpl; lia|]. unfold len. simpl. lia.
  - destruct IH as [Hb Hall]. rewrite streak_snoc, len_app.
    change (len [f]) with 1.
    destruct (feat_stable f) eqn:Ef.
    + split; [lia|]. intros j Hj.
      destruct (decide (Z.of_nat j < len fs)) as [Hlt|Hge].
      * destruct (Hall j ltac:(lia)) as (g & Hg & Hs). exists g.
        rewrite lookup_app_l by (unfold len in Hlt; lia). auto.
      * exists f. split; [|exact Ef].
        replace j with (length fs) by (unfold len in *; lia).
        apply list_lookup_middle. reflexivity.
    + split; [pose proof (len_nonneg fs); lia|]. intros j Hj. lia.
Qed.

(** ** Gaps between the positions of the events *)

Lemma gaps_at_least_snoc (g : Z) (l : list Z) (x : Z) :
  gaps_at_least g l → (∀ a, last l = Some a → g ≤ x - a) →
  gaps_at_least g (l ++ [x]).
Proof.
  induction l as [|a l IH]; intros Hg Hl; cbn [app gaps_at_least].
  - auto.
  - destruct Hg as [Ha Hg]. destruct l as [|b l].
    + cbn [app]. split; [apply Hl; reflexivity|]. cbn. auto.
    + cbn [app]. split; [exact Ha|]. apply IH; [exact Hg|].
      intros c Hc. apply Hl. exact Hc.
Qed.

Lemma last_emitted_at {A} (evs : list (option A)) :
  last (emitted_at evs) = last_accepted evs.
Proof.
  induction evs as [|o evs IH] using rev_ind; [reflexivity|].
  rewrite emitted_at_snoc, last_accepted_snoc. destruct o.
  - apply last_snoc.
  - rewrite app_nil_r. exact IH.
Qed.

(** ** Loops that collect *)

Lemma collect_singletons {A B} (f : A → result (list B)) (g : A → B) (l : list A) :
  (∀ e, e ∈ l → f e = Ok [g e]) → collect f l = Ok (g <$> l).
Proof.
  induction l as [|x l IH]; intros Hall; [reflexivity|].
  cbn [collect]. rewrite (Hall x) by left. cbn [mbind result_bind].
  rewrite IH by (intros e He; apply Hall; right; exact He). reflexivity.
Qed.

Lemma collect_elem {A B} (f : A → result (list B)) (g : A → list B) (l : list A) :
  (∀ e, e ∈ l → f e = Ok (g e)) →
  ∃ out, collect f l = Ok out ∧ ∀ y, y ∈ out ↔ ∃ e, e ∈ l ∧ y ∈ g e.
Proof.
  induction l as [|x l IH]; intros Hall.
  - exists []. split; [reflexivity|]. intros y. split.
    + intros Hy. inversion Hy.
    + intros (e & He & _). inversion He.
  - destruct IH as (out & Ho & Hiff);
      [intros e He; apply Hall; right; exact He|].
    exists (g x ++ out). split.
    + cbn [collect]. rewrite (Hall x) by left. cbn [mbind result_bind].
      rewrite Ho. reflexivity.
    + intros y. rewrite elem_of_app, Hiff. split.
      * intros [Hy|(e & He & Hy)]; [exists x; split; [left|exact Hy]|].
        exists e. split; [right; exact He|exact Hy].
      * intros (e & He & Hy). apply elem_of_cons in He.
        destruct He as [->|He]; [left; exact Hy|right; eauto].
Qed.

(** ** A call of the live detector, once more *)

Section LiveCallsMore.
Context `{External}.

(** After [ingest] the newest position holds the frame, the landmarks and
    the angle of the call. *)
Lemma live_ingest_last st frame landmarks f st1 :
  live_wf st → Live.ingest st frame landmarks f = Ok st1 →
  let R := Live.current_idx st1 in
  0 ≤ R
  ∧ len (Live.landmarks_buffer st1) = R + 1
  ∧ len (Live.elbow_angles st1) = R + 1
  ∧ Live.frames_buffer st1 !! Z.to_nat R = Some frame
  ∧ Live.landmarks_buffer st1 !! Z.to_nat R = Some landmarks
  ∧ Live.elbow_angles st1 !! Z.to_nat R = Some (feat_angle f)
  ∧ Live.side st1 = Live.side st.
Proof.
  intros Hwf Hi R.
  pose proof (live_ingest_wf _ _ _ _ _ Hwf Hi) as (Hl1 & He1 & _).
  pose proof (live_ingest_newest _ _ _ _ _ Hwf Hi) as (H0 & _ & Hea & _).
  split; [exact H0|]. subst R. unfold Live.current_idx in *.
  split; [unfold len in *; lia|]. split; [unfold len in *; lia|].
  split; [|split; [|split; [exact Hea|]]];
    rewrite live_ingest_spec in Hi by exact Hwf; injection Hi as <-;
    destruct Hwf as (Hl & He & Hw);
    cbn [live_trimmed live_appended Live.frames_buffer Live.landmarks_buffer
         Live.side]; try reflexivity.
  - rewrite len_drop, len_app. change (len [frame]) with 1.
    rewrite lookup_drop.
    replace (_ + _)%nat with (length (Live.frames_buffer st)).
    + apply list_lookup_middle. reflexivity.
    + unfold live_evicted, len. change Live.max_buffer with 180. lia.
  - rewrite len_drop, len_app. change (len [frame]) with 1.
    rewrite lookup_drop, landmarks_copy.
    replace (_ + _)%nat with (length (Live.landmarks_buffer st)).
    + apply list_lookup_middle. reflexivity.
    + rewrite Hl. unfold live_evicted, len. change Live.max_buffer with 180. lia.
Qed.

(** [build] read backwards. *)
Lemma live_build_inv (st : Live.state) (loc : Live.Located) (now : float) ev :
  Live.build st loc now = Ok ev →
  let k := Live.loc_keys loc in
  ∃ f1 f2 f3 f4 f5 f6 f7 f8 ra ll rl,
    getitem (Live.frames_buffer st) (stance_idx k) = Ok f1
    ∧ getitem (Live.frames_buffer st) (load_idx k) = Ok f2
    ∧ getitem (Live.frames_buffer st) (mid1_idx k) = Ok f3
    ∧ getitem (Live.frames_buffer st) (mid2_idx k) = Ok f4
    ∧ getitem (Live.frames_buffer st) (mid3_idx k) = Ok f5
    ∧ getitem (Live.frames_buffer st) (mid4_idx k) = Ok f6
    ∧ getitem (Live.frames_buffer st) (release_idx k) = Ok f7
    ∧ getitem (Live.frames_buffer st) (followthrough_idx k) = Ok f8
    ∧ (if release_idx k <? len (Live.elbow_angles st)
       then getitem (Live.elbow_angles st) (release_idx k)
       else Ok (Some 0%float)) = Ok (Some ra)
    ∧ getitem (Live.landmarks_buffer st) (load_idx k) = Ok ll
    ∧ getitem (Live.landmarks_buffer st) (release_idx k) = Ok rl
    ∧ ev = {| Live.shot_number := 0;
              Live.timestamp := now;
              Live.frames := [("1_Stance", f1); ("2_Load", f2); ("3_Mid1", f3);
                              ("4_Mid2", f4); ("5_Mid3", f5); ("6_Mid4", f6);
                              ("7_Release", f7); ("8_FollowThrough", f8)];
              Live.elbow_angle_load := Live.loc_min_angle loc;
              Live.elbow_angle_release := (if truthy ra then ra else 170%float);
              Live.wrist_height_release :=
                Live._calculate_wrist_height (Live.side st) rl;
              Live.knee_bend_load := Live._calculate_knee_bend (Live.side st) ll |}.
Proof.
  intros Hb k. unfold Live.build in Hb. fold k in Hb.
  inv_bind Hb. rename v into f1. inv_bind Hb. rename v into f2.
  inv_bind Hb. rename v into f3. inv_bind Hb. rename v into f4.
  inv_bind Hb. rename v into f5. inv_bind Hb. rename v into f6.
  inv_bind Hb. rename v into f7. inv_bind Hb. rename v into f8.
  inv_bind Hb. rename v into ra. inv_bind Hb.
  destruct ra as [ra|]; [|discriminate Hb]. cbn [format_float] in Hb.
  inv_bind Hb. inv_bind Hb. rename v1 into ll. inv_bind Hb. rename v1 into rl.
  injection Hb as <-.
  exists f1, f2, f3, f4, f5, f6, f7, f8, ra, ll, rl.
  cbn [otruthy default]. repeat (split; [assumption|]). reflexivity.
Qed.

(** [update_from] as a function of the state [ingest] leaves. *)
Lemma live_update_from_spec st frame landmarks f now st1 :
  live_wf st → Live.ingest st frame landmarks f = Ok st1 →
  let R := Live.current_idx st1 in
  let r := scan (Live.elbow_angles st1) (range (Z.max 0 (R - 60)) R) (infinity, R) in
  let loc := {| Live.loc_keys := sampled (snd r) R (len (Live.frames_buffer st1));
                Live.loc_min_angle := fst r;
                Live.loc_duration := R - snd r |} in
  if Live.stable st1 && Live.cooled st1 && Live.released f
     && negb (R - snd r <? 10)
  then ∃ ev a,
         Live.update_from st frame landmarks f now
         = Ok (Live.record_shot st1 R, Some ev)
         ∧ Live.locate st1 R = Ok (Some loc)
         ∧ Live.build st1 loc now = Ok ev
         ∧ feat_angle f = Some a ∧ truthy a = true
  else Live.update_from st frame landmarks f now = Ok (st1, None).
Proof.
  intros Hwf Hi R r loc. unfold Live.update_from. rewrite Hi.
  cbn [mbind result_bind].
  pose proof (live_ingest_wf _ _ _ _ _ Hwf Hi) as Hwf1.
  pose proof (live_ingest_last _ _ _ _ _ Hwf Hi) as (Hidx & _ & Hlen & _ & _ & Hnew & _).
  fold R in Hidx, Hlen, Hnew.
  destruct (Live.stable st1); cbn [negb andb]; [|reflexivity].
  destruct (Live.cooled st1); cbn [negb andb]; [|reflexivity].
  destruct (Live.released f) eqn:Hrel; cbn [andb]; [|reflexivity].
  apply live_released_angle in Hrel. destruct Hrel as (a & Hfa & Hta & _).
  unfold Live._create_shot_from_release.
  assert (Hloc : Live.locate st1 R
                 = Ok (if R - snd r <? 10 then None else Some loc)).
  { apply live_locate_spec; unfold R, Live.current_idx in *; lia. }
  fold R. rewrite Hloc. cbn [mbind result_bind].
  destruct (R - snd r <? 10) eqn:Hd; cbn [negb]; [reflexivity|].
  pose proof (located_window (Live.elbow_angles st1) R (len (Live.frames_buffer st1))) as Hw.
  cbn zeta in Hw. fold r in Hw.
  destruct (Hw Hd ltac:(unfold R, Live.current_idx; lia)) as (Hb & _ & _).
  destruct (live_build_Ok st1 loc now a) as [ev Hev]; [exact Hwf1| |..].
  - cbn [Live.loc_keys loc]. apply sampled_chain; unfold R, Live.current_idx in *; lia.
  - cbn [Live.loc_keys loc sampled release_idx]. rewrite Hnew, Hfa. reflexivity.
  - rewrite Hev. cbn [mbind result_bind]. exists ev, a. auto.
Qed.

End LiveCallsMore.

(** ** The search window on a trimmed history *)

Lemma angle_at_drop (A : list (option float)) (d : nat) (i : Z) :
  0 ≤ i → angle_at (drop d A) i = angle_at A (i + Z.of_nat d).
Proof.
  intros Hi. unfold angle_at.
  destruct (Z.ltb_spec i 0); [lia|].
  destruct (Z.ltb_spec (i + Z.of_nat d) 0); [lia|].
  rewrite lookup_drop. do 2 f_equal. lia.
Qed.

Lemma scan_step_shift (acc : float * Z) (i d : Z) (a : option float) :
  scan_step (fst acc, snd acc + d) (i + d) a
  = (fst (scan_step acc i a), snd (scan_step acc i a) + d).
Proof.
  unfold scan_step. destruct a as [x|]; [|reflexivity]. cbn [fst].
  destruct (truthy x && PrimFloat.ltb x (fst acc)); reflexivity.
Qed.

(** The search over a history that lost its first [d] entries is the search
    over the whole history, [d] positions further on. *)
Lemma scan_drop (A : list (option float)) (d : nat) (rng : list Z) :
  (∀ i, i ∈ rng → 0 ≤ i) → ∀ acc,
  scan A ((λ i, i + Z.of_nat d) <$> rng) (fst acc, snd acc + Z.of_nat d)
  = (fst (scan (drop d A) rng acc), snd (scan (drop d A) rng acc) + Z.of_nat d).
Proof.
  unfold scan. induction rng as [|i rng IH]; intros Hpos acc; [reflexivity|].
  cbn [fmap list_fmap foldl].
  rewrite angle_at_drop by (apply Hpos; left).
  rewrite scan_step_shift. apply IH. intros j Hj. apply Hpos. right. exact Hj.
Qed.

(** The window of a buffer that keeps the newest [cap] angles of a stream is
    the window of the stream. *)
Lemma window_newest (A : list (option float)) (cap n : Z) :
  61 ≤ cap → len A = n + 1 →
  let off := Z.max 0 (n + 1 - cap) in
  let R := n - off in
  let rb := scan (newest cap A) (range (Z.max 0 (R - 60)) R) (infinity, R) in
  let r := scan A (range (Z.max 0 (n - 60)) n) (infinity, n) in
  fst r = fst rb ∧ snd r = snd rb + off.
Proof.
  intros Hc Hlen off R rb r.
  assert (Hn : newest cap A = drop (Z.to_nat off) A).
  { unfold newest. f_equal. unfold len in Hlen. lia. }
  pose proof (scan_drop A (Z.to_nat off) (range (Z.max 0 (R - 60)) R)) as Hs.
  specialize (Hs ltac:(intros i Hi; apply range_window_elem in Hi; lia) (infinity, R)).
  rewrite <- Hn in Hs. fold rb in Hs. cbn [fst snd] in Hs.
  assert (Hr : (λ i, i + Z.of_nat (Z.to_nat off)) <$> range (Z.max 0 (R - 60)) R
               = range (Z.max 0 (n - 60)) n).
  { unfold range.
    rewrite (list_fmap_ext _ (Z.add off))
      by (intros ? ? ?; lia).
    rewrite fmap_add_seqZ. f_equal; lia. }
  rewrite Hr in Hs.
  replace (R + Z.of_nat (Z.to_nat off)) with n in Hs by lia.
  fold r in Hs. rewrite Hs. cbn [fst snd]. split; [reflexivity|lia].
Qed.

(** The positions sampled in the buffer, moved by the evictions, are the
    positions sampled in the stream. *)
Lemma sampled_shift (L R n off : Z) :
  0 ≤ off → off = 0 ∨ 5 ≤ L →
  shift_keys off (sampled L R n) = sampled (L + off) (R + off) (n + off).
Proof.
  intros H0 Hl. unfold shift_keys, sampled. cbn.
  replace (R + off - (L + off)) with (R - L) by lia.
  f_equal; lia.
Qed.

(** ** The detectors against a history that is never trimmed *)

Section Streams.
Context `{External}.

Lemma stream_verdict_keys (cap : Z) (A : list (option float)) (n : Z) :
  66 ≤ cap → len A = n + 1 →
  let off := Z.max 0 (n + 1 - cap) in
  let R := n - off in
  let rb := scan (newest cap A) (range (Z.max 0 (R - 60)) R) (infinity, R) in
  let r := scan A (range (Z.max 0 (n - 60)) n) (infinity, n) in
  (R - snd rb <? 10) = (n - snd r <? 10)
  ∧ fst rb = fst r
  ∧ ((R - snd rb <? 10) = false →
     shift_keys off (sampled (snd rb) R (R + 1)) = sampled (snd r) n (n + 1)).
Proof.
  intros Hc Hlen off R rb r.
  destruct (window_newest A cap n ltac:(lia) Hlen) as [Hf Hs].
  fold off R rb r in Hf, Hs.
  split; [f_equal; lia|]. split; [congruence|]. intros Hd.
  pose proof (located_window (newest cap A) R (R + 1)) as Hw. cbn zeta in Hw.
  fold rb in Hw. destruct (Hw Hd ltac:(lia)) as (Hb & _ & _).
  assert (H0 : 0 ≤ off) by (unfold off; lia).
  assert (H5 : off = 0 ∨ 5 ≤ snd rb) by (unfold R, off in *; lia).
  rewrite sampled_shift by assumption. f_equal; unfold R; lia.
Qed.

(** One call of the live detector against the verdict on the stream. *)
Lemma live_stream_step n a A st (i : Live.input) (f : features) :
  live_inv n a st → Live.elbow_angles st = newest Live.max_buffer A → len A = n →
  ∃ st' o,
    Live.update_from st (Live.in_frame i) (Live.in_landmarks i) f (Live.in_now i)
    = Ok (st', o)
    ∧ live_inv (n + 1) (match o with Some _ => Some n | None => a end) st'
    ∧ Live.elbow_angles st' = newest Live.max_buffer (A ++ [feat_angle f])
    ∧ Live.stability_count st'
      = (if feat_stable f then Live.stability_count st + 1 else 0)
    ∧ match o with
      | Some ev =>
          ∃ d, stream_verdict (Live.stability_count st') a (A ++ [feat_angle f]) n f
               = Some d
               ∧ to_stream Live.max_buffer <$> live_detection n st' ev = [d]
      | None =>
          stream_verdict (Live.stability_count st') a (A ++ [feat_angle f]) n f
          = None
      end.
Proof.
  intros Hinv Hea HA. pose proof Hinv as (Hwf & Hn & Hlen & Hidx).
  destruct (Live.ingest st (Live.in_frame i) (Live.in_landmarks i) f)
    as [st1|e] eqn:Hi; [|rewrite live_ingest_spec in Hi by exact Hwf; discriminate].
  pose proof (live_inv_ingest _ _ _ _ _ _ _ Hinv Hi) as Hinv1.
  pose proof (live_ingest_newest _ _ _ _ _ Hwf Hi) as (Hcur & Hlen1 & _ & Hsc & Hlast).
  assert (Hea1 : Live.elbow_angles st1 = newest Live.max_buffer (A ++ [feat_angle f])).
  { pose proof Hi as Hi'. rewrite live_ingest_spec in Hi' by exact Hwf.
    injection Hi' as <-. cbn [live_trimmed live_appended Live.elbow_angles].
    rewrite Hea. apply newest_snoc; [reflexivity|].
    unfold live_evicted. rewrite Hlen.
    rewrite len_newest by (change Live.max_buffer with 180; lia).
    rewrite HA. reflexivity. }
  assert (Hcool : Live.cooled st1
                  = match a with Some a => 45 <=? n - a | None => true end).
  { destruct a as [a|].
    - rewrite (live_cooled_true_distance _ _ _ _ _ _ _ Hinv Hi).
      change Live.COOLDOWN_FRAMES with 45.
      destruct (Z.ltb_spec (n - a) 45), (Z.leb_spec 45 (n - a)); try reflexivity; lia.
    - destruct Hinv1 as (_ & _ & _ & Hl1). cbn [rebased_index] in Hl1.
      unfold Live.cooled. rewrite Hl1. change Live.COOLDOWN_FRAMES with 45.
      destruct (Z.ltb_spec (Live.current_idx st1 - -100) 45); [lia|reflexivity]. }
  assert (Hstab : Live.stable st1 = (8 <=? Live.stability_count st1)).
  { unfold Live.stable. change Live.STABILITY_REQUIRED with 8.
    destruct (Z.ltb_spec (Live.stability_count st1) 8),
             (Z.leb_spec 8 (Live.stability_count st1)); try reflexivity; lia. }
  pose proof (live_update_from_spec st (Live.in_frame i) (Live.in_landmarks i) f
                (Live.in_now i) st1 Hwf Hi) as Hspec.
  cbn zeta in Hspec.
  set (R := Live.current_idx st1) in *.
  set (rb := scan (Live.elbow_angles st1) (range (Z.max 0 (R - 60)) R) (infinity, R)) in *.
  destruct Hinv1 as (Hwf1 & Hn1 & Hlenb & Hidx1).
  assert (HR : R = n - Z.max 0 (n + 1 - Live.max_buffer)).
  { unfold R, Live.current_idx. rewrite Hlenb.
    change Live.max_buffer with 180. lia. }
  destruct (stream_verdict_keys Live.max_buffer (A ++ [feat_angle f]) n)
    as (Hd & Hfst & Hkeys);
    [change Live.max_buffer with 180; lia
    |rewrite len_app; change (len [feat_angle f]) with 1; lia|].
  cbn zeta in Hd, Hfst, Hkeys. rewrite <- HR, <- Hea1 in Hd, Hfst, Hkeys.
  fold rb in Hd, Hfst, Hkeys.
  unfold stream_verdict. rewrite <- Hcool, <- Hd, <- Hfst.
  destruct (Live.stable st1 && Live.cooled st1 && Live.released f
            && negb (R - snd rb <? 10)) eqn:Hall.
  - destruct Hspec as (ev & x & Hu & Hloc & Hb & Hfa & Hta).
    exists (Live.record_shot st1 R), (Some ev). split; [exact Hu|].
    split.
    { unfold live_inv, live_wf, rebased_index in *.
      cbn [Live.record_shot Live.frames_buffer Live.landmarks_buffer
           Live.elbow_angles Live.wrist_heights Live.last_shot_frame].
      change Live.max_buffer with 180 in *.
      repeat split; try tauto; try lia. }
    split; [exact Hea1|]. split; [exact Hsc|].
    apply andb_prop in Hall. destruct Hall as [Hall Hdd].
    apply negb_true_iff in Hdd.
    cbn [Live.record_shot Live.stability_count].
    rewrite <- Hstab, Hall, Hdd.
    eexists. split; [reflexivity|].
    unfold live_detection.
    change (Live.current_idx (Live.record_shot st1 R)) with R.
    rewrite live_locate_record_shot, Hloc. cbn [fmap list_fmap Live.loc_keys].
    f_equal. unfold to_stream. cbn [det_frame det_keys det_load_angle det_release_angle].
    apply live_build_inv in Hb. cbn zeta in Hb.
    destruct Hb as (f1 & f2 & f3 & f4 & f5 & f6 & f7 & f8 & ra & ll & rl & _ & _ & _
                    & _ & _ & _ & _ & _ & Hra & _ & _ & ->).
    cbn [Live.elbow_angle_load Live.elbow_angle_release Live.loc_min_angle].
    cbn [Live.loc_keys sampled release_idx] in Hra.
    pose proof (live_ingest_last _ _ _ _ _ Hwf Hi) as (_ & _ & Hlea & _ & _ & Hnew & _).
    fold R in Hlea, Hnew.
    destruct (Z.ltb_spec R (len (Live.elbow_angles st1))); [|lia].
    apply getitem_inv in Hra; [|lia]. destruct Hra as [_ Hra].
    rewrite Hnew, Hfa in Hra. injection Hra as <-. rewrite Hta, Hfa.
    cbn [default].
    replace (len (Live.frames_buffer st1)) with (R + 1)
      by (unfold R, Live.current_idx; lia).
    rewrite Hfa in Hkeys. rewrite (Hkeys Hdd). reflexivity.
  - exists st1, None. split; [exact Hspec|].
    split; [unfold live_inv; auto|]. split; [exact Hea1|]. split; [exact Hsc|].
    rewrite <- Hstab.
    destruct (Live.stable st1 && Live.cooled st1 && Live.released f);
      [|reflexivity].
    cbn [andb] in Hall. apply negb_false_iff in Hall. rewrite Hall. reflexivity.
Qed.

End Streams.

Section StreamRuns.
Context `{External}.

Lemma live_stream_from (pairs : list (Live.input * features)) : ∀ n a A st,
  live_inv n a st → Live.elbow_angles st = newest Live.max_buffer A → len A = n →
  to_stream Live.max_buffer <$> live_detections_from n st pairs
  = stream_detections_from n (Live.stability_count st) a A (snd <$> pairs).
Proof.
  induction pairs as [|[i f] pairs IH]; intros n a A st Hinv Hea HA; [reflexivity|].
  cbn [live_detections_from fmap list_fmap snd stream_detections_from].
  destruct (live_stream_step n a A st i f Hinv Hea HA)
    as (st' & o & Hu & Hinv' & Hea' & Hsc & Hv).
  rewrite Hu. rewrite <- Hsc.
  assert (HA' : len (A ++ [feat_angle f]) = n + 1)
    by (rewrite len_app; change (len [feat_angle f]) with 1; lia).
  destruct o as [ev|].
  - destruct Hv as (d & Hv & Hd). rewrite Hv.
    rewrite fmap_app, Hd. cbn [app]. f_equal.
    apply (IH (n + 1) (Some n) _ st' Hinv' Hea' HA').
  - rewrite Hv. apply (IH (n + 1) a _ st' Hinv' Hea' HA').
Qed.

(** One call of the debugger against the verdict on the stream. *)
Lemma debug_stream_step n a A st (i : Debug.input) :
  debug_inv n a st → debug_angles st = newest Debug.max_buffer A → len A = n →
  let f := debug_measure (Debug.side st) i in
  ∃ st' o,
    Debug.step st i = Ok (st', o)
    ∧ debug_inv (n + 1) (match o with Some _ => Some n | None => a end) st'
    ∧ debug_angles st' = newest Debug.max_buffer (A ++ [feat_angle f])
    ∧ Debug.stability_count st'
      = (if feat_stable f then Debug.stability_count st + 1 else 0)
    ∧ Debug.side st' = Debug.side st
    ∧ stream_verdict (Debug.stability_count st') a (A ++ [feat_angle f]) n f
      = to_stream Debug.max_buffer <$> (head (shot_detections_from n [o])).
Proof.
  intros Hinv Hea HA f. pose proof Hinv as (Hwf & Hn & Hlen & Hidx).
  destruct (Debug.ingest st (Debug.in_frame i) (Debug.in_landmarks i) f
              (Debug.in_frame_num i) (Debug.in_timestamp_ms i))
    as [st1|e] eqn:Hi; [|rewrite debug_ingest_spec in Hi by exact Hwf; discriminate].
  pose proof (debug_inv_ingest _ _ _ _ _ _ _ _ _ Hinv Hi) as Hinv1.
  pose proof (debug_ingest_newest _ _ _ _ _ _ _ Hwf Hi)
    as (Hcur & Hlen1 & _ & Hsc & Hlast & _).
  assert (Hea1 : debug_angles st1 = newest Debug.max_buffer (A ++ [feat_angle f])
                 ∧ Debug.side st1 = Debug.side st).
  { pose proof Hi as Hi'. rewrite debug_ingest_spec in Hi' by exact Hwf.
    injection Hi' as <-. split; [|reflexivity]. unfold debug_angles in *.
    cbn [debug_trimmed debug_appended Debug.metrics_buffer].
    rewrite fmap_drop, fmap_app, Hea. cbn [fmap list_fmap Debug.metrics_of Debug.elbow_angle].
    apply newest_snoc; [reflexivity|].
    unfold debug_evicted. rewrite Hlen.
    rewrite len_newest by (change Debug.max_buffer with 200; lia).
    rewrite HA. reflexivity. }
  destruct Hea1 as [Hea1 Hsd1].
  assert (Hcool : Debug.cooled st1
                  = match a with Some a => 45 <=? n - a | None => true end).
  { destruct a as [a|].
    - rewrite (debug_cooled_true_distance _ _ _ _ _ _ _ _ _ Hinv Hi).
      change Debug.COOLDOWN_FRAMES with 45.
      destruct (Z.ltb_spec (n - a) 45), (Z.leb_spec 45 (n - a)); try reflexivity; lia.
    - destruct Hinv1 as (_ & _ & _ & Hl1). cbn [rebased_index] in Hl1.
      unfold Debug.cooled. rewrite Hl1. change Debug.COOLDOWN_FRAMES with 45.
      destruct (Z.ltb_spec (Debug.current_idx st1 - -100) 45); [lia|reflexivity]. }
  assert (Hstab : Debug.stable st1 = (8 <=? Debug.stability_count st1)).
  { unfold Debug.stable. change Debug.STABILITY_REQUIRED with 8.
    destruct (Z.ltb_spec (Debug.stability_count st1) 8),
             (Z.leb_spec 8 (Debug.stability_count st1)); try reflexivity; lia. }
  pose proof (debug_process_spec st (Debug.in_frame i) (Debug.in_landmarks i)
                (Debug.in_visibility i) (Debug.in_frame_num i)
                (Debug.in_timestamp_ms i) st1 Hi) as Hspec.
  cbn zeta in Hspec. fold (debug_measure (Debug.side st) i) in Hspec. fold f in Hspec.
  set (R := Debug.current_idx st1) in *.
  set (rb := scan (debug_angles st1) (range (Z.max 0 (R - 60)) R) (infinity, R)) in *.
  destruct Hinv1 as (Hwf1 & Hn1 & Hlenb & Hidx1).
  assert (HR : R = n - Z.max 0 (n + 1 - Debug.max_buffer)).
  { unfold R, Debug.current_idx. rewrite Hlenb.
    change Debug.max_buffer with 200. lia. }
  destruct (stream_verdict_keys Debug.max_buffer (A ++ [feat_angle f]) n)
    as (Hd & Hfst & Hkeys);
    [change Debug.max_buffer with 200; lia
    |rewrite len_app; change (len [feat_angle f]) with 1; lia|].
  cbn zeta in Hd, Hfst, Hkeys. rewrite <- HR, <- Hea1 in Hd, Hfst, Hkeys.
  fold rb in Hd, Hfst, Hkeys.
  unfold stream_verdict. rewrite <- Hcool, <- Hd, <- Hfst.
  change (Live.released f) with (Debug.released f).
  unfold Debug.step. rewrite Hspec.
  destruct (Debug.stable st1 && Debug.cooled st1 && Debug.released f
            && negb (R - snd rb <? 10)) eqn:Hall.
  - eexists _, _. split; [reflexivity|].
    split.
    { unfold debug_inv, debug_wf, rebased_index in *.
      cbn [Debug.record_shot Debug.append_shot Debug.set_shot_count
           Debug.frames_buffer Debug.metrics_buffer Debug.last_shot_frame].
      change Debug.max_buffer with 200 in *.
      repeat split; try tauto; try lia. }
    split; [exact Hea1|]. split; [exact Hsc|]. split; [exact Hsd1|].
    apply andb_prop in Hall. destruct Hall as [Hall Hdd].
    apply negb_true_iff in Hdd.
    cbn [Debug.record_shot Debug.append_shot Debug.set_shot_count
         Debug.stability_count].
    rewrite <- Hstab, Hall, Hdd.
    cbn [shot_detections_from head fmap option_fmap option_map debug_shot
         Debug.keys Debug.load_angle Debug.release_angle].
    f_equal. unfold to_stream.
    cbn [det_frame det_keys det_load_angle det_release_angle].
    replace (len (Debug.frames_buffer st1)) with (R + 1)
      by (unfold R, Debug.current_idx; lia).
    rewrite (Hkeys Hdd). reflexivity.
  - exists st1, None. split; [reflexivity|].
    split; [unfold debug_inv; auto|]. split; [exact Hea1|]. split; [exact Hsc|].
    split; [exact Hsd1|].
    rewrite <- Hstab.
    destruct (Debug.stable st1 && Debug.cooled st1 && Debug.released f);
      [|reflexivity].
    cbn [andb] in Hall. apply negb_false_iff in Hall. rewrite Hall. reflexivity.
Qed.

Lemma debug_stream_from (sd : string) (inputs : list Debug.input) : ∀ n a A st,
  debug_inv n a st → debug_angles st = newest Debug.max_buffer A → len A = n →
  Debug.side st = sd →
  ∃ st' evs,
    Debug.run st inputs = Ok (st', evs)
    ∧ to_stream Debug.max_buffer <$> shot_detections_from n evs
      = stream_detections_from n (Debug.stability_count st) a A
          (debug_measure sd <$> inputs).
Proof.
  induction inputs as [|i inputs IH]; intros n a A st Hinv Hea HA Hsd.
  - exists st, []. split; reflexivity.
  - destruct (debug_stream_step n a A st i Hinv Hea HA)
      as (st1 & o & Hs & Hinv1 & Hea1 & Hsc & Hsd1 & Hv).
    cbn zeta in *. rewrite Hsd in *.
    assert (HA' : len (A ++ [feat_angle (debug_measure sd i)]) = n + 1)
      by (rewrite len_app; change (len [_]) with 1; lia).
    destruct (IH (n + 1) _ _ st1 Hinv1 Hea1 HA' Hsd1) as (st' & evs & Hr & Hdets).
    exists st', (o :: evs). cbn [Debug.run]. rewrite Hs. cbn [mbind result_bind].
    rewrite Hr. cbn [mbind result_bind]. split; [reflexivity|].
    cbn [fmap list_fmap stream_detections_from]. rewrite <- Hsc, Hv.
    destruct o as [shot|];
      cbn [shot_detections_from head fmap list_fmap option_fmap option_map];
      rewrite <- Hdets; reflexivity.
Qed.

End StreamRuns.

(** ** Events of a run *)

Section EventsOfRuns.
Context `{External}.

(** The call behind outcome [n] of a run of the live detector, with the
    trace before and after it. *)
Lemma live_event_at sd inputs st evs (n : nat) o :
  Live.run (Live.init sd) inputs = Ok (st, evs) → evs !! n = Some o →
  ∃ i stn stn',
    inputs !! n = Some i ∧ length (take n inputs) = n
    ∧ live_trace sd (take n inputs) stn (take n evs)
    ∧ Live.step stn i = Ok (stn', o)
    ∧ live_trace sd (take n inputs ++ [i]) stn' (take n evs ++ [o]).
Proof.
  intros Hr Hn. rewrite live_run_with in Hr.
  destruct (run_with_at _ _ _ _ _ _ _ Hr Hn) as (i & stn & stn' & Hi & Hrn & Hs).
  destruct (live_run_trace sd (take n inputs)) as (st0 & evs0 & Hr0 & Hl0 & Ht0).
  rewrite live_run_with, Hrn in Hr0. injection Hr0 as <- <-.
  exists i, stn, stn'. split; [exact Hi|].
  split; [apply length_take_le; apply lookup_lt_Some in Hi; lia|].
  split; [exact Ht0|]. split; [exact Hs|].
  apply (live_trace_step sd _ stn _ i stn' o Hl0 Ht0 Hs).
Qed.

Lemma debug_event_at sd inputs st evs (n : nat) o :
  Debug.run (Debug.init sd) inputs = Ok (st, evs) → evs !! n = Some o →
  ∃ i stn stn',
    inputs !! n = Some i ∧ length (take n inputs) = n
    ∧ debug_trace sd (take n inputs) stn (take n evs)
    ∧ Debug.step stn i = Ok (stn', o)
    ∧ debug_trace sd (take n inputs ++ [i]) stn' (take n evs ++ [o]).
Proof.
  intros Hr Hn. rewrite debug_run_with in Hr.
  destruct (run_with_at _ _ _ _ _ _ _ Hr Hn) as (i & stn & stn' & Hi & Hrn & Hs).
  destruct (debug_run_trace sd (take n inputs)) as (st0 & evs0 & Hr0 & Hl0 & Ht0).
  rewrite debug_run_with, Hrn in Hr0. injection Hr0 as <- <-.
  exists i, stn, stn'. split; [exact Hi|].
  split; [apply length_take_le; apply lookup_lt_Some in Hi; lia|].
  split; [exact Ht0|]. split; [exact Hs|].
  apply (debug_trace_step sd _ stn _ i stn' o Hl0 Ht0 Hs).
Qed.

(** A call of a run, with the run up to it; on a stream of angles in
    degrees the buffer it leaves holds angles in degrees only. *)
Lemma live_call_in_degrees sd inputs st evs (n : nat) o :
  (∀ i a, i ∈ inputs → feat_angle (live_measure sd i) = Some a →
          in_degrees a = true) →
  Live.run (Live.init sd) inputs = Ok (st, evs) → evs !! n = Some o →
  ∃ i stn stn',
    inputs !! n = Some i
    ∧ Live.run (Live.init sd) (take n inputs) = Ok (stn, take n evs)
    ∧ Live.step stn i = Ok (stn', o)
    ∧ ∀ lo hi, window_in_degrees (Live.elbow_angles stn') lo hi.
Proof.
  intros Hdeg Hr Hn. rewrite live_run_with in Hr.
  destruct (run_with_at _ _ _ _ _ _ _ Hr Hn) as (i & stn & stn' & Hi & Hrn & Hs).
  destruct (live_run_trace sd (take n inputs)) as (st0 & evs0 & Hr0 & Hl0 & Ht0).
  rewrite live_run_with, Hrn in Hr0. injection Hr0 as <- <-.
  exists i, stn, stn'. split; [exact Hi|].
  split; [rewrite live_run_with; exact Hrn|]. split; [exact Hs|].
  pose proof (live_trace_step sd _ stn _ i stn' o Hl0 Ht0 Hs)
    as (_ & _ & _ & _ & He & _).
  rewrite He. apply window_in_degrees_elem. intros a Ha.
  apply (subseteq_drop _ _ _) in Ha.
  apply list_elem_of_fmap in Ha. destruct Ha as (f & Hf & Ha).
  apply list_elem_of_fmap in Ha. destruct Ha as (x & -> & Hx).
  apply (Hdeg x a); [|symmetry; exact Hf].
  apply elem_of_app in Hx. destruct Hx as [Hx|Hx].
  - apply (subseteq_take _ _ _ Hx).
  - apply list_elem_of_singleton in Hx. subst x.
    apply (list_elem_of_lookup_2 _ _ _ Hi).
Qed.

Lemma debug_call_in_degrees sd inputs st evs (n : nat) o :
  (∀ i a, i ∈ inputs → feat_angle (debug_measure sd i) = Some a →
          in_degrees a = true) →
  Debug.run (Debug.init sd) inputs = Ok (st, evs) → evs !! n = Some o →
  ∃ i stn stn',
    inputs !! n = Some i
    ∧ Debug.run (Debug.init sd) (take n inputs) = Ok (stn, take n evs)
    ∧ Debug.step stn i = Ok (stn', o)
    ∧ ∀ lo hi, window_in_degrees (debug_angles stn') lo hi.
Proof.
  intros Hdeg Hr Hn. rewrite debug_run_with in Hr.
  destruct (run_with_at _ _ _ _ _ _ _ Hr Hn) as (i & stn & stn' & Hi & Hrn & Hs).
  destruct (debug_run_trace sd (take n inputs)) as (st0 & evs0 & Hr0 & Hl0 & Ht0).
  rewrite debug_run_with, Hrn in Hr0. injection Hr0 as <- <-.
  exists i, stn, stn'. split; [exact Hi|].
  split; [rewrite debug_run_with; exact Hrn|]. split; [exact Hs|].
  pose proof (debug_trace_step sd _ stn _ i stn' o Hl0 Ht0 Hs)
    as (_ & _ & _ & Hm & _).
  unfold debug_angles. rewrite Hm. apply window_in_degrees_elem. intros a Ha.
  apply list_elem_of_fmap in Ha. destruct Ha as (m & Hf & Ha).
  apply (subseteq_drop _ _ _) in Ha.
  apply list_elem_of_fmap in Ha. destruct Ha as (x & -> & Hx).
  apply (Hdeg x a); [|symmetry; exact Hf].
  apply elem_of_app in Hx. destruct Hx as [Hx|Hx].
  - apply (subseteq_take _ _ _ Hx).
  - apply list_elem_of_singleton in Hx. subst x.
    apply (list_elem_of_lookup_2 _ _ _ Hi).
Qed.

(** The inputs behind a streak that ends at position [n] of a stream. *)
Lemma streak_inputs {I} (measure : I → features) (inputs : list I) (i : I) (n : nat) :
  inputs !! n = Some i → length (take n inputs) = n →
  8 ≤ streak (measure <$> take n inputs ++ [i]) →
  (7 ≤ n)%nat
  ∧ ∀ j : nat, (n - 7 ≤ j ≤ n)%nat →
      ∃ x, inputs !! j = Some x ∧ feat_stable (measure x) = true.
Proof.
  intros Hi Hlen Hs.
  destruct (streak_tracked (measure <$> take n inputs ++ [i])) as [Hb Hall].
  assert (Hl : len (measure <$> take n inputs ++ [i]) = Z.of_nat n + 1).
  { unfold len. rewrite length_fmap, length_app, Hlen. cbn [length]. lia. }
  split; [lia|]. intros j Hj.
  destruct (Hall j ltac:(lia)) as (f & Hf & Hst).
  rewrite list_lookup_fmap in Hf.
  destruct ((take n inputs ++ [i]) !! j) as [x|] eqn:Ex; [|discriminate].
  injection Hf as <-. exists x. split; [|exact Hst].
  rewrite <- (take_S_r inputs n i Hi) in Ex.
  rewrite lookup_take_lt in Ex by lia. exact Ex.
Qed.

(** No event before position 10, and 45 positions between events. *)
Lemma live_run_schedule sd inputs st evs :
  Live.run (Live.init sd) inputs = Ok (st, evs) →
  Forall (λ n, 10 ≤ n) (emitted_at evs) ∧ gaps_at_least 45 (emitted_at evs).
Proof.
  rewrite live_run_with. intros Hr.
  enough (Hall : length evs = length inputs ∧ live_trace sd inputs st evs
                 ∧ Forall (λ n, 10 ≤ n) (emitted_at evs)
                 ∧ gaps_at_least 45 (emitted_at evs)) by tauto.
  revert inputs st evs Hr.
  apply (run_with_inv Live.step (Live.init sd)
           (λ l st evs, length evs = length l ∧ live_trace sd l st evs
              ∧ Forall (λ n, 10 ≤ n) (emitted_at evs)
              ∧ gaps_at_least 45 (emitted_at evs))).
  - split; [reflexivity|]. split; [apply live_trace_init|].
    split; [constructor|exact I].
  - intros l st evs i st' o _ (Hlen & Ht & Hten & Hgap) Hs.
    pose proof (live_trace_step sd l st evs i st' o Hlen Ht Hs) as Ht'.
    split; [rewrite !length_app, Hlen; reflexivity|]. split; [exact Ht'|].
    rewrite emitted_at_snoc. destruct o as [ev|]; [|rewrite app_nil_r; auto].
    assert (Hle : len evs = len l) by (unfold len; lia).
    split.
    + apply Forall_app. split; [exact Hten|]. constructor; [|constructor].
      unfold Live.step in Hs.
      destruct (live_emitted _ _ _ _ _ _ _ Hs) as (loc & L & _ & _ & _ & _ & Hb & _).
      destruct Ht' as ((_ & _ & Hlb & _) & _).
      rewrite len_app in Hlb. change (len [i]) with 1 in Hlb.
      unfold Live.current_idx in Hb. change Live.max_buffer with 180 in Hlb. lia.
    + apply gaps_at_least_snoc; [exact Hgap|]. intros a Ha.
      rewrite last_emitted_at in Ha.
      destruct Ht as (Hinv & _). rewrite Ha in Hinv.
      unfold Live.step in Hs. apply live_update_Some in Hs.
      destruct Hs as (st1 & loc & Hi & _ & Hc & _).
      rewrite (live_cooled_true_distance _ _ _ _ _ _ _ Hinv Hi) in Hc.
      change Live.COOLDOWN_FRAMES with 45 in Hc.
      apply negb_true_iff, Z.ltb_ge in Hc. lia.
Qed.

Lemma debug_run_schedule sd inputs st evs :
  Debug.run (Debug.init sd) inputs = Ok (st, evs) →
  Forall (λ n, 10 ≤ n) (emitted_at evs) ∧ gaps_at_least 45 (emitted_at evs).
Proof.
  rewrite debug_run_with. intros Hr.
  enough (Hall : length evs = length inputs ∧ debug_trace sd inputs st evs
                 ∧ Forall (λ n, 10 ≤ n) (emitted_at evs)
                 ∧ gaps_at_least 45 (emitted_at evs)) by tauto.
  revert inputs st evs Hr.
  apply (run_with_inv Debug.step (Debug.init sd)
           (λ l st evs, length evs = length l ∧ debug_trace sd l st evs
              ∧ Forall (λ n, 10 ≤ n) (emitted_at evs)
              ∧ gaps_at_least 45 (emitted_at evs))).
  - split; [reflexivity|]. split; [apply debug_trace_init|].
    split; [constructor|exact I].
  - intros l st evs i st' o _ (Hlen & Ht & Hten & Hgap) Hs.
    pose proof (debug_trace_step sd l st evs i st' o Hlen Ht Hs) as Ht'.
    split; [rewrite !length_app, Hlen; reflexivity|]. split; [exact Ht'|].
    rewrite emitted_at_snoc. destruct o as [shot|]; [|rewrite app_nil_r; auto].
    assert (Hle : len evs = len l) by (unfold len; lia).
    split.
    + apply Forall_app. split; [exact Hten|]. constructor; [|constructor].
      unfold Debug.step in Hs.
      destruct (debug_emitted _ _ _ _ _ _ _ _ Hs) as (L & _ & Hb & _).
      destruct Ht' as ((_ & _ & Hlb & _) & _).
      rewrite len_app in Hlb. change (len [i]) with 1 in Hlb.
      unfold Debug.current_idx in Hb. change Debug.max_buffer with 200 in Hlb. lia.
    + apply gaps_at_least_snoc; [exact Hgap|]. intros a Ha.
      rewrite last_emitted_at in Ha.
      destruct Ht as (Hinv & _). rewrite Ha in Hinv.
      unfold Debug.step in Hs. apply debug_process_Some in Hs.
      destruct Hs as (st1 & Hi & _ & Hc & _).
      rewrite (debug_cooled_true_distance _ _ _ _ _ _ _ _ _ Hinv Hi) in Hc.
      change Debug.COOLDOWN_FRAMES with 45 in Hc.
      apply negb_true_iff, Z.ltb_ge in Hc. lia.
Qed.

End EventsOfRuns.

(** ** Subscripts from the end *)

Lemma getitem_last {A} (l : list A) (x : A) :
  0 < len l → l !! Z.to_nat (len l - 1) = Some x → getitem l (-1) = Ok x.
Proof.
  intros Hl Hx. unfold getitem.
  destruct (Z.ltb_spec (-1) 0); [|lia].
  destruct (Z.ltb_spec (-1 + len l) 0); [lia|].
  replace (-1 + len l) with (len l - 1) by lia. rewrite Hx. reflexivity.
Qed.

(** ** What the debugger writes *)

Section DebugOutputs.
Context `{External}.

(** The shot of a call on buffers of one length: its release is the newest
    position, and its slice of the metrics runs to the end of the buffer. *)
Lemma debug_emitted_slice st frame landmarks visibility frame_num timestamp_ms st' shot :
  debug_wf st →
  Debug.process_frame st frame landmarks visibility frame_num timestamp_ms
  = Ok (st', Some shot) →
  let n := len (Debug.frames_buffer st') in
  ∃ L, Debug.keys shot = sampled L (n - 1) n ∧ 0 ≤ L ≤ n - 11
    ∧ len (Debug.metrics_buffer st') = n
    ∧ Debug.frame_start shot = Z.max 0 (Z.max 0 (L - 5) - 10)
    ∧ Debug.frame_metrics shot
      = drop (Z.to_nat (Debug.frame_start shot)) (Debug.metrics_buffer st').
Proof.
  intros Hwf Hp n.
  destruct (debug_process_total st frame landmarks visibility frame_num
              timestamp_ms Hwf) as (st2 & o & Hp2 & Hwf').
  rewrite Hp in Hp2. injection Hp2 as <- <-.
  destruct (debug_emitted _ _ _ _ _ _ _ _ Hp)
    as (L & Hk & Hbd & _ & Hfm & Hfs & Hfe & _).
  unfold Debug.current_idx in *. fold n in Hk, Hbd.
  assert (Hn : len (Debug.metrics_buffer st') = n)
    by (unfold n, len; rewrite Hwf'; reflexivity).
  exists L. split; [exact Hk|]. split; [lia|]. split; [exact Hn|].
  rewrite Hk in Hfs, Hfe. cbn [sampled stance_idx followthrough_idx] in Hfs, Hfe.
  split; [exact Hfs|]. rewrite Hfm. unfold slice. rewrite Hn, Hfe, Hn.
  destruct (Z.ltb_spec (Debug.frame_start shot) 0); [lia|].
  destruct (Z.ltb_spec (Z.min n (Z.min (n - 1 + 5) (n - 1) + 10)) 0); [lia|].
  rewrite take_ge; [f_equal; lia|].
  rewrite length_drop. unfold len in Hn. lia.
Qed.

End DebugOutputs.

(** ** More of the order of binary64 values *)

Lemma SFleb_negb_ltb a b :
  SFleb a a = true → SFleb b b = true → SFleb a b = negb (SFltb b a).
Proof. sf_solve. Qed.

(** Between two values that are not NaN, [a <= b] is [not (b < a)]. *)
Lemma fleb_negb_ltb a b :
  PrimFloat.leb a a = true → PrimFloat.leb b b = true →
  PrimFloat.leb a b = negb (PrimFloat.ltb b a).
Proof. rewrite !leb_spec, ltb_spec. apply SFleb_negb_ltb. Qed.

(** ** The session *)

Section SessionLemmas.
Context `{External}.

Lemma get_current_angle_Ok (st : Live.state) : ∃ o, get_current_angle st = Ok o.
Proof.
  unfold get_current_angle.
  destruct (Live.elbow_angles st) as [|x l] eqn:El; [eauto|].
  assert (Hl : 0 < len (x :: l)) by (rewrite len_cons; pose proof (len_nonneg l); lia).
  destruct (getitem_Ok (x :: l) (len (x :: l) - 1)) as (a & _ & La); [lia|].
  rewrite (getitem_last (x :: l) a Hl La). cbn [mbind result_bind].
  destruct (otruthy a); eauto.
Qed.

Lemma avg_metrics_None (mean : list float → float) (l : list Session.ShotMetrics) :
  Session.avg_metrics mean l = None ↔ len l = 0.
Proof.
  destruct l as [|s l]; cbn [Session.avg_metrics].
  - split; reflexivity.
  - rewrite len_cons. pose proof (len_nonneg l). split; [discriminate|lia].
Qed.

Lemma len_filter_snoc {A} (P : A → bool) (l : list A) (x : A) :
  len (List.filter P (l ++ [x])) = len (List.filter P l) + (if P x then 1 else 0).
Proof.
  rewrite List.filter_app, len_app. cbn [List.filter].
  destruct (P x); reflexivity.
Qed.

Lemma len_filter_le {A} (P : A → bool) (l : list A) :
  len (List.filter P l) ≤ len l.
Proof. unfold len. pose proof (List.filter_length_le P l). lia. Qed.

(** No entry of the metrics counts both as a make and as a miss. *)
Lemma len_makes_misses (l : list Session.ShotMetrics) :
  len (List.filter Session.counts_make l) + len (List.filter Session.counts_miss l)
  ≤ len l.
Proof.
  induction l as [|m l IH]; [unfold len; cbn [List.filter length]; lia|].
  cbn [List.filter]. unfold Session.counts_make at 1, Session.counts_miss at 1.
  destruct (Session.is_not_none (Session.m_made m));
    destruct (Session.truth (Session.m_made m)); cbn [andb negb];
    rewrite !len_cons; lia.
Qed.

Lemma len_filter_mono {A} (P Q : A → bool) (l : list A) :
  (∀ x, P x = true → Q x = true) →
  len (List.filter P l) ≤ len (List.filter Q l).
Proof.
  intros Himp. induction l as [|x l IH]; [cbn [List.filter]; lia|].
  cbn [List.filter]. destruct (P x) eqn:Ep.
  - pose proof (Himp x Ep) as Eq. rewrite Eq, !len_cons. lia.
  - destruct (Q x); rewrite ?len_cons; lia.
Qed.

Lemma feqb_one_truthy (x : float) : PrimFloat.eqb x 1 = true → truthy x = true.
Proof.
  unfold truthy. rewrite !FloatAxioms.eqb_spec.
  change (Prim2SF 1) with (S754_finite false 4503599627370496 (-52)).
  change (Prim2SF 0) with (S754_zero false).
  destruct (Prim2SF x) as [[]|[]| |[] ? ?]; unfold SFeqb, SFcompare;
    try discriminate; reflexivity.
Qed.

(** What equals [True] counts as a make, what equals [False] as a miss. *)
Lemma is_make_counts (m : Session.ShotMetrics) :
  Session.is_make m = true → Session.counts_make m = true.
Proof.
  unfold Session.is_make, Session.counts_make.
  destruct (Session.m_made m) as [|b|z|x|s|l|d]; cbn; try discriminate.
  - auto.
  - intros Hz. apply Z.eqb_eq in Hz. subst z. reflexivity.
  - apply feqb_one_truthy.
Qed.

Lemma is_miss_counts (m : Session.ShotMetrics) :
  Session.is_miss m = true → Session.counts_miss m = true.
Proof.
  unfold Session.is_miss, Session.counts_miss.
  destruct (Session.m_made m) as [|b|z|x|s|l|d]; cbn; try discriminate.
  - auto.
  - intros ->. reflexivity.
  - unfold truthy. intros ->. reflexivity.
Qed.

(** On [true], [false] and [None] the two readings of [made] agree. *)
Lemma plain_counts (l : list Session.ShotMetrics) :
  Forall (λ m, Session.plain (Session.m_made m) = true) l →
  List.filter Session.is_make l = List.filter Session.counts_make l
  ∧ List.filter Session.is_miss l = List.filter Session.counts_miss l.
Proof.
  intros Hall. rewrite Forall_forall in Hall.
  split; apply List.filter_ext_in; intros m Hm;
    apply list_elem_of_In, Hall in Hm;
    unfold Session.is_make, Session.is_miss, Session.counts_make,
      Session.counts_miss;
    destruct (Session.m_made m) as [|b|z|x|s|k|d]; try discriminate Hm;
    try reflexivity; destruct b; reflexivity.
Qed.

(** The counters against the stored metrics, across a reply. *)
Lemma on_shot_analyzed_tallied (s : Session.LiveState) (shot : Live.ShotEvent)
    (an : Session.Analysis) (t1 t2 : float) :
  Session.tallied s → Session.tallied (Session.on_shot_analyzed s shot an t1 t2).
Proof.
  intros (Hm & Hx & Hh). unfold Session.tallied.
  cbn [Session.on_shot_analyzed Session.shots_made Session.shots_missed
       Session.shot_history Session.shot_metrics].
  rewrite !len_filter_snoc, !len_app, !len_cons.
  unfold Session.counts_make at 2, Session.counts_miss at 2. cbn [Session.m_made].
  unfold len in *. cbn [length].
  destruct (Session.is_not_none (Session.made an));
    destruct (Session.truth (Session.made an)); cbn [andb negb];
    repeat split; lia.
Qed.

Lemma replies_tallied (cs : list (Live.ShotEvent * Session.Analysis * float * float))
    (s : Session.LiveState) :
  Session.tallied s → Session.tallied (Session.replies s cs).
Proof.
  unfold Session.replies. revert s.
  induction cs as [|c cs IH]; intros s Hs; [exact Hs|].
  cbn [foldl]. apply IH, on_shot_analyzed_tallied, Hs.
Qed.

(** Every stored [made] is the [made] of a reply. *)
Lemma replies_made (P : Session.pyval → Prop)
    (cs : list (Live.ShotEvent * Session.Analysis * float * float))
    (s : Session.LiveState) :
  (∀ c, c ∈ cs → P (Session.made c.1.1.2)) →
  Forall (λ m, P (Session.m_made m)) (Session.shot_metrics s) →
  Forall (λ m, P (Session.m_made m)) (Session.shot_metrics (Session.replies s cs)).
Proof.
  unfold Session.replies. revert s.
  induction cs as [|c cs IH]; intros s Hcs Hs; [exact Hs|].
  cbn [foldl]. apply IH.
  - intros c' Hc'. apply Hcs. right. exact Hc'.
  - cbn [Session.on_shot_analyzed Session.shot_metrics].
    apply Forall_app. split; [exact Hs|].
    constructor; [|constructor]. cbn [Session.m_made]. apply Hcs. left.
Qed.

Lemma replies_total_shots (cs : list (Live.ShotEvent * Session.Analysis * float * float))
    (s : Session.LiveState) :
  Session.total_shots (Session.replies s cs) = Session.total_shots s.
Proof.
  unfold Session.replies. revert s.
  induction cs as [|c cs IH]; intros s; [reflexivity|].
  cbn [foldl]. rewrite IH. reflexivity.
Qed.

Lemma arrived_total_shots (a : Session.analyzer) (t : Session.tick) :
  Session.total_shots (Session.arrived a t) = Session.total_shots (Session.state a).
Proof.
  unfold Session.arrived. destruct (Session.gemini_enabled a); [|reflexivity].
  apply replies_total_shots.
Qed.

Lemma arrived_tallied (a : Session.analyzer) (t : Session.tick) :
  Session.tallied (Session.state a) → Session.tallied (Session.arrived a t).
Proof.
  unfold Session.arrived. destruct (Session.gemini_enabled a); [|auto].
  apply replies_tallied.
Qed.

Lemma arrived_made (P : Session.pyval → Prop) (a : Session.analyzer)
    (t : Session.tick) :
  (∀ c, c ∈ Session.tick_replies t → P (Session.made c.1.1.2)) →
  Forall (λ m, P (Session.m_made m)) (Session.shot_metrics (Session.state a)) →
  Forall (λ m, P (Session.m_made m))
    (Session.shot_metrics (Session.arrived a t)).
Proof.
  unfold Session.arrived. destruct (Session.gemini_enabled a); [|auto].
  apply replies_made.
Qed.

Lemma pixels_ok_side (t : Session.tick) (i : Live.input) (sd : string) :
  Session.tick_input t = Some i → Session.pixels_ok t = true →
  sd = "left" ∨ sd = "right" →
  ∃ px, Session.wrist_px sd (Live.in_landmarks i) (Session.tick_shape t) = Ok px.
Proof.
  unfold Session.pixels_ok. intros -> Hp Hsd. cbn [forallb] in Hp.
  apply andb_prop in Hp. destruct Hp as [Hl Hr].
  apply andb_prop in Hr. destruct Hr as [Hr _].
  destruct Hsd as [-> | ->].
  - destruct (Session.wrist_px "left" _ _); [eauto|discriminate].
  - destruct (Session.wrist_px "right" _ _); [eauto|discriminate].
Qed.

(** One pass of the loop on a detector with buffers of one length: it does
    not raise, and it numbers the shot it hands on with the new total. *)
Lemma iteration_spec (a : Session.analyzer) (t : Session.tick) :
  live_wf (Session.shot_detector a) →
  Session.side a = "left" ∨ Session.side a = "right" →
  Session.pixels_ok t = true →
  ∃ a1 sent go_on,
    Session.iteration a t = Ok (a1, sent, go_on)
    ∧ live_wf (Session.shot_detector a1)
    ∧ (Session.side a1 = "left" ∨ Session.side a1 = "right")
    ∧ Session.gemini_enabled a1 = Session.gemini_enabled a
    ∧ Session.total_shots (Session.state a1)
      = Session.total_shots (Session.state a)
        + match sent with Some _ => 1 | None => 0 end
    ∧ match sent with
      | Some (ev, _) =>
          Live.shot_number ev = Session.total_shots (Session.state a) + 1
          ∧ Session.state a1
            = (if Session.gemini_enabled a
               then Session.set_total_shots (Session.arrived a t)
                      (Session.total_shots (Session.arrived a t) + 1)
               else Session.on_shot_analyzed
                      (Session.set_total_shots (Session.arrived a t)
                         (Session.total_shots (Session.arrived a t) + 1))
                      ev Session.no_key_analysis
                      (Session.tick_flash t) (Session.tick_feedback t))
      | None => Session.state a1 = Session.arrived a t
      end.
Proof.
  intros Hwf Hsd Hpx. unfold Session.iteration.
  pose proof (arrived_total_shots a t) as Hat.
  set (s0 := Session.arrived a t) in *.
  destruct (Session.tick_input t) as [i|] eqn:Eti.
  - destruct (pixels_ok_side t i (Session.side a) Eti Hpx Hsd) as [px Hw].
    rewrite Hw. cbn [mbind result_bind].
    destruct (live_update_total (Session.shot_detector a) (Live.in_frame i)
                (Live.in_landmarks i) (Live.in_visibility i) (Live.in_now i) Hwf)
      as (det & o & Hu & Hwf').
    rewrite Hu. cbn [mbind result_bind].
    destruct (get_current_angle_Ok det) as [ca Hca].
    assert (Hinit : ∀ sd, live_wf (Live.init sd)) by (intros; repeat split; reflexivity).
    assert (Hsw : (if String.eqb (Session.side a) "right" then "left" else "right")
                  = "left"
                ∨ (if String.eqb (Session.side a) "right" then "left" else "right")
                  = "right")
      by (destruct (String.eqb (Session.side a) "right"); auto).
    rewrite Hca. cbn [mbind result_bind].
    destruct o as [ev|].
    + set (st1 := Session.set_total_shots s0 (Session.total_shots s0 + 1)).
      set (ev1 := Session.set_shot_number ev (Session.total_shots st1)).
      set (st2 := if Session.gemini_enabled a then st1
                  else Session.on_shot_analyzed st1 ev1 Session.no_key_analysis
                         (Session.tick_flash t) (Session.tick_feedback t)).
      assert (Hts : Session.total_shots st2
                    = Session.total_shots (Session.state a) + 1)
        by (subst st2; destruct (Session.gemini_enabled a); cbn; lia).
      assert (Hev : Live.shot_number ev1 = Session.total_shots (Session.state a) + 1)
        by (cbn; lia).
      assert (Hst : st2 = if Session.gemini_enabled a then st1
                          else Session.on_shot_analyzed st1 ev1
                                 Session.no_key_analysis
                                 (Session.tick_flash t) (Session.tick_feedback t))
        by reflexivity.
      clearbody st2.
      cbv beta iota zeta.
      destruct (Session.tick_key t =? Session.ord_q);
        [|destruct (Session.tick_key t =? Session.ord_s)];
        (eexists _, (Some (ev1, _)), _; split; [reflexivity|]);
        cbn [Session.shot_detector Session.state Session.gemini_enabled
             Session.side];
        (split; [auto|]); (split; [auto|]); (split; [reflexivity|]);
        (split; [exact Hts|]); (split; [exact Hev|exact Hst]).
    + cbv beta iota zeta.
      destruct (Session.tick_key t =? Session.ord_q);
        [|destruct (Session.tick_key t =? Session.ord_s)];
        (eexists _, None, _; split; [reflexivity|]);
        cbn [Session.shot_detector Session.state Session.gemini_enabled
             Session.side];
        (split; [auto|]); (split; [auto|]); (split; [reflexivity|]);
        (split; [lia|reflexivity]).
  - eexists _, None, _. split; [reflexivity|].
    cbn [Session.shot_detector Session.state Session.gemini_enabled Session.side].
    split; [exact Hwf|]. split; [exact Hsd|]. split; [reflexivity|].
    split; [lia|reflexivity].
Qed.

(** The loop from any analyzer whose detector has buffers of one length. *)
Lemma session_run_spec (ticks : list Session.tick) : ∀ a,
  live_wf (Session.shot_detector a) →
  Session.side a = "left" ∨ Session.side a = "right" →
  forallb Session.pixels_ok ticks = true →
  ∃ a' sent,
    Session.run a ticks = Ok (a', sent)
    ∧ Session.gemini_enabled a' = Session.gemini_enabled a
    ∧ Session.total_shots (Session.state a')
      = Session.total_shots (Session.state a) + len sent
    ∧ Live.shot_number <$> sent.*1
      = seqZ (Session.total_shots (Session.state a) + 1) (len sent)
    ∧ (Session.tallied (Session.state a) → Session.tallied (Session.state a'))
    ∧ (∀ P : Session.pyval → Prop,
         P Session.PNone →
         (∀ t c, t ∈ ticks → c ∈ Session.tick_replies t →
                 P (Session.made c.1.1.2)) →
         Forall (λ m, P (Session.m_made m))
           (Session.shot_metrics (Session.state a)) →
         Forall (λ m, P (Session.m_made m))
           (Session.shot_metrics (Session.state a'))).
Proof.
  induction ticks as [|t ticks IH]; intros a Hwf Hsd Hpx.
  - exists a, []. split; [reflexivity|]. split; [reflexivity|].
    change (len []) with 0. split; [lia|]. split; [reflexivity|auto].
  - cbn [forallb] in Hpx. apply andb_prop in Hpx. destruct Hpx as [Hp Hpx].
    destruct (iteration_spec a t Hwf Hsd Hp)
      as (a1 & sent & go_on & Hi & Hwf1 & Hsd1 & Hg1 & Ht1 & Hs1).
    cbn [Session.run]. rewrite Hi. cbn [mbind result_bind].
    assert (Hy : Session.tallied (Session.state a)
                 → Session.tallied (Session.state a1)).
    { intros Hy. apply (arrived_tallied a t) in Hy.
      destruct sent as [[ev la]|].
      - destruct Hs1 as [_ ->].
        assert (Hy1 : Session.tallied
                        (Session.set_total_shots (Session.arrived a t)
                           (Session.total_shots (Session.arrived a t) + 1)))
          by exact Hy.
        destruct (Session.gemini_enabled a); [exact Hy1|].
        apply on_shot_analyzed_tallied, Hy1.
      - rewrite Hs1. exact Hy. }
    assert (Hq : ∀ P : Session.pyval → Prop,
                 P Session.PNone →
                 (∀ c, c ∈ Session.tick_replies t → P (Session.made c.1.1.2)) →
                 Forall (λ m, P (Session.m_made m))
                   (Session.shot_metrics (Session.state a)) →
                 Forall (λ m, P (Session.m_made m))
                   (Session.shot_metrics (Session.state a1))).
    { intros P HN Hc Hq. apply (arrived_made P a t Hc) in Hq.
      destruct sent as [[ev la]|].
      - destruct Hs1 as [_ ->].
        destruct (Session.gemini_enabled a); [exact Hq|].
        cbn [Session.on_shot_analyzed Session.shot_metrics
             Session.set_total_shots].
        apply Forall_app. split; [exact Hq|].
        constructor; [exact HN|constructor].
      - rewrite Hs1. exact Hq. }
    destruct (IH a1 Hwf1 Hsd1 Hpx)
      as (a2 & more & Hr & Hg2 & Ht2 & Hn2 & Hy2 & Hq2).
    assert (Hq12 : ∀ P : Session.pyval → Prop,
                 P Session.PNone →
                 (∀ t' c, t' ∈ t :: ticks → c ∈ Session.tick_replies t' →
                          P (Session.made c.1.1.2)) →
                 Forall (λ m, P (Session.m_made m))
                   (Session.shot_metrics (Session.state a)) →
                 Forall (λ m, P (Session.m_made m))
                   (Session.shot_metrics (Session.state a1))
                 ∧ Forall (λ m, P (Session.m_made m))
                     (Session.shot_metrics (Session.state a2))).
    { intros P HN Hc Hq0.
      assert (H1 : Forall (λ m, P (Session.m_made m))
                     (Session.shot_metrics (Session.state a1))).
      { apply (Hq P HN); [|exact Hq0]. intros c Hin. apply (Hc t); [left|exact Hin]. }
      split; [exact H1|]. apply (Hq2 P HN); [|exact H1].
      intros t' c Ht' Hin. apply (Hc t'); [right; exact Ht'|exact Hin]. }
    destruct go_on.
    + rewrite Hr. cbn [mbind result_bind]. eexists _, _. split; [reflexivity|].
      split; [congruence|]. rewrite len_app.
      destruct sent as [[ev la]|].
      * change (len [(ev, la)]) with 1. split; [lia|].
        cbn [app fmap list_fmap fst]. destruct Hs1 as [Hs1 _].
        rewrite Hs1, Hn2, Ht1.
        pose proof (len_nonneg more).
        rewrite (seqZ_cons _ (1 + len more)) by lia.
        split; [f_equal; f_equal; lia|]. split; [auto|].
        intros P HN Hc Hq0. apply (Hq12 P HN Hc Hq0).
      * change (len []) with 0. split; [lia|].
        cbn [app]. rewrite Hn2, Ht1. split; [f_equal; lia|]. split; [auto|].
        intros P HN Hc Hq0. apply (Hq12 P HN Hc Hq0).
    + eexists _, _. split; [reflexivity|]. split; [exact Hg1|].
      destruct sent as [[ev la]|].
      * change (len [(ev, la)]) with 1. split; [lia|].
        cbn [fmap list_fmap fst]. destruct Hs1 as [Hs1 _]. rewrite Hs1.
        split; [reflexivity|]. split; [exact Hy|].
        intros P HN Hc Hq0. apply (Hq12 P HN Hc Hq0).
      * change (len []) with 0. split; [lia|]. split; [reflexivity|].
        split; [exact Hy|].
        intros P HN Hc Hq0. apply (Hq12 P HN Hc Hq0).
Qed.

(** Without a key, the loop records every shot at once, unjudged. *)
Lemma session_run_no_key (ticks : list Session.tick) : ∀ a,
  live_wf (Session.shot_detector a) →
  Session.side a = "left" ∨ Session.side a = "right" →
  forallb Session.pixels_ok ticks = true →
  Session.gemini_enabled a = false →
  ∃ a' sent,
    Session.run a ticks = Ok (a', sent)
    ∧ Session.shots_made (Session.state a') = Session.shots_made (Session.state a)
    ∧ Session.shots_missed (Session.state a')
      = Session.shots_missed (Session.state a)
    ∧ Session.m_shot_number <$> Session.shot_metrics (Session.state a')
      = (Session.m_shot_number <$> Session.shot_metrics (Session.state a))
        ++ (Live.shot_number <$> sent.*1)
    ∧ Session.m_made <$> Session.shot_metrics (Session.state a')
      = (Session.m_made <$> Session.shot_metrics (Session.state a))
        ++ replicate (length sent) Session.PNone
    ∧ Session.current_feedback (Session.state a')
      = match sent with
        | [] => Session.current_feedback (Session.state a)
        | _ => Session.feedback Session.no_key_analysis
        end.
Proof.
  induction ticks as [|t ticks IH]; intros a Hwf Hsd Hpx Hg.
  - exists a, []. split; [reflexivity|]. cbn [fmap list_fmap replicate length].
    rewrite !app_nil_r. auto.
  - cbn [forallb] in Hpx. apply andb_prop in Hpx. destruct Hpx as [Hp Hpx].
    destruct (iteration_spec a t Hwf Hsd Hp)
      as (a1 & sent & go_on & Hi & Hwf1 & Hsd1 & Hg1 & _ & Hs1).
    cbn [Session.run]. rewrite Hi. cbn [mbind result_bind].
    unfold Session.arrived in Hs1. rewrite Hg in Hg1, Hs1.
    destruct (IH a1 Hwf1 Hsd1 Hpx Hg1)
      as (a2 & more & Hr & Hm2 & Hx2 & Hn2 & Hd2 & Hf2).
    assert (H1 : Session.shots_made (Session.state a1)
                 = Session.shots_made (Session.state a)
               ∧ Session.shots_missed (Session.state a1)
                 = Session.shots_missed (Session.state a)
               ∧ Session.m_shot_number <$> Session.shot_metrics (Session.state a1)
                 = (Session.m_shot_number <$> Session.shot_metrics (Session.state a))
                   ++ (Live.shot_number <$>
                         (match sent with Some x => [x] | None => [] end).*1)
               ∧ Session.m_made <$> Session.shot_metrics (Session.state a1)
                 = (Session.m_made <$> Session.shot_metrics (Session.state a))
                   ++ replicate
                        (length (match sent with Some x => [x] | None => [] end))
                        Session.PNone
               ∧ Session.current_feedback (Session.state a1)
                 = match sent with
                   | Some _ => Session.feedback Session.no_key_analysis
                   | None => Session.current_feedback (Session.state a)
                   end).
    { destruct sent as [[ev la]|].
      - destruct Hs1 as [_ ->].
        cbn [Session.on_shot_analyzed Session.set_total_shots Session.shots_made
             Session.shots_missed Session.shot_metrics Session.current_feedback
             Session.no_key_analysis Session.made Session.feedback
             Session.truth Session.is_not_none andb].
        rewrite !fmap_app. repeat split; reflexivity.
      - rewrite Hs1. cbn [fmap list_fmap replicate length]. rewrite !app_nil_r.
        auto. }
    destruct H1 as (Hm1 & Hx1 & Hn1 & Hd1 & Hf1).
    destruct go_on.
    + rewrite Hr. cbn [mbind result_bind]. eexists _, _. split; [reflexivity|].
      split; [congruence|]. split; [congruence|].
      rewrite Hn2, Hn1, Hd2, Hd1, Hf2, Hf1, !fmap_app, length_app, replicate_add,
        <- !app_assoc.
      repeat (split; [reflexivity|]).
      destruct sent as [x|]; destruct more; reflexivity.
    + eexists _, _. split; [reflexivity|].
      split; [exact Hm1|]. split; [exact Hx1|]. split; [exact Hn1|].
      split; [exact Hd1|]. rewrite Hf1. destruct sent; reflexivity.
Qed.

(** The load angle of a detected shot is one the search can select. *)
Lemma live_event_load_usable (st : Live.state) (frame : Frame)
    (landmarks : gmap string point) (visibility : gmap string float)
    (now : float) (st' : Live.state) (ev : Live.ShotEvent) :
  Live.update st frame landmarks visibility now = Ok (st', Some ev) →
  usable (Some (Live.elbow_angle_load ev)) = true.
Proof.
  intros Hu. apply live_update_Some in Hu.
  destruct Hu as (st1 & loc & _ & _ & _ & _ & Hloc & Hb & ->).
  destruct (live_located st1 loc Hloc) as (L & _ & _ & Hmin).
  apply live_build_inv in Hb. cbn zeta in Hb.
  destruct Hb as (f1 & f2 & f3 & f4 & f5 & f6 & f7 & f8 & ra & ll & rl
                  & _ & _ & _ & _ & _ & _ & _ & _ & _ & _ & _ & ->).
  cbn [Live.elbow_angle_load Live.record_shot].
  destruct Hmin as (_ & _ & Hus & _). exact Hus.
Qed.

End SessionLemmas.

(** ** The pose detector *)

(** What the loop of [detect] leaves under a name, when no name comes
    twice. *)
Lemma fill_spec (pose : list Pose.Landmark) (names : list (Z * string)) :
  ∀ acc,
  Forall (λ e, 0 ≤ e.1) names → NoDup names.*2 →
  ∃ lms vis,
    Pose.fill pose names acc = Ok (lms, vis)
    ∧ (∀ idx name, (idx, name) ∈ names →
         lms !! name = match pose !! Z.to_nat idx with
                       | Some lm => Some (Pose.xyz lm)
                       | None => acc.1 !! name
                       end
         ∧ vis !! name = match pose !! Z.to_nat idx with
                         | Some lm => Some (Pose.visibility lm)
                         | None => acc.2 !! name
                         end)
    ∧ (∀ name, name ∉ names.*2 →
         lms !! name = acc.1 !! name ∧ vis !! name = acc.2 !! name).
Proof.
  induction names as [|[i n] names IH]; intros acc Hpos Hnd.
  - exists acc.1, acc.2. destruct acc as [l v]. split; [reflexivity|].
    split; [|auto]. intros idx name Hin. inversion Hin.
  - apply Forall_cons in Hpos. destruct Hpos as [Hi Hpos]. cbn [fst] in Hi.
    cbn [fmap list_fmap snd] in Hnd. apply NoDup_cons in Hnd.
    destruct Hnd as [Hn Hnd]. cbn [Pose.fill].
    destruct (Z.ltb_spec i (len pose)) as [Hlt|Hge].
    + destruct (getitem_Ok pose i ltac:(lia)) as (lm & Hg & Hl).
      rewrite Hg. cbn [mbind result_bind].
      destruct (IH (<[n := (Pose.x lm, Pose.y lm, Pose.z lm)]> acc.1,
                    <[n := Pose.visibility lm]> acc.2) Hpos Hnd)
        as (lms & vis & Hf & Hin & Hout).
      exists lms, vis. split; [exact Hf|]. cbn [fst snd] in Hin, Hout. split.
      * intros idx name Hm. apply elem_of_cons in Hm. destruct Hm as [Hm|Hm].
        -- injection Hm as -> ->. destruct (Hout n Hn) as [-> ->].
           rewrite Hl, !lookup_insert_eq. split; reflexivity.
        -- destruct (Hin idx name Hm) as [-> ->].
           assert (Hne : n ≠ name).
           { intros ->. apply Hn. apply list_elem_of_fmap.
             exists (idx, name). split; [reflexivity|exact Hm]. }
           rewrite !lookup_insert_ne by exact Hne. split; reflexivity.
      * intros name Hm. cbn [fmap list_fmap snd] in Hm.
        apply not_elem_of_cons in Hm. destruct Hm as [Hne Hm].
        destruct (Hout name Hm) as [-> ->].
        rewrite !lookup_insert_ne by congruence. split; reflexivity.
    + destruct (IH acc Hpos Hnd) as (lms & vis & Hf & Hin & Hout).
      exists lms, vis. split; [exact Hf|]. split.
      * intros idx name Hm. apply elem_of_cons in Hm. destruct Hm as [Hm|Hm].
        -- injection Hm as -> ->. destruct (Hout n Hn) as [-> ->].
           rewrite (lookup_ge_None_2 pose (Z.to_nat i)) by (unfold len in Hge; lia).
           split; reflexivity.
        -- exact (Hin idx name Hm).
      * intros name Hm. cbn [fmap list_fmap snd] in Hm.
        apply not_elem_of_cons in Hm. destruct Hm as [_ Hm].
        exact (Hout name Hm).
Qed.

Lemma landmark_names_fit :
  Forall (λ e : Z * string, 0 ≤ e.1) Pose.LANDMARK_NAMES
  ∧ NoDup Pose.LANDMARK_NAMES.*2.
Proof.
  split.
  - unfold Pose.LANDMARK_NAMES. repeat (constructor; [cbn; lia|]). constructor.
  - apply (bool_decide_unpack (NoDup Pose.LANDMARK_NAMES.*2)).
    vm_compute. reflexivity.
Qed.

(** The dictionaries of [detect], name by name. *)
Lemma detect_spec (results : option (list (list Pose.Landmark))) :
  ∃ lms vis,
    Pose.detect results = Ok (lms, vis)
    ∧ (∀ idx name, (idx, name) ∈ Pose.LANDMARK_NAMES →
         lms !! name = Pose.xyz <$> Pose.first_pose results !! Z.to_nat idx
         ∧ vis !! name
           = Pose.visibility <$> Pose.first_pose results !! Z.to_nat idx)
    ∧ (∀ name, name ∉ Pose.LANDMARK_NAMES.*2 →
         lms !! name = None ∧ vis !! name = None).
Proof.
  destruct landmark_names_fit as [Hpos Hnd].
  assert (Hnone : ∃ (lms : gmap string point) (vis : gmap string float),
             Ok (∅, ∅) = Ok (lms, vis)
             ∧ (∀ idx name, (idx, name) ∈ Pose.LANDMARK_NAMES →
                  lms !! name = Pose.xyz <$> @nil Pose.Landmark !! Z.to_nat idx
                  ∧ vis !! name
                    = Pose.visibility <$> @nil Pose.Landmark !! Z.to_nat idx)
             ∧ (∀ name, name ∉ Pose.LANDMARK_NAMES.*2 →
                  lms !! name = None ∧ vis !! name = None)).
  { exists ∅, ∅. split; [reflexivity|]. split; intros; rewrite !lookup_empty;
      rewrite ?lookup_nil; split; reflexivity. }
  destruct results as [[|pose rest]|]; cbn [Pose.detect Pose.first_pose];
    try exact Hnone.
  destruct (fill_spec pose Pose.LANDMARK_NAMES (∅, ∅) Hpos Hnd)
    as (lms & vis & Hf & Hin & Hout).
  exists lms, vis. split; [exact Hf|]. split.
  - intros idx name Hm. destruct (Hin idx name Hm) as [-> ->].
    cbn [fst snd]. rewrite !lookup_empty.
    destruct (pose !! Z.to_nat idx); split; reflexivity.
  - intros name Hm. destruct (Hout name Hm) as [-> ->].
    cbn [fst snd]. rewrite !lookup_empty. split; reflexivity.
Qed.

(** * Main results *)

Section Results.
Context `{External}.

(** C1. Over every stream of frames the frame buffer never holds more than
    its capacity (180 in the live detector, 200 in the debugger). Every
    trim that evicts [k] frames lowers a stored index by exactly [k], not
    below zero (the initial [-100] stays); over a run the stored index is
    the stream position of the last accepted event less all evictions, not
    below zero. So the cooldown test of the next call passes exactly when the
    distance in the stream from the last accepted event is at least the
    cooldown, as it would with no eviction at all. *)
Theorem ring_buffer_rebased (sd : string) :
  (∀ st : Live.state, live_wf st →
     ∃ st', Live._trim_buffer st = Ok st'
       ∧ len (Live.frames_buffer st')
         = Z.min (len (Live.frames_buffer st)) Live.max_buffer
       ∧ let k := len (Live.frames_buffer st) - len (Live.frames_buffer st') in
         Live.last_shot_frame st'
         = (if 0 <=? Live.last_shot_frame st
            then Z.max 0 (Live.last_shot_frame st - k)
            else Live.last_shot_frame st))
  ∧ (∀ inputs : list Live.input,
       ∃ st evs, Live.run (Live.init sd) inputs = Ok (st, evs)
         ∧ len (Live.frames_buffer st) ≤ Live.max_buffer
         ∧ rebased_index (len inputs) (len (Live.frames_buffer st))
             (last_accepted evs) (Live.last_shot_frame st)
         ∧ ∀ frame landmarks f a, last_accepted evs = Some a →
             ∃ st1, Live.ingest st frame landmarks f = Ok st1
               ∧ Live.cooled st1 = negb (len inputs - a <? Live.COOLDOWN_FRAMES))
  ∧ (∀ st : Debug.state, debug_wf st →
       ∃ st', Debug._trim_buffer st = Ok st'
         ∧ len (Debug.frames_buffer st')
           = Z.min (len (Debug.frames_buffer st)) Debug.max_buffer
         ∧ let k := len (Debug.frames_buffer st) - len (Debug.frames_buffer st') in
           Debug.last_shot_frame st'
           = (if 0 <=? Debug.last_shot_frame st
              then Z.max 0 (Debug.last_shot_frame st - k)
              else Debug.last_shot_frame st))
  ∧ (∀ inputs : list Debug.input,
       ∃ st evs, Debug.run (Debug.init sd) inputs = Ok (st, evs)
         ∧ len (Debug.frames_buffer st) ≤ Debug.max_buffer
         ∧ rebased_index (len inputs) (len (Debug.frames_buffer st))
             (last_accepted evs) (Debug.last_shot_frame st)
         ∧ ∀ frame landmarks f frame_num timestamp_ms a,
             last_accepted evs = Some a →
             ∃ st1, Debug.ingest st frame landmarks f frame_num timestamp_ms = Ok st1
               ∧ Debug.cooled st1 = negb (len inputs - a <? Debug.COOLDOWN_FRAMES)).
Proof.
  split; [|split; [|split]].
  - intros st Hwf. eexists. split; [apply live_trim_buffer_spec, Hwf|].
    cbn [live_trimmed Live.frames_buffer Live.last_shot_frame].
    rewrite len_drop, rebase_spec.
    pose proof (len_nonneg (Live.frames_buffer st)) as Hn.
    change Live.max_buffer with 180. split; [lia|]. cbn zeta.
    destruct (Z.ltb_spec 0 (Live.last_shot_frame st)),
             (Z.leb_spec 0 (Live.last_shot_frame st)); lia.
  - intros inputs.
    destruct (live_run_inv inputs 0 None (Live.init sd) (live_inv_init sd))
      as (st & evs & Hr & Hinv).
    exists st, evs. split; [exact Hr|].
    rewrite Z.add_0_l in Hinv. fold (last_accepted evs) in Hinv.
    pose proof Hinv as (Hwf & Hn & Hlen & Hidx).
    split; [lia|]. split; [exact Hidx|].
    intros frame landmarks f a Ha. rewrite Ha in Hinv.
    eexists. split; [apply live_ingest_spec, Hwf|].
    eapply live_cooled_true_distance; [exact Hinv|apply live_ingest_spec, Hwf].
  - intros st Hwf. eexists. split; [apply debug_trim_buffer_spec, Hwf|].
    cbn [debug_trimmed Debug.frames_buffer Debug.last_shot_frame].
    rewrite len_drop, rebase_spec.
    pose proof (len_nonneg (Debug.frames_buffer st)) as Hn.
    change Debug.max_buffer with 200. split; [lia|]. cbn zeta.
    destruct (Z.ltb_spec 0 (Debug.last_shot_frame st)),
             (Z.leb_spec 0 (Debug.last_shot_frame st)); lia.
  - intros inputs.
    destruct (debug_run_inv inputs 0 None (Debug.init sd) (debug_inv_init sd))
      as (st & evs & Hr & Hinv).
    exists st, evs. split; [exact Hr|].
    rewrite Z.add_0_l in Hinv. fold (last_accepted evs) in Hinv.
    pose proof Hinv as (Hwf & Hn & Hlen & Hidx).
    split; [lia|]. split; [exact Hidx|].
    intros frame landmarks f frame_num timestamp_ms a Ha. rewrite Ha in Hinv.
    eexists. split; [apply debug_ingest_spec, Hwf|].
    eapply debug_cooled_true_distance; [exact Hinv|apply debug_ingest_spec, Hwf].
Qed.

(** C2. On buffers of one length (every state a run from [__init__]
    reaches has them) a per-frame call does not raise, and it returns an
    event only if, in the state the call has reached after
    storing the frame, the stability counter is at least 8, the newest
    position is at least 45 past the stored index of the last accepted
    event, the elbow angle of the frame is defined and above 155 degrees,
    and the wrist is above the shoulder; when any of these fails the call
    returns [None]. *)
Theorem event_only_when_all_hold :
  (∀ (st : Live.state) frame landmarks visibility now, live_wf st →
     let f := extract (Live.side st) landmarks visibility in
     ∃ st1 st' o,
       Live.ingest st frame landmarks f = Ok st1
       ∧ Live.update st frame landmarks visibility now = Ok (st', o)
       ∧ (is_Some o →
            Live.STABILITY_REQUIRED ≤ Live.stability_count st1
            ∧ Live.COOLDOWN_FRAMES ≤ Live.current_idx st1 - Live.last_shot_frame st1
            ∧ (∃ a, feat_angle f = Some a
                    ∧ PrimFloat.ltb Live.RELEASE_ANGLE a = true)
            ∧ feat_above f = true)
       ∧ (Live.stability_count st1 < Live.STABILITY_REQUIRED
          ∨ Live.current_idx st1 - Live.last_shot_frame st1 < Live.COOLDOWN_FRAMES
          ∨ (∀ a, feat_angle f = Some a → PrimFloat.ltb Live.RELEASE_ANGLE a = false)
          ∨ feat_above f = false
          → o = None))
  ∧ (∀ (st : Debug.state) frame landmarks visibility frame_num timestamp_ms,
       debug_wf st →
       let f := extract (Debug.side st) landmarks visibility in
       ∃ st1 st' o,
         Debug.ingest st frame landmarks f frame_num timestamp_ms = Ok st1
         ∧ Debug.process_frame st frame landmarks visibility frame_num timestamp_ms
           = Ok (st', o)
         ∧ (is_Some o →
              Debug.STABILITY_REQUIRED ≤ Debug.stability_count st1
              ∧ Debug.COOLDOWN_FRAMES
                ≤ Debug.current_idx st1 - Debug.last_shot_frame st1
              ∧ (∃ a, feat_angle f = Some a
                      ∧ PrimFloat.ltb Debug.RELEASE_ANGLE a = true)
              ∧ feat_above f = true)
         ∧ (Debug.stability_count st1 < Debug.STABILITY_REQUIRED
            ∨ Debug.current_idx st1 - Debug.last_shot_frame st1
              < Debug.COOLDOWN_FRAMES
            ∨ (∀ a, feat_angle f = Some a
                    → PrimFloat.ltb Debug.RELEASE_ANGLE a = false)
            ∨ feat_above f = false
            → o = None)).
Proof.
  split.
  - intros st frame landmarks visibility now Hwf f.
    destruct (live_update_total st frame landmarks visibility now Hwf)
      as (st' & o & Hu & _).
    assert (Hall : ∀ ev, o = Some ev →
      ∃ st1, Live.ingest st frame landmarks f = Ok st1
        ∧ Live.STABILITY_REQUIRED ≤ Live.stability_count st1
        ∧ Live.COOLDOWN_FRAMES ≤ Live.current_idx st1 - Live.last_shot_frame st1
        ∧ (∃ a, feat_angle f = Some a ∧ PrimFloat.ltb Live.RELEASE_ANGLE a = true)
        ∧ feat_above f = true).
    { intros ev ->. apply live_update_Some in Hu.
      destruct Hu as (st1 & loc & Hi & Hs & Hc & Hr & _).
      exists st1. split; [exact Hi|].
      unfold Live.stable in Hs. unfold Live.cooled in Hc.
      apply negb_true_iff, Z.ltb_ge in Hs. apply negb_true_iff, Z.ltb_ge in Hc.
      destruct (live_released_angle _ Hr) as (a & Ha & _ & Hlt & Hab).
      eauto 10. }
    eexists _, st', o. split; [apply live_ingest_spec, Hwf|].
    split; [exact Hu|]. split.
    + intros [ev Hev]. destruct (Hall ev Hev) as (st1 & Hi & Hrest).
      rewrite live_ingest_spec in Hi by assumption. injection Hi as <-.
      exact Hrest.
    + intros Hfail. destruct o as [ev|]; [|reflexivity]. exfalso.
      destruct (Hall ev eq_refl) as (st1 & Hi & Hs & Hc & (a & Ha & Hlt) & Hab).
      rewrite live_ingest_spec in Hi by assumption. injection Hi as <-.
      destruct Hfail as [Hf|[Hf|[Hf|Hf]]]; [lia|lia| |congruence].
      rewrite (Hf a Ha) in Hlt. discriminate.
  - intros st frame landmarks visibility frame_num timestamp_ms Hwf f.
    destruct (debug_process_total st frame landmarks visibility frame_num
                timestamp_ms Hwf) as (st' & o & Hu & _).
    assert (Hall : ∀ shot, o = Some shot →
      ∃ st1, Debug.ingest st frame landmarks f frame_num timestamp_ms = Ok st1
        ∧ Debug.STABILITY_REQUIRED ≤ Debug.stability_count st1
        ∧ Debug.COOLDOWN_FRAMES ≤ Debug.current_idx st1 - Debug.last_shot_frame st1
        ∧ (∃ a, feat_angle f = Some a ∧ PrimFloat.ltb Debug.RELEASE_ANGLE a = true)
        ∧ feat_above f = true).
    { intros shot ->. apply debug_process_Some in Hu.
      destruct Hu as (st1 & Hi & Hs & Hc & Hr & _).
      exists st1. split; [exact Hi|].
      unfold Debug.stable in Hs. unfold Debug.cooled in Hc.
      apply negb_true_iff, Z.ltb_ge in Hs. apply negb_true_iff, Z.ltb_ge in Hc.
      destruct (debug_released_angle _ Hr) as (a & Ha & _ & Hlt & Hab).
      eauto 10. }
    eexists _, st', o. split; [apply debug_ingest_spec, Hwf|].
    split; [exact Hu|]. split.
    + intros [shot Hev]. destruct (Hall shot Hev) as (st1 & Hi & Hrest).
      rewrite debug_ingest_spec in Hi by assumption. injection Hi as <-.
      exact Hrest.
    + intros Hfail. destruct o as [shot|]; [|reflexivity]. exfalso.
      destruct (Hall shot eq_refl) as (st1 & Hi & Hs & Hc & (a & Ha & Hlt) & Hab).
      rewrite debug_ingest_spec in Hi by assumption. injection Hi as <-.
      destruct Hfail as [Hf|[Hf|[Hf|Hf]]]; [lia|lia| |congruence].
      rewrite (Hf a Ha) in Hlt. discriminate.
Qed.

(** C3. When the release rule fires and the backward search leaves less than
    the minimum duration between load and release, [update] returns [None]
    and the very state [ingest] had produced: the stored index and every
    other attribute are as after a frame on which nothing fired. Whatever a
    call returns, the stored index is set to the newest position exactly
    when the call returns an event. *)
Theorem rejection_leaves_no_trace (st : Live.state) (frame : Frame)
    (landmarks : gmap string point) (visibility : gmap string float)
    (now : float) :
  let f := extract (Live.side st) landmarks visibility in
  (∀ st1 m L,
     Live.ingest st frame landmarks f = Ok st1 →
     Live.stable st1 = true → Live.cooled st1 = true → Live.released f = true →
     let R := Live.current_idx st1 in
     Live.search_load (Live.elbow_angles st1) (range (Z.max 0 (R - 60)) R)
       (infinity, R) = Ok (m, L) →
     R - L < Live.MIN_SHOT_FRAMES →
     Live.update st frame landmarks visibility now = Ok (st1, None))
  ∧ (∀ st' o,
       Live.update st frame landmarks visibility now = Ok (st', o) →
       ∃ st1, Live.ingest st frame landmarks f = Ok st1
         ∧ match o with
           | None => st' = st1
           | Some _ => st' = Live.record_shot st1 (Live.current_idx st1)
           end).
Proof.
  intros f. split.
  - intros st1 m L Hi Hs Hc Hr R Hsearch Hd.
    unfold Live.update, Live.update_from. fold f. rewrite Hi.
    cbn [mbind result_bind]. rewrite Hs, Hc, Hr. cbn [negb].
    unfold Live._create_shot_from_release, Live.locate. fold R.
    rewrite Hsearch. cbn [mbind result_bind].
    destruct (Z.ltb_spec (R - L) Live.MIN_SHOT_FRAMES); [reflexivity|lia].
  - intros st' o Hu. destruct o as [ev|].
    + apply live_update_Some in Hu.
      destruct Hu as (st1 & loc & Hi & _ & _ & _ & _ & _ & ->). eauto.
    + apply live_update_None in Hu. eauto.
Qed.

(** The backward search in full generality. Given the release position
    [R], the search over the window [max(0, R - 60) ≤ i < R] leaves the load
    at the earliest position holding the least angle among the usable ones,
    where an angle that is undefined, falsy or not below [+inf] is skipped.
    With no usable angle in the window the load stays at [R]. The load of
    every emitted event is this position. *)
Lemma search_leaves_earliest_usable :
  (∀ (angles : list (option float)) (R : Z) (r : float * Z),
     let lo := Z.max 0 (R - 60) in
     Live.search_load angles (range lo R) (infinity, R) = Ok r →
     (none_usable angles lo R ∧ r = (infinity, R))
     ∨ earliest_min angles lo R (snd r) (fst r))
  ∧ (∀ (metrics : list Debug.FrameMetrics) (R : Z) (r : float * Z),
       let lo := Z.max 0 (R - 60) in
       Debug.search_load metrics (range lo R) (infinity, R) = Ok r →
       (none_usable (Debug.elbow_angle <$> metrics) lo R ∧ r = (infinity, R))
       ∨ earliest_min (Debug.elbow_angle <$> metrics) lo R (snd r) (fst r))
  ∧ (∀ (st : Live.state) frame landmarks visibility now st' ev,
       Live.update st frame landmarks visibility now = Ok (st', Some ev) →
       let R := Live.current_idx st' in
       ∃ loc, Live.locate st' R = Ok (Some loc)
         ∧ release_idx (Live.loc_keys loc) = R
         ∧ earliest_min (Live.elbow_angles st') (Z.max 0 (R - 60)) R
             (load_idx (Live.loc_keys loc)) (Live.elbow_angle_load ev))
  ∧ (∀ (st : Debug.state) frame landmarks visibility frame_num timestamp_ms
       st' shot,
       Debug.process_frame st frame landmarks visibility frame_num timestamp_ms
       = Ok (st', Some shot) →
       let R := Debug.current_idx st' in
       release_idx (Debug.keys shot) = R
       ∧ earliest_min (debug_angles st') (Z.max 0 (R - 60)) R
           (load_idx (Debug.keys shot)) (Debug.load_angle shot)).
Proof.
  split; [|split; [|split]].
  - intros angles R r lo Hs.
    apply live_search_scan in Hs;
      [|intros i Hi; apply range_window_elem in Hi; lia].
    subst r. apply scan_window.
  - intros metrics R r lo Hs.
    rewrite debug_search_scan in Hs
      by (intros i Hi; apply range_window_elem in Hi; lia).
    injection Hs as <-. apply scan_window.
  - intros st frame landmarks visibility now st' ev Hu R.
    destruct (live_emitted _ _ _ _ _ _ _ Hu)
      as (loc & L & Hloc & Hb & Hk & _ & _ & Hmin & _).
    exists loc. split; [exact Hloc|]. rewrite Hk. cbn [sampled release_idx load_idx].
    split; [reflexivity|].
    replace (Live.elbow_angle_load ev) with (Live.loc_min_angle loc); [exact Hmin|].
    unfold Live.build in Hb.
    repeat (let v := fresh "v" in let E := fresh "E" in
            apply bind_Ok in Hb; destruct Hb as (v & E & Hb)).
    injection Hb as <-. reflexivity.
  - intros st frame landmarks visibility frame_num timestamp_ms st' shot Hp R.
    destruct (debug_emitted _ _ _ _ _ _ _ _ Hp) as (L & Hk & _ & Hmin & _).
    rewrite Hk. cbn [sampled release_idx load_idx]. split; [reflexivity|exact Hmin].
Qed.

(** C4. Given the release position [R], the load position the backward
    search chooses is the position of the least defined angle among the
    frames of the window [max(0, R - 60) ≤ i < R], the earliest one when
    several hold it; frames whose angle is undefined are skipped. This is on
    the angles the pose pipeline stores, each above 0 and at most 180
    degrees. With no defined angle in the window the load stays at [R]. The
    load of every emitted event is this position, and on a stream whose
    measured angles are in degrees that holds of every event of a run. *)
Theorem load_is_earliest_least_defined :
  (∀ (angles : list (option float)) (R : Z) (r : float * Z),
     let lo := Z.max 0 (R - 60) in
     window_in_degrees angles lo R →
     Live.search_load angles (range lo R) (infinity, R) = Ok r →
     (none_defined angles lo R ∧ r = (infinity, R))
     ∨ earliest_least_defined angles lo R (snd r) (fst r))
  ∧ (∀ (metrics : list Debug.FrameMetrics) (R : Z) (r : float * Z),
       let lo := Z.max 0 (R - 60) in
       window_in_degrees (Debug.elbow_angle <$> metrics) lo R →
       Debug.search_load metrics (range lo R) (infinity, R) = Ok r →
       (none_defined (Debug.elbow_angle <$> metrics) lo R ∧ r = (infinity, R))
       ∨ earliest_least_defined (Debug.elbow_angle <$> metrics) lo R
           (snd r) (fst r))
  ∧ (∀ (st : Live.state) frame landmarks visibility now st' ev,
       Live.update st frame landmarks visibility now = Ok (st', Some ev) →
       let R := Live.current_idx st' in
       window_in_degrees (Live.elbow_angles st') (Z.max 0 (R - 60)) R →
       ∃ loc, Live.locate st' R = Ok (Some loc)
         ∧ release_idx (Live.loc_keys loc) = R
         ∧ earliest_least_defined (Live.elbow_angles st') (Z.max 0 (R - 60)) R
             (load_idx (Live.loc_keys loc)) (Live.elbow_angle_load ev))
  ∧ (∀ (st : Debug.state) frame landmarks visibility frame_num timestamp_ms
       st' shot,
       Debug.process_frame st frame landmarks visibility frame_num timestamp_ms
       = Ok (st', Some shot) →
       let R := Debug.current_idx st' in
       window_in_degrees (debug_angles st') (Z.max 0 (R - 60)) R →
       release_idx (Debug.keys shot) = R
       ∧ earliest_least_defined (debug_angles st') (Z.max 0 (R - 60)) R
           (load_idx (Debug.keys shot)) (Debug.load_angle shot))
  ∧ (∀ (sd : string) (inputs : list Live.input) st evs (n : nat) ev,
       (∀ i a, i ∈ inputs → feat_angle (live_measure sd i) = Some a →
               in_degrees a = true) →
       Live.run (Live.init sd) inputs = Ok (st, evs) →
       evs !! n = Some (Some ev) →
       ∃ i stn stn',
         inputs !! n = Some i
         ∧ Live.run (Live.init sd) (take n inputs) = Ok (stn, take n evs)
         ∧ Live.step stn i = Ok (stn', Some ev)
         ∧ let R := Live.current_idx stn' in
           ∃ loc, Live.locate stn' R = Ok (Some loc)
             ∧ release_idx (Live.loc_keys loc) = R
             ∧ earliest_least_defined (Live.elbow_angles stn')
                 (Z.max 0 (R - 60)) R
                 (load_idx (Live.loc_keys loc)) (Live.elbow_angle_load ev))
  ∧ (∀ (sd : string) (inputs : list Debug.input) st evs (n : nat) shot,
       (∀ i a, i ∈ inputs → feat_angle (debug_measure sd i) = Some a →
               in_degrees a = true) →
       Debug.run (Debug.init sd) inputs = Ok (st, evs) →
       evs !! n = Some (Some shot) →
       ∃ i stn stn',
         inputs !! n = Some i
         ∧ Debug.run (Debug.init sd) (take n inputs) = Ok (stn, take n evs)
         ∧ Debug.step stn i = Ok (stn', Some shot)
         ∧ let R := Debug.current_idx stn' in
           release_idx (Debug.keys shot) = R
           ∧ earliest_least_defined (debug_angles stn') (Z.max 0 (R - 60)) R
               (load_idx (Debug.keys shot)) (Debug.load_angle shot)).
Proof.
  destruct search_leaves_earliest_usable as (Hl & Hd & Hle & Hde).
  assert (Hlive : ∀ (st : Live.state) frame landmarks visibility now st' ev,
            Live.update st frame landmarks visibility now = Ok (st', Some ev) →
            window_in_degrees (Live.elbow_angles st')
              (Z.max 0 (Live.current_idx st' - 60)) (Live.current_idx st') →
            ∃ loc, Live.locate st' (Live.current_idx st') = Ok (Some loc)
              ∧ release_idx (Live.loc_keys loc) = Live.current_idx st'
              ∧ earliest_least_defined (Live.elbow_angles st')
                  (Z.max 0 (Live.current_idx st' - 60)) (Live.current_idx st')
                  (load_idx (Live.loc_keys loc)) (Live.elbow_angle_load ev)).
  { intros st frame landmarks visibility now st' ev Hu Hw.
    destruct (Hle st frame landmarks visibility now st' ev Hu)
      as (loc & Hloc & Hrel & Hmin).
    exists loc. split; [exact Hloc|]. split; [exact Hrel|].
    apply in_degrees_earliest; assumption. }
  assert (Hdebug : ∀ (st : Debug.state) frame landmarks visibility frame_num
                     timestamp_ms st' shot,
            Debug.process_frame st frame landmarks visibility frame_num
              timestamp_ms = Ok (st', Some shot) →
            window_in_degrees (debug_angles st')
              (Z.max 0 (Debug.current_idx st' - 60)) (Debug.current_idx st') →
            release_idx (Debug.keys shot) = Debug.current_idx st'
            ∧ earliest_least_defined (debug_angles st')
                (Z.max 0 (Debug.current_idx st' - 60)) (Debug.current_idx st')
                (load_idx (Debug.keys shot)) (Debug.load_angle shot)).
  { intros st frame landmarks visibility frame_num timestamp_ms st' shot Hp Hw.
    destruct (Hde st frame landmarks visibility frame_num timestamp_ms st' shot Hp)
      as (Hrel & Hmin).
    split; [exact Hrel|]. apply in_degrees_earliest; assumption. }
  split; [|split; [|split; [|split; [|split]]]].
  - intros angles R r lo Hw Hs. apply in_degrees_search; [exact Hw|].
    apply (Hl angles R r Hs).
  - intros metrics R r lo Hw Hs. apply in_degrees_search; [exact Hw|].
    apply (Hd metrics R r Hs).
  - intros st frame landmarks visibility now st' ev Hu R Hw.
    apply (Hlive st frame landmarks visibility now st' ev Hu Hw).
  - intros st frame landmarks visibility frame_num timestamp_ms st' shot Hp R Hw.
    apply (Hdebug st frame landmarks visibility frame_num timestamp_ms st' shot
             Hp Hw).
  - intros sd inputs st evs n ev Hdeg Hr Hn.
    destruct (live_call_in_degrees sd inputs st evs n _ Hdeg Hr Hn)
      as (i & stn & stn' & Hi & Hrn & Hs & Hw).
    exists i, stn, stn'. split; [exact Hi|]. split; [exact Hrn|].
    split; [exact Hs|]. cbv zeta.
    apply (Hlive stn _ _ _ _ stn' ev Hs), Hw.
  - intros sd inputs st evs n shot Hdeg Hr Hn.
    destruct (debug_call_in_degrees sd inputs st evs n _ Hdeg Hr Hn)
      as (i & stn & stn' & Hi & Hrn & Hs & Hw).
    exists i, stn, stn'. split; [exact Hi|]. split; [exact Hrn|].
    split; [exact Hs|]. cbv zeta.
    apply (Hdebug stn _ _ _ _ _ stn' shot Hs), Hw.
Qed.

(** C5. For every emitted event the release position less the load position
    is at least the minimum duration of 10 frames, and a candidate with a
    smaller distance is rejected: no event is built. *)
Theorem emitted_duration_at_least_minimum :
  (∀ (st : Live.state) frame landmarks visibility now st' ev,
     Live.update st frame landmarks visibility now = Ok (st', Some ev) →
     ∃ loc, Live.locate st' (Live.current_idx st') = Ok (Some loc)
       ∧ Live.build st' loc now = Ok ev
       ∧ Live.MIN_SHOT_FRAMES
         ≤ release_idx (Live.loc_keys loc) - load_idx (Live.loc_keys loc))
  ∧ (∀ (st : Live.state) (R : Z) (now m : float) (L : Z),
       Live.search_load (Live.elbow_angles st) (range (Z.max 0 (R - 60)) R)
         (infinity, R) = Ok (m, L) →
       R - L < Live.MIN_SHOT_FRAMES →
       Live._create_shot_from_release st R now = Ok None)
  ∧ (∀ (st : Debug.state) frame landmarks visibility frame_num timestamp_ms
       st' shot,
       Debug.process_frame st frame landmarks visibility frame_num timestamp_ms
       = Ok (st', Some shot) →
       Debug.MIN_SHOT_FRAMES
       ≤ release_idx (Debug.keys shot) - load_idx (Debug.keys shot))
  ∧ (∀ (st : Debug.state) (R : Z) (ra m : float) (L : Z),
       Debug.search_load (Debug.metrics_buffer st) (range (Z.max 0 (R - 60)) R)
         (infinity, R) = Ok (m, L) →
       R - L < Debug.MIN_SHOT_FRAMES →
       Debug._create_shot st R ra = Ok (st, None)).
Proof.
  split; [|split; [|split]].
  - intros st frame landmarks visibility now st' ev Hu.
    destruct (live_emitted _ _ _ _ _ _ _ Hu)
      as (loc & L & Hloc & Hb & Hk & _ & Hbd & _).
    exists loc. split; [exact Hloc|]. split; [exact Hb|].
    rewrite Hk. cbn [sampled release_idx load_idx].
    change Live.MIN_SHOT_FRAMES with 10. lia.
  - intros st R now m L Hs Hd.
    unfold Live._create_shot_from_release, Live.locate.
    rewrite Hs. cbn [mbind result_bind].
    destruct (Z.ltb_spec (R - L) Live.MIN_SHOT_FRAMES); [reflexivity|lia].
  - intros st frame landmarks visibility frame_num timestamp_ms st' shot Hp.
    destruct (debug_emitted _ _ _ _ _ _ _ _ Hp) as (L & Hk & Hbd & _).
    rewrite Hk. cbn [sampled release_idx load_idx].
    change Debug.MIN_SHOT_FRAMES with 10. lia.
  - intros st R ra m L Hs Hd.
    unfold Debug._create_shot. cbn zeta.
    change (Debug.metrics_buffer (Debug.set_shot_count st _))
      with (Debug.metrics_buffer st).
    rewrite Hs. cbn [mbind result_bind].
    destruct (Z.ltb_spec (R - L) Debug.MIN_SHOT_FRAMES); [|lia].
    rewrite debug_count_restored. reflexivity.
Qed.

(** C6. For every emitted event the eight positions are the sampled ones,
    [mid_i = load + floor(fraction_i * (release - load))] for the fractions
    0.20, 0.40, 0.60 and 0.80, [stance = max(0, load - 5)] and
    [follow_through = min(release + 5, n - 1)], and they form the chain
    [0 ≤ stance ≤ load ≤ mid1 ≤ mid2 ≤ mid3 ≤ mid4 ≤ release ≤ follow_through
    ≤ n - 1] for the buffer length [n]; so every one is inside [0, n - 1]. *)
Theorem key_frames_chain :
  (∀ (st : Live.state) frame landmarks visibility now st' ev,
     Live.update st frame landmarks visibility now = Ok (st', Some ev) →
     ∃ loc, Live.locate st' (Live.current_idx st') = Ok (Some loc)
       ∧ Live.build st' loc now = Ok ev
       ∧ let k := Live.loc_keys loc in
         let n := len (Live.frames_buffer st') in
         k = sampled (load_idx k) (release_idx k) n ∧ chain k n)
  ∧ (∀ (st : Debug.state) frame landmarks visibility frame_num timestamp_ms
       st' shot,
       Debug.process_frame st frame landmarks visibility frame_num timestamp_ms
       = Ok (st', Some shot) →
       let k := Debug.keys shot in
       let n := len (Debug.frames_buffer st') in
       k = sampled (load_idx k) (release_idx k) n ∧ chain k n).
Proof.
  split.
  - intros st frame landmarks visibility now st' ev Hu.
    destruct (live_emitted _ _ _ _ _ _ _ Hu)
      as (loc & L & Hloc & Hb & Hk & _ & Hbd & _).
    exists loc. split; [exact Hloc|]. split; [exact Hb|]. cbn zeta.
    rewrite Hk. cbn [sampled release_idx load_idx]. split; [reflexivity|].
    apply sampled_chain; unfold Live.current_idx in *; lia.
  - intros st frame landmarks visibility frame_num timestamp_ms st' shot Hp.
    destruct (debug_emitted _ _ _ _ _ _ _ _ Hp) as (L & Hk & Hbd & _).
    cbn zeta. rewrite Hk. cbn [sampled release_idx load_idx]. split; [reflexivity|].
    apply sampled_chain; unfold Debug.current_idx in *; lia.
Qed.


(** C8, as the code has it. On buffers of one length, every shot the
    debugger emits carries the slice of the metrics history from 10 positions
    before the stance position to 10 positions after the follow-through
    position, both ends clamped to the buffer. (The event of the live
    detector has no such field.) *)
Theorem debug_slice_span (st : Debug.state) (frame : Frame)
    (landmarks : gmap string point) (visibility : gmap string float)
    (frame_num : Z) (timestamp_ms : float) (st' : Debug.state)
    (shot : Debug.DetectedShot) :
  debug_wf st →
  Debug.process_frame st frame landmarks visibility frame_num timestamp_ms
  = Ok (st', Some shot) →
  let k := Debug.keys shot in
  let n := len (Debug.metrics_buffer st') in
  Debug.frame_metrics shot
  = span (Debug.metrics_buffer st') (Z.max 0 (stance_idx k - 10))
      (Z.min (followthrough_idx k + 10) (n - 1)).
Proof.
  intros Hwf Hp k n.
  destruct (debug_process_total st frame landmarks visibility frame_num
              timestamp_ms Hwf) as (st2 & o & Hp2 & Hwf').
  rewrite Hp in Hp2. injection Hp2 as <- <-.
  destruct (debug_emitted _ _ _ _ _ _ _ _ Hp)
    as (L & Hk & Hbd & _ & Hfm & Hfs & Hfe & _).
  rewrite Hfm, Hfs, Hfe. fold k. fold n.
  assert (Hn : n = len (Debug.frames_buffer st'))
    by (unfold n, len; rewrite Hwf'; reflexivity).
  assert (Hst : 0 ≤ stance_idx k ≤ n - 1 ∧ followthrough_idx k = n - 1).
  { unfold k. rewrite Hk. cbn [sampled stance_idx followthrough_idx].
    unfold Debug.current_idx in *. lia. }
  unfold slice, span. fold n.
  destruct (Z.ltb_spec (Z.max 0 (stance_idx k - 10)) 0); [lia|].
  destruct (Z.ltb_spec (Z.min n (followthrough_idx k + 10)) 0); [lia|].
  f_equal; [|f_equal]; lia.
Qed.

(** C9. Two runs of freshly initialized live detectors on the same side over
    the same frames, landmarks and visibilities, whatever the clock reads at
    each call: both run to the same state, return events at the same calls,
    the events agree in everything but the time stamp, and the detections
    (key-frame positions, load and release angle) are the same. *)
Theorem detection_ignores_the_clock (sd : string) (inputs : list Live.input)
    (clock1 clock2 : nat → float) :
  live_detections sd (retimed clock1 inputs)
  = live_detections sd (retimed clock2 inputs)
  ∧ ∃ st evs1 evs2,
      Live.run (Live.init sd) (retimed clock1 inputs) = Ok (st, evs1)
      ∧ Live.run (Live.init sd) (retimed clock2 inputs) = Ok (st, evs2)
      ∧ untimed_events evs1 = untimed_events evs2.
Proof.
  split.
  - unfold live_detections.
    apply live_detections_from_untimed, retimed_same_frames.
  - destruct (live_run_inv (retimed clock1 inputs) 0 None (Live.init sd)
                (live_inv_init sd)) as (st1 & evs1 & Hr1 & _).
    destruct (live_run_inv (retimed clock2 inputs) 0 None (Live.init sd)
                (live_inv_init sd)) as (st2 & evs2 & Hr2 & _).
    pose proof (live_run_from_untimed _ _ (Live.init sd)
                  (retimed_same_frames sd inputs clock1 clock2)) as Hsame.
    rewrite <- !(live_run_measured _ (Live.init sd)) in Hsame.
    rewrite Hr1, Hr2 in Hsame. destruct Hsame as [<- He].
    exists st1, evs1, evs2. auto.
Qed.

(** C10. When an event is emitted its release position is the newest
    position of the buffer, [n - 1], and the follow-through position,
    [min(release + 5, n - 1)], is the release position itself. *)
Theorem release_is_newest_frame :
  (∀ (st : Live.state) frame landmarks visibility now st' ev,
     Live.update st frame landmarks visibility now = Ok (st', Some ev) →
     ∃ loc, Live.locate st' (Live.current_idx st') = Ok (Some loc)
       ∧ Live.build st' loc now = Ok ev
       ∧ release_idx (Live.loc_keys loc) = len (Live.frames_buffer st') - 1
       ∧ followthrough_idx (Live.loc_keys loc) = release_idx (Live.loc_keys loc))
  ∧ (∀ (st : Debug.state) frame landmarks visibility frame_num timestamp_ms
       st' shot,
       Debug.process_frame st frame landmarks visibility frame_num timestamp_ms
       = Ok (st', Some shot) →
       release_idx (Debug.keys shot) = len (Debug.frames_buffer st') - 1
       ∧ followthrough_idx (Debug.keys shot) = release_idx (Debug.keys shot)).
Proof.
  split.
  - intros st frame landmarks visibility now st' ev Hu.
    destruct (live_emitted _ _ _ _ _ _ _ Hu)
      as (loc & L & Hloc & Hb & Hk & _ & Hbd & _).
    exists loc. split; [exact Hloc|]. split; [exact Hb|].
    rewrite Hk. cbn [sampled release_idx followthrough_idx].
    unfold Live.current_idx. lia.
  - intros st frame landmarks visibility frame_num timestamp_ms st' shot Hp.
    destruct (debug_emitted _ _ _ _ _ _ _ _ Hp) as (L & Hk & Hbd & _).
    rewrite Hk. cbn [sampled release_idx followthrough_idx].
    unfold Debug.current_idx. lia.
Qed.

End Results.

(** * Further results *)

Section FurtherResults.
Context `{External}.

(** X1. After any stream of frames, fed from [__init__], the buffers of the
    live detector hold exactly the newest 180 frames, landmarks, elbow
    angles and wrist heights of the stream, in stream order, and those of
    the debugger the newest 200 frames and metrics records; the runs do not
    raise. *)
Theorem buffers_hold_the_newest_frames (sd : string) :
  (∀ inputs : list Live.input,
     ∃ st evs, Live.run (Live.init sd) inputs = Ok (st, evs)
       ∧ Live.frames_buffer st = newest 180 (Live.in_frame <$> inputs)
       ∧ Live.landmarks_buffer st = newest 180 (Live.in_landmarks <$> inputs)
       ∧ Live.elbow_angles st
         = newest 180 (feat_angle <$> (live_measure sd <$> inputs))
       ∧ Live.wrist_heights st
         = newest 180 (feat_wrist_y <$> (live_measure sd <$> inputs)))
  ∧ (∀ inputs : list Debug.input,
       ∃ st evs, Debug.run (Debug.init sd) inputs = Ok (st, evs)
         ∧ Debug.frames_buffer st = newest 200 (Debug.in_frame <$> inputs)
         ∧ Debug.metrics_buffer st = newest 200 (debug_metrics sd <$> inputs)).
Proof.
  split; intros inputs.
  - destruct (live_run_trace sd inputs)
      as (st & evs & Hr & _ & _ & _ & Hf & Hl & He & Hw & _).
    exists st, evs. auto.
  - destruct (debug_run_trace sd inputs)
      as (st & evs & Hr & _ & _ & _ & Hf & Hm & _).
    exists st, evs. auto.
Qed.

(** X2. The stability counter is the number of frames in a row, up to the
    newest, on which the three joints of the shooting arm were found with
    every visibility above 0.5 (a missing visibility counts as 0): nothing
    but such a frame raises it, and any other frame sets it to zero. So an
    event at stream position [n] has the eight frames [n - 7], ..., [n]
    tracked in this sense. *)
Theorem stability_counts_tracked_frames (sd : string) :
  (∀ inputs : list Live.input,
     ∃ st evs, Live.run (Live.init sd) inputs = Ok (st, evs)
       ∧ Live.stability_count st = streak (live_measure sd <$> inputs)
       ∧ ∀ (n : nat) ev, evs !! n = Some (Some ev) →
           (7 ≤ n)%nat
           ∧ ∀ j : nat, (n - 7 ≤ j ≤ n)%nat →
               ∃ i, inputs !! j = Some i
                    ∧ feat_stable (live_measure sd i) = true)
  ∧ (∀ inputs : list Debug.input,
       ∃ st evs, Debug.run (Debug.init sd) inputs = Ok (st, evs)
         ∧ Debug.stability_count st = streak (debug_measure sd <$> inputs)
         ∧ ∀ (n : nat) shot, evs !! n = Some (Some shot) →
             (7 ≤ n)%nat
             ∧ ∀ j : nat, (n - 7 ≤ j ≤ n)%nat →
                 ∃ i, inputs !! j = Some i
                      ∧ feat_stable (debug_measure sd i) = true)
  ∧ (∀ landmarks visibility,
       feat_stable (extract sd landmarks visibility) = true
       ↔ is_Some (landmarks !! (sd +:+ "_shoulder"))
         ∧ is_Some (landmarks !! (sd +:+ "_elbow"))
         ∧ is_Some (landmarks !! (sd +:+ "_wrist"))
         ∧ ∀ j, j ∈ ["shoulder"; "elbow"; "wrist"] →
             PrimFloat.ltb 0.5
               (default 0%float (visibility !! (sd +:+ "_" +:+ j))) = true).
Proof.
  split; [|split].
  - intros inputs.
    destruct (live_run_trace sd inputs)
      as (st & evs & Hr & _ & _ & _ & _ & _ & _ & _ & Hs).
    exists st, evs. split; [exact Hr|]. split; [exact Hs|].
    intros n ev Hn.
    destruct (live_event_at sd inputs st evs n _ Hr Hn)
      as (i & stn & stn' & Hi & Hlen & _ & Hstep & Ht').
    destruct Ht' as (_ & _ & _ & _ & _ & _ & Hsc).
    unfold Live.step in Hstep. apply live_update_Some in Hstep.
    destruct Hstep as (st1 & loc & _ & Hst & _ & _ & _ & _ & ->).
    cbn [Live.record_shot Live.stability_count] in Hsc.
    unfold Live.stable in Hst. change Live.STABILITY_REQUIRED with 8 in Hst.
    apply negb_true_iff, Z.ltb_ge in Hst. rewrite Hsc in Hst.
    apply (streak_inputs (live_measure sd) inputs i n Hi Hlen Hst).
  - intros inputs.
    destruct (debug_run_trace sd inputs)
      as (st & evs & Hr & _ & _ & _ & _ & _ & Hs & _).
    exists st, evs. split; [exact Hr|]. split; [exact Hs|].
    intros n shot Hn.
    destruct (debug_event_at sd inputs st evs n _ Hr Hn)
      as (i & stn & stn' & Hi & Hlen & _ & Hstep & Ht').
    destruct Ht' as (_ & _ & _ & _ & Hsc & _).
    unfold Debug.step in Hstep. apply debug_process_Some in Hstep.
    destruct Hstep as (st1 & _ & Hst & _ & _ & _ & _ & ->).
    cbn [Debug.record_shot Debug.append_shot Debug.set_shot_count
         Debug.stability_count] in Hsc.
    unfold Debug.stable in Hst. change Debug.STABILITY_REQUIRED with 8 in Hst.
    apply negb_true_iff, Z.ltb_ge in Hst. rewrite Hsc in Hst.
    apply (streak_inputs (debug_measure sd) inputs i n Hi Hlen Hst).
  - intros landmarks visibility. unfold extract.
    destruct (landmarks !! (sd +:+ "_shoulder")) as [s|];
      [|cbn; split; [discriminate|intros ([? [=]] & _)]].
    destruct (landmarks !! (sd +:+ "_elbow")) as [e|];
      [|cbn; split; [discriminate|intros (_ & [? [=]] & _)]].
    destruct (landmarks !! (sd +:+ "_wrist")) as [w|];
      [|cbn; split; [discriminate|intros (_ & _ & [? [=]] & _)]].
    cbn [feat_stable]. rewrite forallb_forall. split.
    + intros Hall. repeat (split; [eexists; reflexivity|]).
      intros j Hj. apply Hall, list_elem_of_In, Hj.
    + intros (_ & _ & _ & Hall) j Hj. apply Hall, list_elem_of_In, Hj.
Qed.

(** X3. Whatever the frames, neither detector returns an event during the
    first ten calls after [__init__]: the earliest event is at stream
    position 10, the eleventh frame. *)
Theorem no_event_in_the_first_ten_frames (sd : string) :
  (∀ inputs : list Live.input,
     ∃ st evs, Live.run (Live.init sd) inputs = Ok (st, evs)
       ∧ Forall (λ n, 10 ≤ n) (emitted_at evs))
  ∧ (∀ inputs : list Debug.input,
       ∃ st evs, Debug.run (Debug.init sd) inputs = Ok (st, evs)
         ∧ Forall (λ n, 10 ≤ n) (emitted_at evs)).
Proof.
  split; intros inputs.
  - destruct (live_run_trace sd inputs) as (st & evs & Hr & _).
    exists st, evs. split; [exact Hr|].
    apply (live_run_schedule sd inputs st evs Hr).
  - destruct (debug_run_trace sd inputs) as (st & evs & Hr & _).
    exists st, evs. split; [exact Hr|].
    apply (debug_run_schedule sd inputs st evs Hr).
Qed.

(** X4. Over a whole stream, buffer evictions included, two consecutive
    events of a detector are at least 45 frames apart. *)
Theorem events_are_a_cooldown_apart (sd : string) :
  (∀ inputs : list Live.input,
     ∃ st evs, Live.run (Live.init sd) inputs = Ok (st, evs)
       ∧ gaps_at_least Live.COOLDOWN_FRAMES (emitted_at evs))
  ∧ (∀ inputs : list Debug.input,
       ∃ st evs, Debug.run (Debug.init sd) inputs = Ok (st, evs)
         ∧ gaps_at_least Debug.COOLDOWN_FRAMES (emitted_at evs)).
Proof.
  split; intros inputs.
  - destruct (live_run_trace sd inputs) as (st & evs & Hr & _).
    exists st, evs. split; [exact Hr|].
    apply (live_run_schedule sd inputs st evs Hr).
  - destruct (debug_run_trace sd inputs) as (st & evs & Hr & _).
    exists st, evs. split; [exact Hr|].
    apply (debug_run_schedule sd inputs st evs Hr).
Qed.

(** X5. The event [update] returns, on buffers of one length: it is
    numbered 0 and stamped with the clock reading; its eight labelled frames
    are taken from the buffer, and both the release frame and the
    follow-through frame are the frame of this very call; the release angle
    is the angle measured on this frame, above 155 degrees (the fallback
    of 170 is never taken); the wrist height is computed from the landmarks
    of this call; the load angle is one the search can select. *)
Theorem event_is_built_on_the_release_frame (st : Live.state) (frame : Frame)
    (landmarks : gmap string point) (visibility : gmap string float)
    (now : float) (st' : Live.state) (ev : Live.ShotEvent) :
  live_wf st →
  Live.update st frame landmarks visibility now = Ok (st', Some ev) →
  Live.shot_number ev = 0 ∧ Live.timestamp ev = now
  ∧ (Live.frames ev).*1
    = ["1_Stance"; "2_Load"; "3_Mid1"; "4_Mid2"; "5_Mid3"; "6_Mid4";
       "7_Release"; "8_FollowThrough"]
  ∧ Live.frames ev !! 6%nat = Some ("7_Release", frame)
  ∧ Live.frames ev !! 7%nat = Some ("8_FollowThrough", frame)
  ∧ (∀ x, x ∈ (Live.frames ev).*2 → x ∈ Live.frames_buffer st')
  ∧ feat_angle (extract (Live.side st) landmarks visibility)
    = Some (Live.elbow_angle_release ev)
  ∧ PrimFloat.ltb Live.RELEASE_ANGLE (Live.elbow_angle_release ev) = true
  ∧ Live.wrist_height_release ev
    = Live._calculate_wrist_height (Live.side st) landmarks
  ∧ usable (Some (Live.elbow_angle_load ev)) = true.
Proof.
  intros Hwf Hu. apply live_update_Some in Hu.
  destruct Hu as (st1 & loc & Hi & _ & _ & Hrel & Hloc & Hb & ->).
  destruct (live_located st1 loc Hloc) as (L & Heq & Hbd & Hmin).
  pose proof (live_ingest_last _ _ _ _ _ Hwf Hi)
    as (H0 & Hll & Hle & Hfr & Hlm & Hea & Hsd).
  set (R := Live.current_idx st1) in *.
  assert (Hn : len (Live.frames_buffer st1) = R + 1)
    by (unfold R, Live.current_idx; lia).
  apply live_build_inv in Hb. cbn zeta in Hb.
  destruct Hb as (f1 & f2 & f3 & f4 & f5 & f6 & f7 & f8 & ra & ll & rl
                  & G1 & G2 & G3 & G4 & G5 & G6 & G7 & G8 & Hra & _ & Hrl & ->).
  rewrite Heq in G1, G2, G3, G4, G5, G6, G7, G8, Hra, Hrl.
  cbn [Live.loc_keys] in G1, G2, G3, G4, G5, G6, G7, G8, Hra, Hrl.
  pose proof (sampled_chain L R (len (Live.frames_buffer st1))
                ltac:(lia) ltac:(lia) ltac:(lia)) as Hch.
  apply chain_bounds in Hch.
  destruct Hch as (B1 & B2 & B3 & B4 & B5 & B6 & B7 & B8).
  apply getitem_inv in G1, G2, G3, G4, G5, G6, G7, G8; try lia.
  cbn [sampled release_idx followthrough_idx] in G7, G8, Hra, Hrl.
  replace (Z.min (R + 5) (len (Live.frames_buffer st1) - 1)) with R in G8 by lia.
  destruct G7 as [_ G7], G8 as [_ G8]. rewrite Hfr in G7, G8.
  injection G7 as <-. injection G8 as <-.
  destruct (Z.ltb_spec R (len (Live.elbow_angles st1))); [|lia].
  apply getitem_inv in Hra, Hrl; try lia.
  destruct Hra as [_ Hra], Hrl as [_ Hrl].
  rewrite Hea in Hra. injection Hra as Hra. rewrite Hlm in Hrl. injection Hrl as <-.
  destruct (live_released_angle _ Hrel) as (a & Hfa & Hta & Hlt & _).
  rewrite Hra in Hfa. injection Hfa as <-.
  cbn [Live.shot_number Live.timestamp Live.frames Live.elbow_angle_release
       Live.wrist_height_release Live.elbow_angle_load Live.record_shot
       Live.frames_buffer fmap list_fmap fst snd].
  rewrite Hta, Hsd.
  repeat (split; [reflexivity|]).
  split.
  { assert (Hall : Forall (λ y, y ∈ Live.frames_buffer st1)
                      [f1; f2; f3; f4; f5; f6; frame; frame]).
    { repeat constructor; eapply list_elem_of_lookup_2;
        first [exact (proj2 G1) | exact (proj2 G2) | exact (proj2 G3)
              | exact (proj2 G4) | exact (proj2 G5) | exact (proj2 G6)
              | exact Hfr]. }
    rewrite Forall_forall in Hall. exact Hall. }
  split; [exact Hra|]. split; [exact Hlt|]. split; [reflexivity|].
  destruct Hmin as (_ & _ & Hus & _). exact Hus.
Qed.

(** X6. After a call of [update] on buffers of one length,
    [get_current_angle] returns the elbow angle measured on the frame of
    that call, and [None] when that frame gave no angle or the angle 0.0:
    never an angle of an older frame. *)
Theorem current_angle_is_of_the_newest_frame (st : Live.state) (frame : Frame)
    (landmarks : gmap string point) (visibility : gmap string float)
    (now : float) (st' : Live.state) (o : option Live.ShotEvent) :
  live_wf st →
  Live.update st frame landmarks visibility now = Ok (st', o) →
  let a := feat_angle (extract (Live.side st) landmarks visibility) in
  get_current_angle st' = Ok (if otruthy a then a else None).
Proof.
  intros Hwf Hu a.
  assert (Hst : ∃ st1, Live.ingest st frame landmarks
                         (extract (Live.side st) landmarks visibility) = Ok st1
                       ∧ Live.elbow_angles st' = Live.elbow_angles st1).
  { destruct o as [ev|].
    - apply live_update_Some in Hu.
      destruct Hu as (st1 & loc & Hi & _ & _ & _ & _ & _ & ->). eauto.
    - apply live_update_None in Hu. eauto. }
  destruct Hst as (st1 & Hi & He).
  pose proof (live_ingest_last _ _ _ _ _ Hwf Hi) as (H0 & _ & Hle & _ & _ & Hea & _).
  fold a in Hea. unfold get_current_angle. rewrite He.
  set (R := Live.current_idx st1) in *.
  assert (Hg : getitem (Live.elbow_angles st1) (-1) = Ok a).
  { apply getitem_last; [lia|]. rewrite Hle.
    replace (R + 1 - 1) with R by lia. exact Hea. }
  destruct (Live.elbow_angles st1) as [|x l] eqn:El;
    [change (len []) with 0 in Hle; lia|].
  rewrite Hg. cbn [mbind result_bind]. destruct (otruthy a); reflexivity.
Qed.

(** X7. Over any stream, the list of shots of the debugger holds the shots
    its calls returned, in order; they are numbered 1, 2, 3, ... without a
    gap, rejected candidates leaving no number behind; and the counter the
    summary prints is their number. *)
Theorem debug_shots_are_numbered_in_order (sd : string)
    (inputs : list Debug.input) :
  ∃ st evs, Debug.run (Debug.init sd) inputs = Ok (st, evs)
    ∧ Debug.shots st = events_of evs
    ∧ Debug.shot_count st = len (events_of evs)
    ∧ Debug.shot_num <$> events_of evs = seqZ 1 (len (events_of evs)).
Proof.
  destruct (debug_run_trace sd inputs)
    as (st & evs & Hr & _ & _ & _ & _ & _ & _ & Hsh & Hct & Hnum).
  exists st, evs. rewrite <- Hsh. auto.
Qed.

(** X8. For a shot returned on buffers of one length, the guard of
    [_save_shot_debug] holds for each of the eight key frames: eight images
    are written, in the order Stance to FollowThrough, each the buffer frame
    at its key position and each annotated from the metrics record of that
    position. *)
Theorem debug_saves_eight_images (st : Debug.state) (frame : Frame)
    (landmarks : gmap string point) (visibility : gmap string float)
    (frame_num : Z) (timestamp_ms : float) (st' : Debug.state)
    (shot : Debug.DetectedShot) :
  debug_wf st →
  Debug.process_frame st frame landmarks visibility frame_num timestamp_ms
  = Ok (st', Some shot) →
  ∃ out, _save_shot_debug st' shot = Ok out
    ∧ out.*1.*1 = ["1_Stance"; "2_Load"; "3_Mid1"; "4_Mid2"; "5_Mid3";
                   "6_Mid4"; "7_Release"; "8_FollowThrough"]
    ∧ ∀ name x m, (name, x, m) ∈ out →
        ∃ idx mm, (name, idx) ∈ saved_key_frames (Debug.keys shot)
          ∧ Debug.frames_buffer st' !! Z.to_nat idx = Some x
          ∧ Debug.metrics_buffer st' !! Z.to_nat idx = Some mm
          ∧ m = Some mm.
Proof.
  intros Hwf Hp.
  destruct (debug_emitted_slice _ _ _ _ _ _ _ _ Hwf Hp)
    as (L & Hk & Hb & Hlm & _ & _).
  set (n := len (Debug.frames_buffer st')) in *.
  pose proof (sampled_chain L (n - 1) n ltac:(lia) ltac:(lia) ltac:(lia)) as Hch.
  apply chain_bounds in Hch. rewrite <- Hk in Hch.
  set (g := λ e : string * Z,
         (e.1, default frame (Debug.frames_buffer st' !! Z.to_nat e.2),
          Debug.metrics_buffer st' !! Z.to_nat e.2)).
  assert (Hone : ∀ e, e ∈ saved_key_frames (Debug.keys shot) →
            0 ≤ e.2 < n
            ∧ save_key_frame st' e = Ok [g e]
            ∧ is_Some (Debug.frames_buffer st' !! Z.to_nat e.2)
            ∧ is_Some (Debug.metrics_buffer st' !! Z.to_nat e.2)).
  { intros [name idx] He.
    assert (Hidx : 0 ≤ idx < n).
    { unfold saved_key_frames in He.
      repeat (apply elem_of_cons in He; destruct He as [[= -> ->]|He]; [lia|]).
      inversion He. }
    split; [exact Hidx|]. unfold save_key_frame, g. cbn [fst snd]. fold n.
    destruct (Z.leb_spec 0 idx); [|lia]. destruct (Z.ltb_spec idx n); [|lia].
    cbn [andb]. rewrite Hlm. destruct (Z.ltb_spec idx n); [|lia].
    destruct (getitem_Ok (Debug.frames_buffer st') idx) as (x & Ex & Lx); [fold n; lia|].
    destruct (getitem_Ok (Debug.metrics_buffer st') idx) as (m & Em & Lm); [lia|].
    rewrite Ex, Em, Lx, Lm. cbn [mbind result_bind default]. eauto. }
  exists (g <$> saved_key_frames (Debug.keys shot)).
  split; [apply collect_singletons; intros e He; apply (Hone e He)|].
  split; [reflexivity|].
  intros name x m Hin. apply list_elem_of_fmap in Hin.
  destruct Hin as ([name' idx] & Heq & He).
  destruct (Hone _ He) as (_ & _ & [y Hy] & [mm Hmm]).
  unfold g in Heq. cbn [fst snd] in *. rewrite Hy, Hmm in Heq.
  injection Heq as -> -> ->. exists idx, mm. auto.
Qed.

(** X9. The angle plot of a shot returned on buffers of one length marks a
    key frame ten positions late: the marker named after the key frame at
    buffer position [b] is drawn at the frame number and the angle of buffer
    position [b + 10], and only if that position exists and holds an angle
    that is not 0.0. So the release and the follow-through, at the newest
    position, are never marked. *)
Theorem plot_markers_are_ten_frames_late (st : Debug.state) (frame : Frame)
    (landmarks : gmap string point) (visibility : gmap string float)
    (frame_num : Z) (timestamp_ms : float) (st' : Debug.state)
    (shot : Debug.DetectedShot) :
  debug_wf st →
  Debug.process_frame st frame landmarks visibility frame_num timestamp_ms
  = Ok (st', Some shot) →
  ∃ markers, _create_angle_plot shot = Ok markers
    ∧ (∀ name x a, (name, x, a) ∈ markers ↔
         ∃ b m, (name, b) ∈ plotted_key_frames (Debug.keys shot)
           ∧ Debug.metrics_buffer st' !! Z.to_nat (b + 10) = Some m
           ∧ Debug.frame_num m = x ∧ Debug.elbow_angle m = Some a
           ∧ truthy a = true)
    ∧ ∀ x a, (("Release", x, a) ∉ markers) ∧ (("Follow", x, a) ∉ markers).
Proof.
  intros Hwf Hp.
  destruct (debug_emitted_slice _ _ _ _ _ _ _ _ Hwf Hp)
    as (L & Hk & Hb & Hlm & Hfs & Hfm).
  set (n := len (Debug.frames_buffer st')) in *.
  pose proof (sampled_chain L (n - 1) n ltac:(lia) ltac:(lia) ltac:(lia)) as Hch.
  pose proof Hch as (_ & C1 & C2 & C3 & C4 & C5 & C6 & C7 & _).
  apply chain_bounds in Hch. rewrite <- Hk in Hch, C1, C2, C3, C4, C5, C6, C7.
  assert (Hst : stance_idx (Debug.keys shot) = Z.max 0 (L - 5))
    by (rewrite Hk; reflexivity).
  set (g := λ e : string * Z,
         match Debug.metrics_buffer st' !! Z.to_nat (e.2 + 10) with
         | Some m =>
             match Debug.elbow_angle m with
             | Some a => if truthy a then [(e.1, Debug.frame_num m, a)] else []
             | None => []
             end
         | None => []
         end).
  assert (Hone : ∀ e, e ∈ plotted_key_frames (Debug.keys shot) →
            plot_marker shot e = Ok (g e)).
  { intros [name b] He.
    assert (Hidx : stance_idx (Debug.keys shot) ≤ b < n).
    { unfold plotted_key_frames in He.
      repeat (apply elem_of_cons in He; destruct He as [[= -> ->]|He]; [lia|]).
      inversion He. }
    unfold plot_marker, g. cbn [fst snd].
    assert (Hlf : len (Debug.frame_metrics shot) = n - Debug.frame_start shot).
    { rewrite Hfm, len_drop, Hlm. lia. }
    rewrite Hlf.
    destruct (Z.leb_spec 0 (b - Debug.frame_start shot + 10)); [|lia].
    cbn [andb].
    destruct (Z.ltb_spec (b - Debug.frame_start shot + 10)
                (n - Debug.frame_start shot)) as [Hin|Hout].
    - destruct (getitem_Ok (Debug.frame_metrics shot)
                  (b - Debug.frame_start shot + 10)) as (m & Em & Lm); [lia|].
      rewrite Em. cbn [mbind result_bind].
      rewrite Hfm, lookup_drop in Lm.
      replace (Z.to_nat (Debug.frame_start shot)
               + Z.to_nat (b - Debug.frame_start shot + 10))%nat
        with (Z.to_nat (b + 10)) in Lm by lia.
      rewrite Lm. destruct (Debug.elbow_angle m) as [a|]; [|reflexivity].
      destruct (truthy a); reflexivity.
    - rewrite (proj2 (lookup_ge_None _ _)); [reflexivity|].
      unfold len in Hlm. lia. }
  destruct (collect_elem (plot_marker shot) g
              (plotted_key_frames (Debug.keys shot)) Hone) as (ms & Hms & Hiff).
  exists ms. split; [exact Hms|].
  assert (Hchar : ∀ name x a, (name, x, a) ∈ ms ↔
            ∃ b m, (name, b) ∈ plotted_key_frames (Debug.keys shot)
              ∧ Debug.metrics_buffer st' !! Z.to_nat (b + 10) = Some m
              ∧ Debug.frame_num m = x ∧ Debug.elbow_angle m = Some a
              ∧ truthy a = true).
  { intros name x a. rewrite Hiff. split.
    - intros ([name' b] & He & Hy). unfold g in Hy. cbn [fst snd] in Hy.
      destruct (Debug.metrics_buffer st' !! Z.to_nat (b + 10)) as [m|] eqn:Em;
        [|inversion Hy].
      destruct (Debug.elbow_angle m) as [a'|] eqn:Ea; [|inversion Hy].
      destruct (truthy a') eqn:Et; [|inversion Hy].
      apply list_elem_of_singleton in Hy. injection Hy as -> -> ->.
      exists b, m. auto.
    - intros (b & m & He & Em & Hx & Ea & Et). exists (name, b).
      split; [exact He|]. unfold g. cbn [fst snd]. rewrite Em, Ea, Et, Hx.
      apply list_elem_of_singleton. reflexivity. }
  split; [exact Hchar|].
  assert (Hnewest : ∀ name x a, (name, x, a) ∈ ms →
            name = "Release" ∨ name = "Follow" → False).
  { intros name x a Hin Hname. apply Hchar in Hin.
    destruct Hin as (b & m & He & Em & _).
    assert (Hb' : b = n - 1).
    { unfold plotted_key_frames in He. rewrite Hk in He.
      cbn [sampled release_idx followthrough_idx] in He.
      repeat (apply elem_of_cons in He;
              destruct He as [[= -> ->]|He];
              [first [lia | destruct Hname; discriminate]|]).
      inversion He. }
    apply lookup_lt_Some in Em. unfold len in Hlm. lia. }
  intros x a. split; intros Hin; eapply Hnewest; eauto.
Qed.

(** X10. The ring buffer of the live detector is transparent: over any
    stream the detector returns events at the positions, with the key
    frames (as stream positions) and with the load and release angles, that
    the same rules give on a history that is never trimmed. *)
Theorem live_detects_as_on_an_untrimmed_history (sd : string)
    (inputs : list Live.input) :
  to_stream Live.max_buffer <$> live_detections sd inputs
  = stream_detections (live_measure sd <$> inputs).
Proof.
  unfold live_detections, stream_detections.
  rewrite (live_stream_from _ 0 None [] (Live.init sd) (live_inv_init sd));
    [|reflexivity|reflexivity].
  rewrite snd_zip by (rewrite length_fmap; lia). reflexivity.
Qed.

(** X11. The debugger sees what the live detector sees: fed the same
    frames, landmarks and visibilities, whatever the frame numbers, time
    stamps and clock readings, the two return events at the same stream
    positions, with the same load and release angles and, as stream
    positions, the same eight key frames, the different buffer capacities
    (200 and 180) notwithstanding. *)
Theorem debugger_detects_what_live_detects (sd : string)
    (inputs : list Debug.input) (clock : nat → float) :
  to_stream Debug.max_buffer <$> debug_detections sd inputs
  = to_stream Live.max_buffer <$> live_detections sd (as_live clock inputs).
Proof.
  unfold live_detections.
  rewrite (live_stream_from _ 0 None [] (Live.init sd) (live_inv_init sd));
    [|reflexivity|reflexivity].
  rewrite snd_zip by (rewrite length_fmap; lia).
  destruct (debug_stream_from sd inputs 0 None [] (Debug.init sd)
              (debug_inv_init sd) eq_refl eq_refl eq_refl)
    as (st & evs & Hr & Hd).
  unfold debug_detections. rewrite Hr, Hd.
  cbn [Live.init Live.stability_count Debug.init Debug.stability_count].
  f_equal. unfold as_live. clear.
  generalize clock. induction inputs as [|i inputs IH]; intros c; [reflexivity|].
  cbn [imap fmap list_fmap]. f_equal. apply (IH (c ∘ S)).
Qed.

(** X12. The height profiles partition the heights from 0 to 99 inches:
    for such a height [get_height_profile] returns a profile whose range
    holds it, and no other profile of [HEIGHT_PROFILES] has it in range. A
    negative height and a height of 100 inches or more are in no range and
    get the average profile. *)
Theorem height_profile_is_the_one_in_range (h : Z) :
  let p := Biomechanics.get_height_profile h in
  p ∈ Biomechanics.HEIGHT_PROFILES.*2
  ∧ (0 ≤ h < 100 →
       Biomechanics.in_range h p = true
       ∧ ∀ q, q ∈ Biomechanics.HEIGHT_PROFILES.*2 →
              Biomechanics.in_range h q = true → q = p)
  ∧ (h < 0 ∨ 100 ≤ h →
       p = Biomechanics.average
       ∧ ∀ q, q ∈ Biomechanics.HEIGHT_PROFILES.*2 →
              Biomechanics.in_range h q = false).
Proof.
  assert (Hall : ∀ P : Biomechanics.HeightProfile → Prop,
            P Biomechanics.compact → P Biomechanics.average →
            P Biomechanics.tall → P Biomechanics.very_tall →
            ∀ q, q ∈ Biomechanics.HEIGHT_PROFILES.*2 → P q).
  { intros P H1 H2 H3 H4 q Hq.
    cbn [Biomechanics.HEIGHT_PROFILES fmap list_fmap snd] in Hq.
    repeat (apply elem_of_cons in Hq; destruct Hq as [->|Hq]; [assumption|]).
    inversion Hq. }
  assert (Hmem : Forall (λ q, q ∈ Biomechanics.HEIGHT_PROFILES.*2)
                   [Biomechanics.compact; Biomechanics.average;
                    Biomechanics.tall; Biomechanics.very_tall]).
  { cbn [Biomechanics.HEIGHT_PROFILES fmap list_fmap snd].
    repeat constructor. }
  apply Forall_cons in Hmem. destruct Hmem as [M1 Hmem].
  apply Forall_cons in Hmem. destruct Hmem as [M2 Hmem].
  apply Forall_cons in Hmem. destruct Hmem as [M3 Hmem].
  apply Forall_cons in Hmem. destruct Hmem as [M4 _].
  assert (R1 : Biomechanics.in_range h Biomechanics.compact
               = (0 <=? h) && (h <? 68)) by reflexivity.
  assert (R2 : Biomechanics.in_range h Biomechanics.average
               = (68 <=? h) && (h <? 74)) by reflexivity.
  assert (R3 : Biomechanics.in_range h Biomechanics.tall
               = (74 <=? h) && (h <? 79)) by reflexivity.
  assert (R4 : Biomechanics.in_range h Biomechanics.very_tall
               = (79 <=? h) && (h <? 100)) by reflexivity.
  assert (Hg : Biomechanics.get_height_profile h
               = if Biomechanics.in_range h Biomechanics.compact
                 then Biomechanics.compact
                 else if Biomechanics.in_range h Biomechanics.average
                 then Biomechanics.average
                 else if Biomechanics.in_range h Biomechanics.tall
                 then Biomechanics.tall
                 else if Biomechanics.in_range h Biomechanics.very_tall
                 then Biomechanics.very_tall
                 else Biomechanics.average).
  { unfold Biomechanics.get_height_profile.
    cbn [Biomechanics.HEIGHT_PROFILES fmap list_fmap snd List.find].
    repeat match goal with
           | |- context [if ?b then _ else _] => destruct b
           end; reflexivity. }
  cbn zeta. rewrite Hg. clear Hg.
  assert (Hcases : h < 0 ∨ 0 ≤ h < 68 ∨ 68 ≤ h < 74 ∨ 74 ≤ h < 79
                   ∨ 79 ≤ h < 100 ∨ 100 ≤ h) by lia.
  assert (Hb : ∀ a b, ((a <=? h) && (h <? b) = true ↔ a ≤ h < b)).
  { intros a b. rewrite andb_true_iff, Z.leb_le, Z.ltb_lt. reflexivity. }
  assert (Hf : ∀ a b, ((a <=? h) && (h <? b) = false ↔ ¬ a ≤ h < b)).
  { intros a b. rewrite <- Hb. destruct ((a <=? h) && (h <? b)); split;
      congruence. }
  destruct Hcases as [Hc|[Hc|[Hc|[Hc|[Hc|Hc]]]]].
  - assert (E1 : Biomechanics.in_range h Biomechanics.compact = false)
      by (rewrite R1; apply Hf; lia).
    assert (E2 : Biomechanics.in_range h Biomechanics.average = false)
      by (rewrite R2; apply Hf; lia).
    assert (E3 : Biomechanics.in_range h Biomechanics.tall = false)
      by (rewrite R3; apply Hf; lia).
    assert (E4 : Biomechanics.in_range h Biomechanics.very_tall = false)
      by (rewrite R4; apply Hf; lia).
    rewrite E1, E2, E3, E4. split; [exact M2|]. split; [lia|].
    intros _. split; [reflexivity|]. apply Hall; assumption.
  - assert (E1 : Biomechanics.in_range h Biomechanics.compact = true)
      by (rewrite R1; apply Hb; lia).
    rewrite E1. split; [exact M1|]. split; [|lia].
    intros _. split; [exact E1|]. apply (Hall (λ q, Biomechanics.in_range h q = true
                          → q = Biomechanics.compact));
      [reflexivity| | |];
      intros E; [rewrite R2 in E|rewrite R3 in E|rewrite R4 in E];
      apply Hb in E; lia.
  - assert (E1 : Biomechanics.in_range h Biomechanics.compact = false)
      by (rewrite R1; apply Hf; lia).
    assert (E2 : Biomechanics.in_range h Biomechanics.average = true)
      by (rewrite R2; apply Hb; lia).
    rewrite E1, E2. split; [exact M2|]. split; [|lia].
    intros _. split; [exact E2|]. apply (Hall (λ q, Biomechanics.in_range h q = true
                          → q = Biomechanics.average));
      [|reflexivity| |];
      intros E; [rewrite R1 in E|rewrite R3 in E|rewrite R4 in E];
      apply Hb in E; lia.
  - assert (E1 : Biomechanics.in_range h Biomechanics.compact = false)
      by (rewrite R1; apply Hf; lia).
    assert (E2 : Biomechanics.in_range h Biomechanics.average = false)
      by (rewrite R2; apply Hf; lia).
    assert (E3 : Biomechanics.in_range h Biomechanics.tall = true)
      by (rewrite R3; apply Hb; lia).
    rewrite E1, E2, E3. split; [exact M3|]. split; [|lia].
    intros _. split; [exact E3|]. apply (Hall (λ q, Biomechanics.in_range h q = true
                          → q = Biomechanics.tall));
      [| |reflexivity|];
      intros E; [rewrite R1 in E|rewrite R2 in E|rewrite R4 in E];
      apply Hb in E; lia.
  - assert (E1 : Biomechanics.in_range h Biomechanics.compact = false)
      by (rewrite R1; apply Hf; lia).
    assert (E2 : Biomechanics.in_range h Biomechanics.average = false)
      by (rewrite R2; apply Hf; lia).
    assert (E3 : Biomechanics.in_range h Biomechanics.tall = false)
      by (rewrite R3; apply Hf; lia).
    assert (E4 : Biomechanics.in_range h Biomechanics.very_tall = true)
      by (rewrite R4; apply Hb; lia).
    rewrite E1, E2, E3, E4. split; [exact M4|]. split; [|lia].
    intros _. split; [exact E4|]. apply (Hall (λ q, Biomechanics.in_range h q = true
                          → q = Biomechanics.very_tall));
      [| | |reflexivity];
      intros E; [rewrite R1 in E|rewrite R2 in E|rewrite R3 in E];
      apply Hb in E; lia.
  - assert (E1 : Biomechanics.in_range h Biomechanics.compact = false)
      by (rewrite R1; apply Hf; lia).
    assert (E2 : Biomechanics.in_range h Biomechanics.average = false)
      by (rewrite R2; apply Hf; lia).
    assert (E3 : Biomechanics.in_range h Biomechanics.tall = false)
      by (rewrite R3; apply Hf; lia).
    assert (E4 : Biomechanics.in_range h Biomechanics.very_tall = false)
      by (rewrite R4; apply Hf; lia).
    rewrite E1, E2, E3, E4. split; [exact M2|]. split; [lia|].
    intros _. split; [reflexivity|]. apply Hall; assumption.
Qed.

(** X13. The label the loop gives the load angle of a detected shot:
    below_optimal under 80 degrees, above_optimal over 100 degrees, optimal
    from 80 to 100 degrees. The last branch of the source is then taken
    only by an angle above 100: the load angle of a detected shot is a
    number. *)
Theorem elbow_label_of_a_detected_shot (st : Live.state) (frame : Frame)
    (landmarks : gmap string point) (visibility : gmap string float)
    (now : float) (st' : Live.state) (ev : Live.ShotEvent)
    (profile : Session.PlayerProfile) :
  Live.update st frame landmarks visibility now = Ok (st', Some ev) →
  Session.la_vs_research_elbow (Session.local_analysis profile ev)
  = if PrimFloat.ltb (Live.elbow_angle_load ev) 80 then "below_optimal"
    else if PrimFloat.ltb 100 (Live.elbow_angle_load ev) then "above_optimal"
    else "optimal".
Proof.
  intros Hu. apply live_event_load_usable in Hu.
  apply usable_below_inf, fleb_refl in Hu.
  cbn [Session.local_analysis Session.la_vs_research_elbow].
  unfold Session.vs_research_elbow.
  cbn [Biomechanics.min_val Biomechanics.max_val Biomechanics.ELBOW_ANGLE_LOAD].
  rewrite (fleb_negb_ltb 80 (Live.elbow_angle_load ev) eq_refl Hu).
  rewrite (fleb_negb_ltb (Live.elbow_angle_load ev) 100 Hu eq_refl).
  destruct (PrimFloat.ltb (Live.elbow_angle_load ev) 80);
    destruct (PrimFloat.ltb 100 (Live.elbow_angle_load ev)); reflexivity.
Qed.

(** X14. A session numbers its shots 1, 2, 3, ... in the order it hands
    them to the feedback client, and [total_shots] is their count: through
    any passes of the loop whose pixel conversions succeed, whatever
    replies arrive meanwhile, and across a switch of the shooting hand,
    which starts a new detector but not a new count. The loop itself does
    not raise. *)
Theorem session_numbers_its_shots (from_file : bool) (sd : string)
    (profile : Session.PlayerProfile) (has_key : bool)
    (ticks : list Session.tick) :
  sd = "left" ∨ sd = "right" →
  forallb Session.pixels_ok ticks = true →
  ∃ a sent,
    Session.run (Session.init from_file sd profile has_key) ticks = Ok (a, sent)
    ∧ Live.shot_number <$> sent.*1 = seqZ 1 (len sent)
    ∧ Session.total_shots (Session.state a) = len sent.
Proof.
  intros Hsd Hpx.
  destruct (session_run_spec ticks (Session.init from_file sd profile has_key))
    as (a & sent & Hr & _ & Ht & Hn & _);
    [repeat split; reflexivity|exact Hsd|exact Hpx|].
  exists a, sent. split; [exact Hr|]. split; [exact Hn|].
  rewrite Ht. cbn. lia.
Qed.

(** X15. At the end of any such passes, whatever the replies of the
    feedback client hold: [shots_made] and [shots_missed] count the stored
    metrics whose [made] is not [None] and is true, or false, in the truth
    test of [on_shot_analyzed], so that together they do not exceed the
    number of stored metrics, and the history has one entry for each;
    [total_makes] and [total_misses] of [get_make_miss_patterns], which
    count the metrics whose [made] equals [True], or [False], are at most
    [shots_made] and [shots_missed], and a summary is missing exactly when
    its total is 0. When every reply has [true], [false] or [null] for
    [made], the totals are the counters. *)
Theorem counters_bound_the_patterns (mean : list float → float)
    (from_file : bool) (sd : string) (profile : Session.PlayerProfile)
    (has_key : bool) (ticks : list Session.tick) :
  sd = "left" ∨ sd = "right" →
  forallb Session.pixels_ok ticks = true →
  ∃ a sent,
    Session.run (Session.init from_file sd profile has_key) ticks = Ok (a, sent)
    ∧ let s := Session.state a in
      let p := Session.get_make_miss_patterns mean s in
      Session.tallied s
      ∧ Session.shots_made s + Session.shots_missed s
        ≤ len (Session.shot_metrics s)
      ∧ Session.total_makes p ≤ Session.shots_made s
      ∧ Session.total_misses p ≤ Session.shots_missed s
      ∧ (Session.makes p = None ↔ Session.total_makes p = 0)
      ∧ (Session.misses p = None ↔ Session.total_misses p = 0)
      ∧ ((∀ t c, t ∈ ticks → c ∈ Session.tick_replies t →
                 Session.plain (Session.made c.1.1.2) = true) →
         Session.total_makes p = Session.shots_made s
         ∧ Session.total_misses p = Session.shots_missed s).
Proof.
  intros Hsd Hpx.
  destruct (session_run_spec ticks (Session.init from_file sd profile has_key))
    as (a & sent & Hr & _ & _ & _ & Hy & Hq);
    [repeat split; reflexivity|exact Hsd|exact Hpx|].
  exists a, sent. split; [exact Hr|].
  assert (Ht : Session.tallied (Session.state a))
    by (apply Hy; repeat split; reflexivity).
  pose proof Ht as (Hm & Hx & Hh).
  cbn zeta.
  cbn [Session.get_make_miss_patterns Session.total_makes Session.total_misses
       Session.makes Session.misses].
  rewrite !avg_metrics_None.
  split; [exact Ht|].
  split; [rewrite Hm, Hx; apply len_makes_misses|].
  split; [rewrite Hm; apply len_filter_mono, is_make_counts|].
  split; [rewrite Hx; apply len_filter_mono, is_miss_counts|].
  split; [reflexivity|]. split; [reflexivity|].
  intros Hplain.
  destruct (plain_counts (Session.shot_metrics (Session.state a))) as [-> ->].
  - apply (Hq (λ v, Session.plain v = true)); [reflexivity|exact Hplain|].
    constructor.
  - split; [symmetry; exact Hm|symmetry; exact Hx].
Qed.

(** X16. Without a key for the feedback client, every detected shot is
    recorded at once and unjudged: after any such passes the metrics hold
    the shots numbered 1, 2, 3, ..., each with [made] left at [None], both
    counters are 0, and from the first shot on the feedback shown is the
    request to set the key. *)
Theorem without_a_key_no_shot_is_judged (from_file : bool) (sd : string)
    (profile : Session.PlayerProfile) (ticks : list Session.tick) :
  sd = "left" ∨ sd = "right" →
  forallb Session.pixels_ok ticks = true →
  ∃ a sent,
    Session.run (Session.init from_file sd profile false) ticks = Ok (a, sent)
    ∧ Session.shots_made (Session.state a) = 0
    ∧ Session.shots_missed (Session.state a) = 0
    ∧ Session.m_shot_number <$> Session.shot_metrics (Session.state a)
      = seqZ 1 (len sent)
    ∧ Session.m_made <$> Session.shot_metrics (Session.state a)
      = replicate (length sent) Session.PNone
    ∧ (sent ≠ [] →
       Session.current_feedback (Session.state a)
       = Session.PStr "Set GEMINI_API_KEY for AI feedback").
Proof.
  intros Hsd Hpx.
  assert (Hwf : live_wf (Session.shot_detector
                           (Session.init from_file sd profile false)))
    by (repeat split; reflexivity).
  destruct (session_run_spec ticks _ Hwf Hsd Hpx)
    as (a & sent & Hr & _ & _ & Hn & _).
  destruct (session_run_no_key ticks _ Hwf Hsd Hpx eq_refl)
    as (a' & sent' & Hr' & Hm & Hx & Hnum & Hmade & Hfb).
  rewrite Hr in Hr'. injection Hr' as <- <-.
  exists a, sent. split; [exact Hr|].
  split; [exact Hm|]. split; [exact Hx|].
  split; [rewrite Hnum; exact Hn|]. split; [exact Hmade|].
  intros Hne. rewrite Hfb. destruct sent; [congruence|reflexivity].
Qed.

(** X17. [PoseDetector.detect] returns two dictionaries with the same keys:
    the name of every entry of [LANDMARK_NAMES] whose index the first pose
    of the results reaches, with the coordinates and the visibility of the
    landmark at that index, and no other key. Both are empty when the
    landmarker raises or finds no pose. It raises nothing itself. *)
Theorem detect_fills_the_named_landmarks
    (results : option (list (list Pose.Landmark))) :
  ∃ lms vis,
    Pose.detect results = Ok (lms, vis)
    ∧ (∀ idx name, (idx, name) ∈ Pose.LANDMARK_NAMES →
         lms !! name = Pose.xyz <$> Pose.first_pose results !! Z.to_nat idx
         ∧ vis !! name
           = Pose.visibility <$> Pose.first_pose results !! Z.to_nat idx)
    ∧ (∀ name, name ∉ Pose.LANDMARK_NAMES.*2 →
         lms !! name = None ∧ vis !! name = None)
    ∧ (∀ name, is_Some (lms !! name) ↔ is_Some (vis !! name))
    ∧ (Pose.first_pose results = [] → lms = ∅ ∧ vis = ∅).
Proof.
  destruct (detect_spec results) as (lms & vis & Hd & Hin & Hout).
  exists lms, vis. split; [exact Hd|]. split; [exact Hin|].
  split; [exact Hout|].
  assert (Hcase : ∀ name,
            name ∉ Pose.LANDMARK_NAMES.*2
            ∨ ∃ idx, (idx, name) ∈ Pose.LANDMARK_NAMES).
  { intros name.
    destruct (decide (name ∈ Pose.LANDMARK_NAMES.*2)) as [Hm|Hm]; [|auto].
    right. apply list_elem_of_fmap in Hm. destruct Hm as ([idx n] & -> & Hm).
    exists idx. exact Hm. }
  split.
  - intros name. destruct (Hcase name) as [Hm|[idx Hm]].
    + destruct (Hout name Hm) as [-> ->].
      split; intros [? Hs]; discriminate Hs.
    + destruct (Hin idx name Hm) as [-> ->]. rewrite !fmap_is_Some. reflexivity.
  - intros He. split; apply map_eq; intros name; rewrite lookup_empty;
      (destruct (Hcase name) as [Hm|[idx Hm]];
       [apply (Hout name Hm)|]);
      destruct (Hin idx name Hm) as [Hl Hv]; rewrite He in Hl, Hv;
      rewrite lookup_nil in Hl, Hv; assumption.
Qed.

(** X18. The detectors measure the arm on landmarks 11, 13 and 15 of the
    first pose for the left side and 12, 14 and 16 for the right side: the
    elbow angle between them, the height of the wrist, the wrist above the
    shoulder, and the frame is tracked when the three visibilities exceed
    0.5. A frame on which the landmarker raises, finds no pose or finds
    fewer landmarks gives no measurement and is not tracked. *)
Theorem measurement_comes_from_the_first_pose
    (results : option (list (list Pose.Landmark))) :
  let of_arm (shoulder elbow wrist : nat) :=
    match Pose.first_pose results !! shoulder,
          Pose.first_pose results !! elbow,
          Pose.first_pose results !! wrist with
    | Some s, Some e, Some w =>
        {| feat_angle := Some (_calculate_angle (Pose.xyz s) (Pose.xyz e)
                                 (Pose.xyz w));
           feat_wrist_y := Some (Pose.y w);
           feat_above := PrimFloat.ltb (Pose.y w) (Pose.y s);
           feat_stable :=
             forallb (λ lm, PrimFloat.ltb 0.5 (Pose.visibility lm)) [s; e; w] |}
    | _, _, _ =>
        {| feat_angle := None; feat_wrist_y := None;
           feat_above := false; feat_stable := false |}
    end in
  ∃ lms vis,
    Pose.detect results = Ok (lms, vis)
    ∧ extract "left" lms vis = of_arm 11%nat 13%nat 15%nat
    ∧ extract "right" lms vis = of_arm 12%nat 14%nat 16%nat.
Proof.
  destruct (detect_spec results) as (lms & vis & Hd & Hin & _).
  exists lms, vis. split; [exact Hd|].
  assert (Hmem : Forall (λ e, e ∈ Pose.LANDMARK_NAMES)
                   [(11, "left_shoulder"); (13, "left_elbow");
                    (15, "left_wrist"); (12, "right_shoulder");
                    (14, "right_elbow"); (16, "right_wrist")]).
  { unfold Pose.LANDMARK_NAMES.
    repeat (constructor; [repeat first [apply list_elem_of_here
                                       | apply list_elem_of_further]|]).
    constructor. }
  repeat (apply Forall_cons in Hmem; destruct Hmem as [?M Hmem]).
  apply Hin in M, M0, M1, M2, M3, M4. clear Hmem Hin.
  change (Z.to_nat 11) with 11%nat in M. change (Z.to_nat 13) with 13%nat in M0.
  change (Z.to_nat 15) with 15%nat in M1. change (Z.to_nat 12) with 12%nat in M2.
  change (Z.to_nat 14) with 14%nat in M3. change (Z.to_nat 16) with 16%nat in M4.
  destruct M as [L1 V1], M0 as [L2 V2], M1 as [L3 V3], M2 as [L4 V4],
    M3 as [L5 V5], M4 as [L6 V6].
  split; unfold extract; cbn [String.app forallb];
    change ("left" +:+ "_shoulder") with "left_shoulder";
    change ("left" +:+ "_elbow") with "left_elbow";
    change ("left" +:+ "_wrist") with "left_wrist";
    change ("left" +:+ "_" +:+ "shoulder") with "left_shoulder";
    change ("left" +:+ "_" +:+ "elbow") with "left_elbow";
    change ("left" +:+ "_" +:+ "wrist") with "left_wrist";
    change ("right" +:+ "_shoulder") with "right_shoulder";
    change ("right" +:+ "_elbow") with "right_elbow";
    change ("right" +:+ "_wrist") with "right_wrist";
    change ("right" +:+ "_" +:+ "shoulder") with "right_shoulder";
    change ("right" +:+ "_" +:+ "elbow") with "right_elbow";
    change ("right" +:+ "_" +:+ "wrist") with "right_wrist";
    rewrite ?L1, ?L2, ?L3, ?L4, ?L5, ?L6, ?V1, ?V2, ?V3, ?V4, ?V5, ?V6.
  - destruct (Pose.first_pose results !! 11%nat) as [s|];
      destruct (Pose.first_pose results !! 13%nat) as [e|];
      destruct (Pose.first_pose results !! 15%nat) as [w|]; reflexivity.
  - destruct (Pose.first_pose results !! 12%nat) as [s|];
      destruct (Pose.first_pose results !! 14%nat) as [e|];
      destruct (Pose.first_pose results !! 16%nat) as [w|]; reflexivity.
Qed.

End FurtherResults.

(** * Concrete runs *)

(** The examples run the detectors in the outside world [bench]. *)
#[local] Existing Instance bench.

(** Closed goals are settled by evaluation, conjunct by conjunct. *)
Ltac by_evaluation :=
  repeat match goal with |- _ ∧ _ => split end; vm_compute; reflexivity.

(** C1 on [bench]: a trim that evicts three frames takes a stored index of 2
    to 0; after 250 frames of a held arm, 70 of them evicted, the last event
    was at frame 235 and the call for frame 250 is inside the cooldown. *)
Lemma ring_buffer_rebased_witness :
  (live_wf bench_overfull
   ∧ ∃ st', Live._trim_buffer bench_overfull = Ok st'
       ∧ len (Live.frames_buffer st') = 180 ∧ Live.last_shot_frame st' = 0)
  ∧ (last_accepted (bench_events (bench_hold 170 250)) = Some 235
     ∧ ∃ st1, Live.ingest (bench_state (bench_hold 170 250))
                (250%nat : @Frame bench) (bench_pose 170 true)
                (scenario_features true 0 (None, true)) = Ok st1
         ∧ Live.cooled st1 = false)
  ∧ (debug_wf bench_debug_overfull
     ∧ ∃ st', Debug._trim_buffer bench_debug_overfull = Ok st'
         ∧ len (Debug.frames_buffer st') = 200 ∧ Debug.last_shot_frame st' = 0)
  ∧ (last_accepted (bench_debug_events (bench_debug_hold 250)) = Some 235
     ∧ ∃ st1, Debug.ingest (bench_debug_state (bench_debug_hold 250))
                (250%nat : @Frame bench) (bench_pose 170 true)
                (scenario_features true 0 (None, true)) 251 0%float = Ok st1
         ∧ Debug.cooled st1 = false).
Proof.
  pose proof (ring_buffer_rebased (H:=bench) "right") as (Ht & Hr & Hdt & Hdr).
  split; [|split; [|split]].
  - assert (Hwf : live_wf bench_overfull) by (repeat split; reflexivity).
    split; [exact Hwf|].
    destruct (Ht bench_overfull Hwf) as (st' & Htrim & Hlen & Hlast).
    exists st'. split; [exact Htrim|]. cbn zeta in Hlast.
    rewrite Hlen in Hlast. rewrite Hlen, Hlast. split; vm_compute; reflexivity.
  - assert (Ha : last_accepted (bench_events (bench_hold 170 250)) = Some 235)
      by (vm_compute; reflexivity).
    split; [exact Ha|].
    destruct (Hr (bench_hold 170 250)) as (st & evs & Hrun & _ & _ & Hcool).
    unfold bench_events, bench_state in *. rewrite Hrun in *.
    destruct (Hcool (250%nat : @Frame bench) (bench_pose 170 true)
                (scenario_features true 0 (None, true)) 235 Ha) as (st1 & Hi & Hc).
    exists st1. split; [exact Hi|]. rewrite Hc. vm_compute. reflexivity.
  - assert (Hwf : debug_wf bench_debug_overfull) by reflexivity.
    split; [exact Hwf|].
    destruct (Hdt bench_debug_overfull Hwf) as (st' & Htrim & Hlen & Hlast).
    exists st'. split; [exact Htrim|]. cbn zeta in Hlast.
    rewrite Hlen in Hlast. rewrite Hlen, Hlast. split; vm_compute; reflexivity.
  - assert (Ha : last_accepted (bench_debug_events (bench_debug_hold 250)) = Some 235)
      by (vm_compute; reflexivity).
    split; [exact Ha|].
    destruct (Hdr (bench_debug_hold 250)) as (st & evs & Hrun & _ & _ & Hcool).
    unfold bench_debug_events, bench_debug_state in *. rewrite Hrun in *.
    destruct (Hcool (250%nat : @Frame bench) (bench_pose 170 true)
                (scenario_features true 0 (None, true)) 251 0%float 235 Ha) as (st1 & Hi & Hc).
    exists st1. split; [exact Hi|]. rewrite Hc. vm_compute. reflexivity.
Defined.

(** The eleventh frame of the held arm, position 10, is the first one both
    detectors accept: the stability run is complete at position 7, and the
    flat history puts the load at position 0, so positions 7, 8 and 9 are
    rejected by the minimum duration. *)
Lemma bench_hold_accepts :
  Live.update (bench_state (bench_hold 170 10)) (10%nat : @Frame bench)
    (bench_pose 170 true) bench_visibility (float_of_int 10)
  = Ok (bench_state (bench_hold 170 11), Some (bench_shot (bench_hold 170 11))).
Proof. vm_compute. reflexivity. Qed.

Lemma bench_debug_hold_accepts :
  Debug.process_frame (bench_debug_state (bench_debug_hold 10))
    (10%nat : @Frame bench) (bench_pose 170 true) bench_visibility 11
    (float_of_int 10)
  = Ok (bench_debug_state (bench_debug_hold 11),
        Some (bench_debug_shot (bench_debug_hold 11))).
Proof. vm_compute. reflexivity. Qed.

Lemma Ok_Some_is_Some {A B} (a a' : A) (o : option B) (b : B) :
  Ok (a, o) = Ok (a', Some b) → is_Some o.
Proof. intros [= _ ->]. eexists. reflexivity. Qed.

(** C2 on [bench]: the call for position 10 returns an event, and the four
    conditions hold at it. *)
Lemma event_only_when_all_hold_witness :
  (live_wf (bench_state (bench_hold 170 10))
   ∧ ∃ st1 st' o,
       Live.ingest (bench_state (bench_hold 170 10)) (10%nat : @Frame bench)
         (bench_pose 170 true)
         (extract (Live.side (bench_state (bench_hold 170 10)))
            (bench_pose 170 true) bench_visibility)
       = Ok st1
       ∧ Live.update (bench_state (bench_hold 170 10)) (10%nat : @Frame bench)
           (bench_pose 170 true) bench_visibility (float_of_int 10)
         = Ok (st', o)
       ∧ is_Some o
       ∧ 8 ≤ Live.stability_count st1
       ∧ 45 ≤ Live.current_idx st1 - Live.last_shot_frame st1)
  ∧ (debug_wf (bench_debug_state (bench_debug_hold 10))
     ∧ ∃ st1 st' o,
         Debug.ingest (bench_debug_state (bench_debug_hold 10))
           (10%nat : @Frame bench) (bench_pose 170 true)
           (extract (Debug.side (bench_debug_state (bench_debug_hold 10)))
              (bench_pose 170 true) bench_visibility) 11
           (float_of_int 10) = Ok st1
         ∧ Debug.process_frame (bench_debug_state (bench_debug_hold 10))
             (10%nat : @Frame bench) (bench_pose 170 true) bench_visibility 11
             (float_of_int 10)
           = Ok (st', o)
         ∧ is_Some o
         ∧ 8 ≤ Debug.stability_count st1
         ∧ 45 ≤ Debug.current_idx st1 - Debug.last_shot_frame st1).
Proof.
  pose proof (event_only_when_all_hold (H:=bench)) as [Hl Hd].
  split.
  - assert (Hwf : live_wf (bench_state (bench_hold 170 10)))
      by (repeat split; reflexivity).
    split; [exact Hwf|].
    destruct (Hl (bench_state (bench_hold 170 10)) (10%nat : @Frame bench)
                (bench_pose 170 true) bench_visibility (float_of_int 10) Hwf)
      as (st1 & st' & o & Hi & Hu & Hsome & _).
    exists st1, st', o. split; [exact Hi|]. split; [exact Hu|].
    assert (Ho : is_Some o).
    { exact (Ok_Some_is_Some _ _ _ _ (eq_trans (eq_sym Hu) bench_hold_accepts)). }
    split; [exact Ho|]. destruct (Hsome Ho) as (Hs & Hc & _). split; assumption.
  - assert (Hwf : debug_wf (bench_debug_state (bench_debug_hold 10)))
      by reflexivity.
    split; [exact Hwf|].
    destruct (Hd (bench_debug_state (bench_debug_hold 10)) (10%nat : @Frame bench)
                (bench_pose 170 true) bench_visibility 11 (float_of_int 10) Hwf)
      as (st1 & st' & o & Hi & Hu & Hsome & _).
    exists st1, st', o. split; [exact Hi|]. split; [exact Hu|].
    assert (Ho : is_Some o).
    { exact (Ok_Some_is_Some _ _ _ _
               (eq_trans (eq_sym Hu) bench_debug_hold_accepts)). }
    split; [exact Ho|]. destruct (Hsome Ho) as (Hs & Hc & _). split; assumption.
Defined.

(** C3 on [bench]: the call for position 9 fires and is rejected, nine
    positions after the load; it leaves the state [ingest] produced, and the
    call for the next frame returns an event. *)
Lemma rejection_leaves_no_trace_witness :
  Live.ingest (bench_state (bench_hold 170 9)) (9%nat : @Frame bench)
    (bench_pose 170 true)
    (extract (Live.side (bench_state (bench_hold 170 9)))
       (bench_pose 170 true) bench_visibility)
  = Ok (bench_state (bench_hold 170 10))
  ∧ Live.search_load (Live.elbow_angles (bench_state (bench_hold 170 10)))
      (range (Z.max 0 (9 - 60)) 9) (infinity, 9) = Ok (170%float, 0)
  ∧ Live.update (bench_state (bench_hold 170 9)) (9%nat : @Frame bench)
      (bench_pose 170 true) bench_visibility (float_of_int 9)
    = Ok (bench_state (bench_hold 170 10), None)
  ∧ ∃ st1,
      Live.ingest (bench_state (bench_hold 170 10)) (10%nat : @Frame bench)
        (bench_pose 170 true)
        (extract (Live.side (bench_state (bench_hold 170 10)))
           (bench_pose 170 true) bench_visibility)
      = Ok st1
      ∧ bench_state (bench_hold 170 11) = Live.record_shot st1 (Live.current_idx st1).
Proof.
  pose proof (rejection_leaves_no_trace (H:=bench) (bench_state (bench_hold 170 9))
                (9%nat : @Frame bench) (bench_pose 170 true) bench_visibility
                (float_of_int 9)) as [Hrej _].
  pose proof (rejection_leaves_no_trace (H:=bench) (bench_state (bench_hold 170 10))
                (10%nat : @Frame bench) (bench_pose 170 true) bench_visibility
                (float_of_int 10)) as [_ Hset].
  split; [vm_compute; reflexivity|]. split; [vm_compute; reflexivity|]. split.
  - apply (Hrej (bench_state (bench_hold 170 10)) 170%float 0);
      try (vm_compute; reflexivity).
  - destruct (Hset (bench_state (bench_hold 170 11))
                (Some (bench_shot (bench_hold 170 11)))) as (st1 & Hi & Hst).
    + exact bench_hold_accepts.
    + exists st1. split; [exact Hi|exact Hst].
Defined.

(** C4 on the scenario: its angles are in degrees, and the search from
    position 94 finds the load at position 79, at 80 degrees, the earliest
    least defined angle of positions 34 to 93. On [bench], the event at
    position 10 of the held arm has its load at the earliest of the equal
    angles, position 0. *)
Lemma load_is_earliest_least_defined_witness :
  window_in_degrees scenario_history (Z.max 0 (94 - 60)) 94
  ∧ Live.search_load scenario_history (range (Z.max 0 (94 - 60)) 94) (infinity, 94)
    = Ok (80%float, 79)
  ∧ earliest_least_defined scenario_history 34 94 79 80
  ∧ ∃ loc,
      Live.locate (bench_state (bench_hold 170 11))
        (Live.current_idx (bench_state (bench_hold 170 11))) = Ok (Some loc)
      ∧ earliest_least_defined
          (Live.elbow_angles (bench_state (bench_hold 170 11))) 0 10
          (load_idx (Live.loc_keys loc)) 170.
Proof.
  assert (Hw : window_in_degrees scenario_history (Z.max 0 (94 - 60)) 94)
    by (apply history_in_degrees_window; vm_compute; reflexivity).
  assert (Hs : Live.search_load scenario_history (range (Z.max 0 (94 - 60)) 94)
                 (infinity, 94) = Ok (80%float, 79)) by (vm_compute; reflexivity).
  split; [exact Hw|]. split; [exact Hs|].
  pose proof (load_is_earliest_least_defined (H:=bench))
    as (Hsearch & _ & Hev & _).
  split.
  - destruct (Hsearch scenario_history 94 (80%float, 79) Hw Hs) as [[_ Hr]|Hmin].
    + discriminate Hr.
    + exact Hmin.
  - assert (Hb : history_in_degrees
                   (Live.elbow_angles (bench_state (bench_hold 170 11))) = true)
      by (vm_compute; reflexivity).
    destruct (Hev _ _ _ _ _ _ _ bench_hold_accepts
                (history_in_degrees_window _ Hb _ _))
      as (loc & Hloc & _ & Hmin).
    exists loc. split; [exact Hloc|]. exact Hmin.
Defined.

(** C5 on [bench]: the event at position 10 has its load ten positions
    before the release. *)
Lemma emitted_duration_at_least_minimum_witness :
  (∃ loc, Live.locate (bench_state (bench_hold 170 11))
            (Live.current_idx (bench_state (bench_hold 170 11))) = Ok (Some loc)
     ∧ Live.build (bench_state (bench_hold 170 11)) loc (float_of_int 10)
       = Ok (bench_shot (bench_hold 170 11))
     ∧ Live.MIN_SHOT_FRAMES
       ≤ release_idx (Live.loc_keys loc) - load_idx (Live.loc_keys loc))
  ∧ Debug.MIN_SHOT_FRAMES
    ≤ release_idx (Debug.keys (bench_debug_shot (bench_debug_hold 11)))
      - load_idx (Debug.keys (bench_debug_shot (bench_debug_hold 11))).
Proof.
  pose proof (emitted_duration_at_least_minimum (H:=bench)) as (Hl & _ & Hd & _).
  split.
  - exact (Hl _ _ _ _ _ _ _ bench_hold_accepts).
  - exact (Hd _ _ _ _ _ _ _ _ bench_debug_hold_accepts).
Defined.

(** C6 on [bench]: the positions of the event at position 10. *)
Lemma key_frames_chain_witness :
  (∃ loc, Live.locate (bench_state (bench_hold 170 11))
            (Live.current_idx (bench_state (bench_hold 170 11))) = Ok (Some loc)
     ∧ Live.build (bench_state (bench_hold 170 11)) loc (float_of_int 10)
       = Ok (bench_shot (bench_hold 170 11))
     ∧ let k := Live.loc_keys loc in
       let n := len (Live.frames_buffer (bench_state (bench_hold 170 11))) in
       k = sampled (load_idx k) (release_idx k) n ∧ chain k n)
  ∧ (let k := Debug.keys (bench_debug_shot (bench_debug_hold 11)) in
     let n := len (Debug.frames_buffer (bench_debug_state (bench_debug_hold 11))) in
     k = sampled (load_idx k) (release_idx k) n ∧ chain k n).
Proof.
  pose proof (key_frames_chain (H:=bench)) as (Hl & Hd).
  split.
  - exact (Hl _ _ _ _ _ _ _ bench_hold_accepts).
  - exact (Hd _ _ _ _ _ _ _ _ bench_debug_hold_accepts).
Defined.

(** C10 on [bench]: release and follow-through of the event at position 10
    are both position 10. *)
Lemma release_is_newest_frame_witness :
  (∃ loc, Live.locate (bench_state (bench_hold 170 11))
            (Live.current_idx (bench_state (bench_hold 170 11))) = Ok (Some loc)
     ∧ Live.build (bench_state (bench_hold 170 11)) loc (float_of_int 10)
       = Ok (bench_shot (bench_hold 170 11))
     ∧ release_idx (Live.loc_keys loc)
       = len (Live.frames_buffer (bench_state (bench_hold 170 11))) - 1
     ∧ followthrough_idx (Live.loc_keys loc) = release_idx (Live.loc_keys loc))
  ∧ (release_idx (Debug.keys (bench_debug_shot (bench_debug_hold 11)))
     = len (Debug.frames_buffer (bench_debug_state (bench_debug_hold 11))) - 1
     ∧ followthrough_idx (Debug.keys (bench_debug_shot (bench_debug_hold 11)))
       = release_idx (Debug.keys (bench_debug_shot (bench_debug_hold 11)))).
Proof.
  pose proof (release_is_newest_frame (H:=bench)) as (Hl & Hd).
  split.
  - exact (Hl _ _ _ _ _ _ _ bench_hold_accepts).
  - exact (Hd _ _ _ _ _ _ _ _ bench_debug_hold_accepts).
Defined.

(** C8 on [bench]: the shot at position 10 carries the whole history of the
    eleven frames, positions 0 to 10. *)
Lemma debug_slice_span_witness :
  debug_wf (bench_debug_state (bench_debug_hold 10))
  ∧ Debug.frame_metrics (bench_debug_shot (bench_debug_hold 11))
    = span (Debug.metrics_buffer (bench_debug_state (bench_debug_hold 11))) 0 10.
Proof.
  assert (Hwf : debug_wf (bench_debug_state (bench_debug_hold 10))) by reflexivity.
  split; [exact Hwf|].
  pose proof (debug_slice_span (H:=bench) _ _ _ _ _ _ _ _ Hwf
                bench_debug_hold_accepts) as Hspan.
  cbn zeta in Hspan. rewrite Hspan. vm_compute. reflexivity.
Defined.


(** ** Where the code parts from the specification *)


(** C8 as stated fails for the live detector: two streams that differ in the
    angle of frame 5 return the very same event at position 10, whose stance
    is position 0 and whose follow-through is position 10, so that frame 5
    is inside the span. The event carries no feature history. *)
Lemma live_event_has_no_history :
  live_detections "right" (bench_hold 170 11) = [scenario_det_10]
  ∧ live_detections "right" (bench_hold 171 11) = [scenario_det_10]
  ∧ Live.update (bench_state (bench_hold 170 10)) (10%nat : @Frame bench)
      (bench_pose 170 true) bench_visibility (float_of_int 10)
    = Ok (bench_state (bench_hold 170 11), Some (bench_shot (bench_hold 170 11)))
  ∧ Live.update (bench_state (bench_hold 171 10)) (10%nat : @Frame bench)
      (bench_pose 170 true) bench_visibility (float_of_int 10)
    = Ok (bench_state (bench_hold 171 11), Some (bench_shot (bench_hold 170 11)))
  ∧ span (Live.elbow_angles (bench_state (bench_hold 170 11))) 0 10 !! 5%nat
    = Some (Some 170%float)
  ∧ span (Live.elbow_angles (bench_state (bench_hold 171 11))) 0 10 !! 5%nat
    = Some (Some 171%float)
  ∧ PrimFloat.eqb 170 171 = false.
Proof. by_evaluation. Qed.

(** ** Further results on [bench] *)

(** X5 on [bench]: in the event at position 10 of the held arm, frames 6
    and 7 are both frame 10, the frame of the call. *)
Lemma event_is_built_on_the_release_frame_witness :
  live_wf (bench_state (bench_hold 170 10))
  ∧ Live.frames (bench_shot (bench_hold 170 11)) !! 6%nat
    = Some ("7_Release", (10%nat : @Frame bench))
  ∧ Live.frames (bench_shot (bench_hold 170 11)) !! 7%nat
    = Some ("8_FollowThrough", (10%nat : @Frame bench))
  ∧ PrimFloat.ltb Live.RELEASE_ANGLE
      (Live.elbow_angle_release (bench_shot (bench_hold 170 11))) = true.
Proof.
  assert (Hwf : live_wf (bench_state (bench_hold 170 10)))
    by (repeat split; reflexivity).
  split; [exact Hwf|].
  destruct (event_is_built_on_the_release_frame (H:=bench) _ _ _ _ _ _ _ Hwf
              bench_hold_accepts) as (_ & _ & _ & H6 & H7 & _ & _ & Hlt & _).
  split; [exact H6|]. split; [exact H7|exact Hlt].
Defined.

(** X6 on [bench]: after the call for position 10 the current angle is the
    170 degrees of that frame. *)
Lemma current_angle_is_of_the_newest_frame_witness :
  live_wf (bench_state (bench_hold 170 10))
  ∧ get_current_angle (bench_state (bench_hold 170 11)) = Ok (Some 170%float).
Proof.
  assert (Hwf : live_wf (bench_state (bench_hold 170 10)))
    by (repeat split; reflexivity).
  split; [exact Hwf|].
  pose proof (current_angle_is_of_the_newest_frame (H:=bench) _ _ _ _ _ _ _ Hwf
                bench_hold_accepts) as Hc.
  cbn zeta in Hc. rewrite Hc. vm_compute. reflexivity.
Defined.

(** X8 on [bench]: the eight images of the shot at position 10. *)
Lemma debug_saves_eight_images_witness :
  debug_wf (bench_debug_state (bench_debug_hold 10))
  ∧ ∃ out,
      _save_shot_debug (bench_debug_state (bench_debug_hold 11))
        (bench_debug_shot (bench_debug_hold 11)) = Ok out
      ∧ out.*1.*1 = ["1_Stance"; "2_Load"; "3_Mid1"; "4_Mid2"; "5_Mid3";
                     "6_Mid4"; "7_Release"; "8_FollowThrough"].
Proof.
  assert (Hwf : debug_wf (bench_debug_state (bench_debug_hold 10))) by reflexivity.
  split; [exact Hwf|].
  destruct (debug_saves_eight_images (H:=bench) _ _ _ _ _ _ _ _ Hwf
              bench_debug_hold_accepts) as (out & Ho & Hn & _).
  exists out. split; [exact Ho|exact Hn].
Defined.

(** X9 on [bench]: the shot at position 10 has its stance and its load at
    position 0, which is frame number 1; both markers are drawn at frame
    number 11, the frame of position 10, and there is no other marker. *)
Lemma plot_markers_are_ten_frames_late_witness :
  debug_wf (bench_debug_state (bench_debug_hold 10))
  ∧ (∃ markers,
       _create_angle_plot (bench_debug_shot (bench_debug_hold 11)) = Ok markers
       ∧ ∀ x a, (("Release", x, a) ∉ markers) ∧ (("Follow", x, a) ∉ markers))
  ∧ _create_angle_plot (bench_debug_shot (bench_debug_hold 11))
    = Ok [("Stance", 11, 170%float); ("Load", 11, 170%float)]
  ∧ load_idx (Debug.keys (bench_debug_shot (bench_debug_hold 11))) = 0.
Proof.
  assert (Hwf : debug_wf (bench_debug_state (bench_debug_hold 10))) by reflexivity.
  split; [exact Hwf|]. split.
  - destruct (plot_markers_are_ten_frames_late (H:=bench) _ _ _ _ _ _ _ _ Hwf
                bench_debug_hold_accepts) as (ms & Hms & _ & Hno).
    exists ms. split; [exact Hms|exact Hno].
  - split; vm_compute; reflexivity.
Defined.

(** X13 on [bench]: the shot of the held arm has its load at 170 degrees,
    which is labelled above_optimal. *)
Lemma elbow_label_of_a_detected_shot_witness :
  Session.la_vs_research_elbow
    (Session.local_analysis bench_profile (bench_shot (bench_hold 170 11)))
  = "above_optimal".
Proof.
  rewrite (elbow_label_of_a_detected_shot (H:=bench) _ _ _ _ _ _ _ bench_profile
             bench_hold_accepts).
  vm_compute. reflexivity.
Defined.

Lemma bench_session_pixels : forallb Session.pixels_ok bench_session = true.
Proof. vm_compute. reflexivity. Qed.

Lemma bench_session_quoted_pixels :
  forallb Session.pixels_ok bench_session_quoted = true.
Proof. vm_compute. reflexivity. Qed.

Lemma bench_session_sent (has_key : bool) :
  match Session.run (Session.init false "right" bench_profile has_key)
          bench_session with
  | Ok (a, sent) =>
      (len sent, Session.shots_made (Session.state a),
       Session.m_made <$> Session.shot_metrics (Session.state a))
  | Raise _ => (0, 0, [])
  end
  = if has_key then (1, 1, [Session.PBool true]) else (1, 0, [Session.PNone]).
Proof. destruct has_key; vm_compute; reflexivity. Qed.

Lemma bench_session_quoted_sent :
  match Session.run (Session.init false "right" bench_profile true)
          bench_session_quoted with
  | Ok (a, sent) =>
      (Session.shots_made (Session.state a),
       Session.total_makes
         (Session.get_make_miss_patterns bench_mean (Session.state a)))
  | Raise _ => (0, 0)
  end
  = (1, 0).
Proof. vm_compute. reflexivity. Qed.

Lemma bench_session_plain (t : @Session.tick bench)
    (c : @Live.ShotEvent bench * Session.Analysis * float * float) :
  t ∈ bench_session → c ∈ Session.tick_replies t →
  Session.plain (Session.made c.1.1.2) = true.
Proof.
  unfold bench_session. intros Ht Hc. apply elem_of_app in Ht.
  destruct Ht as [Ht|Ht].
  - apply list_elem_of_fmap in Ht. destruct Ht as (i & -> & _).
    cbn [bench_tick Session.tick_replies] in Hc. inversion Hc.
  - apply list_elem_of_singleton in Ht. subst t.
    cbn [bench_reply_tick Session.tick_replies] in Hc.
    apply list_elem_of_singleton in Hc. subst c. reflexivity.
Qed.

(** X14 on [bench]: the session of the held arm hands one shot on, with
    the number 1. *)
Lemma session_numbers_its_shots_witness :
  ("right" = "left" ∨ "right" = "right")
  ∧ forallb Session.pixels_ok bench_session = true
  ∧ ∃ a sent,
      Session.run (Session.init false "right" bench_profile true) bench_session
      = Ok (a, sent)
      ∧ Live.shot_number <$> sent.*1 = [1]
      ∧ Session.total_shots (Session.state a) = 1.
Proof.
  split; [right; reflexivity|]. split; [exact bench_session_pixels|].
  destruct (session_numbers_its_shots (H:=bench) false "right" bench_profile
              true bench_session (or_intror eq_refl) bench_session_pixels)
    as (a & sent & Hr & Hn & Ht).
  pose proof (bench_session_sent true) as Hs. rewrite Hr in Hs.
  injection Hs as Hl _ _.
  exists a, sent. split; [exact Hr|]. rewrite Hn, Ht, Hl.
  split; reflexivity.
Defined.

(** X15 on [bench]: once the reply on the shot is in, one make is counted
    and the patterns count one make; with the quoted reply one make is
    counted and the patterns count none. *)
Lemma counters_bound_the_patterns_witness :
  ("right" = "left" ∨ "right" = "right")
  ∧ forallb Session.pixels_ok bench_session = true
  ∧ forallb Session.pixels_ok bench_session_quoted = true
  ∧ (∃ a sent,
       Session.run (Session.init false "right" bench_profile true) bench_session
       = Ok (a, sent)
       ∧ Session.shots_made (Session.state a) = 1
       ∧ Session.total_makes
           (Session.get_make_miss_patterns bench_mean (Session.state a)) = 1)
  ∧ (∃ a sent,
       Session.run (Session.init false "right" bench_profile true)
         bench_session_quoted
       = Ok (a, sent)
       ∧ Session.tallied (Session.state a)
       ∧ Session.shots_made (Session.state a) = 1
       ∧ Session.total_makes
           (Session.get_make_miss_patterns bench_mean (Session.state a)) = 0).
Proof.
  split; [right; reflexivity|]. split; [exact bench_session_pixels|].
  split; [exact bench_session_quoted_pixels|]. split.
  - destruct (counters_bound_the_patterns (H:=bench) bench_mean false "right"
                bench_profile true bench_session (or_intror eq_refl)
                bench_session_pixels)
      as (a & sent & Hr & Hp).
    cbn zeta in Hp. destruct Hp as (_ & _ & _ & _ & _ & _ & Heq).
    destruct (Heq bench_session_plain) as [Hm _].
    pose proof (bench_session_sent true) as Hs. rewrite Hr in Hs.
    injection Hs as _ Hmade _.
    exists a, sent. split; [exact Hr|]. split; [exact Hmade|].
    rewrite Hm. exact Hmade.
  - destruct (counters_bound_the_patterns (H:=bench) bench_mean false "right"
                bench_profile true bench_session_quoted (or_intror eq_refl)
                bench_session_quoted_pixels)
      as (a & sent & Hr & Hp).
    cbn zeta in Hp. destruct Hp as (Ht & _).
    pose proof bench_session_quoted_sent as Hs. rewrite Hr in Hs.
    injection Hs as Hmade Htot.
    exists a, sent. split; [exact Hr|]. split; [exact Ht|].
    split; [exact Hmade|exact Htot].
Defined.

(** X16 on [bench]: without a key the shot of the held arm is recorded
    with the number 1 and unjudged, and the key is asked for. *)
Lemma without_a_key_no_shot_is_judged_witness :
  ("right" = "left" ∨ "right" = "right")
  ∧ forallb Session.pixels_ok bench_session = true
  ∧ ∃ a sent,
      Session.run (Session.init false "right" bench_profile false) bench_session
      = Ok (a, sent)
      ∧ Session.m_shot_number <$> Session.shot_metrics (Session.state a) = [1]
      ∧ Session.shots_made (Session.state a) = 0
      ∧ Session.current_feedback (Session.state a)
        = Session.PStr "Set GEMINI_API_KEY for AI feedback".
Proof.
  split; [right; reflexivity|]. split; [exact bench_session_pixels|].
  destruct (without_a_key_no_shot_is_judged (H:=bench) false "right"
              bench_profile bench_session (or_intror eq_refl)
              bench_session_pixels)
    as (a & sent & Hr & Hm & _ & Hn & _ & Hf).
  pose proof (bench_session_sent false) as Hs. rewrite Hr in Hs.
  injection Hs as Hl _ _.
  exists a, sent. split; [exact Hr|]. rewrite Hn, Hl.
  split; [reflexivity|]. split; [exact Hm|].
  apply Hf. intros ->. discriminate Hl.
Defined.
